(** * QsLog file destinations: rotation strategies and the write path

    A shallow embedding of [QsLogDestFile.cpp] / [QsLogDestFile.h]:
    the size-triggered and the daily rotation strategy, the two file
    destinations that drive them, and the parts of Qt they call
    ([QString::split], [QString::arg], [QDateTime], [QFileInfo], [QDir],
    [QFile]), the latter modelled after Qt's documented behaviour.

    Conventions.
    - A [QString] is modelled by the bytes of its UTF-8 encoding (a Rocq
      [string]), so [message.toUtf8().size()] is [String.length] and the
      bytes that reach the file are the string itself.
    - [int] and [qint64] values are [Z]; the file sizes involved stay far
      below 2^63, so no wrap-around is written out for the running size.
    - The outside world (files, clock, working directory, [std::cerr]) is
      an explicit [World] value threaded through every operation.  The
      clock does not move while one operation runs: the several
      [QDateTime::currentDateTime()] reads of one call see one instant.
    - A strategy is owned by its destination; no other holder of the
      shared pointer changes it between two calls. *)

From Stdlib Require Import ZArith String Ascii List Lia Bool.
From Stdlib Require Import DecimalString DecimalZ DecimalPos.
From stdpp Require Import base gmap strings list.

Local Open Scope string_scope.
Local Open Scope Z_scope.

(* ===================================================================== *)
(** ** Qt primitives used by the source *)
(* ===================================================================== *)

Module Qt.

(** *** Strings *)

(** [QString::number(n)] / [QString::arg(int)]: base 10, a leading [-]
    for negative numbers, no padding. *)
Definition number (n : Z) : string := NilZero.string_of_int (Z.to_int n).

(** [QString::split(sep)] for a one-character separator, keeping empty
    parts (the default [Qt::KeepEmptyParts]). *)
Fixpoint split (sep : ascii) (s : string) : list string :=
  match s with
  | EmptyString => [""]
  | String c r =>
      if Ascii.eqb c sep then "" :: split sep r
      else
        match split sep r with
        | h :: t => String c h :: t
        | [] => [String c ""]
        end
  end.

(** [QStringList::at(i)]; the source only indexes positions that exist. *)
Definition at_ (l : list string) (i : nat) : string := nth i l "".

(** [QChar::digitValue()], on ASCII digits. *)
Definition digitValue (c : ascii) : option Z :=
  let n := Z.of_nat (nat_of_ascii c) in
  if (48 <=? n) && (n <=? 57) then Some (n - 48) else None.

(** Steps over an [L] (the locale flag of a place marker). *)
Definition skip_L (s : string) : bool * string :=
  match s with
  | String c r => if Ascii.eqb c "L" then (true, r) else (false, s)
  | EmptyString => (false, s)
  end.

(** One place marker: [%N] or [%LN], N one or two digits.  [parse_escape s]
    is called on the text that follows a [%]; it returns the marker's
    number, whether it carries the [L] flag, and the text after it. *)
Definition parse_escape (s : string) : option (Z * bool * string) :=
  let '(loc, s1) := skip_L s in
  match s1 with
  | String c r =>
      match digitValue c with
      | None => None
      | Some d =>
          match r with
          | String c2 r2 =>
              match digitValue c2 with
              | Some d2 => Some (10 * d + d2, loc, r2)
              | None => Some (d, loc, r)
              end
          | EmptyString => Some (d, loc, r)
          end
      end
  | EmptyString => None
  end.

(** [findArgEscapes]: the lowest marker number present, if any.  When the
    text after a [%] is not a marker, Qt has already stepped over an [L]
    but over nothing else, and scanning resumes there. *)
Fixpoint min_escape (fuel : nat) (s : string) : option Z :=
  match fuel with
  | O => None
  | S fuel' =>
      match s with
      | EmptyString => None
      | String c r =>
          if Ascii.eqb c "%" then
            match parse_escape r with
            | Some (n, _, r') =>
                match min_escape fuel' r' with
                | Some m => Some (Z.min n m)
                | None => Some n
                end
            | None => min_escape fuel' (snd (skip_L r))
            end
          else min_escape fuel' r
      end
  end.

(** [replaceArgEscapes] with field width 0: every occurrence of marker
    [m] becomes [a] (or [la] when the marker carries the [L] flag); other
    markers are copied as they are. *)
Fixpoint replace_escapes (fuel : nat) (m : Z) (a la : string) (s : string) : string :=
  match fuel with
  | O => s
  | S fuel' =>
      match s with
      | EmptyString => EmptyString
      | String c r =>
          if Ascii.eqb c "%" then
            match parse_escape r with
            | Some (n, loc, r') =>
                if n =? m
                then (if loc then la else a) +:+ replace_escapes fuel' m a la r'
                else
                  let len := (String.length r - String.length r')%nat in
                  String c (substring 0 len r) +:+ replace_escapes fuel' m a la r'
            | None =>
                let '(loc, r') := skip_L r in
                String c (if loc then "L" else "") +:+ replace_escapes fuel' m a la r'
            end
          else String c (replace_escapes fuel' m a la r)
      end
  end.

(** [QString::arg]: when the string holds no marker Qt warns and returns
    the string unchanged. *)
Definition arg_with (a la : string) (s : string) : string :=
  let fuel := S (String.length s) in
  match min_escape fuel s with
  | Some m => replace_escapes fuel m a la s
  | None => s
  end.

(** [QString::arg(const QString &)]. *)
Definition arg (a : string) (s : string) : string := arg_with a a s.

(** [QString::arg(int)]: [locale n] is the default locale's rendering of
    [n], used only for markers written [%L]. *)
Definition arg_int (locale : Z -> string) (n : Z) (s : string) : string :=
  arg_with (number n) (locale n) s.

(** ASCII lower-casing, for Qt's case-insensitive name filters. *)
Definition to_lower_ascii (c : ascii) : ascii :=
  let n := nat_of_ascii c in
  if ((65 <=? n) && (n <=? 90))%nat then ascii_of_nat (n + 32) else c.

Fixpoint toLower (s : string) : string :=
  match s with
  | EmptyString => EmptyString
  | String c r => String (to_lower_ascii c) (toLower r)
  end.

Fixpoint endsWith_rev (rs rsuf : string) : bool :=
  match rsuf, rs with
  | EmptyString, _ => true
  | String _ _, EmptyString => false
  | String a ra, String b rb => Ascii.eqb a b && endsWith_rev rb ra
  end.

(** [QString::endsWith]. *)
Definition endsWith (s suf : string) : bool :=
  endsWith_rev (String.rev s) (String.rev suf).

(** *** Dates and times *)

(** [QTime]: milliseconds since midnight, [-1] for an invalid time. *)
Definition QTime := Z.
Definition NullTime : QTime := -1.
Definition MSECS_PER_DAY : Z := 86400000.

Definition QTime_isValid (t : QTime) : bool := (0 <=? t) && (t <? MSECS_PER_DAY).

(** [QTime::setHMS(h, m, s)]: an out-of-range component makes the time
    invalid. *)
Definition setHMS (h m s : Z) : QTime :=
  if (0 <=? h) && (h <? 24) && (0 <=? m) && (m <? 60) && (0 <=? s) && (s <? 60)
  then (h * 3600 + m * 60 + s) * 1000
  else NullTime.

(** [QDate]: a Julian day number. *)
Definition QDate := Z.

(** Qt's Gregorian conversion of a Julian day ([getDateFromJulianDay]),
    all divisions rounding towards minus infinity. *)
Definition getDateFromJulianDay (jd : QDate) : Z * Z * Z :=
  let a := jd + 32044 in
  let b := (4 * a + 3) / 146097 in
  let c := a - (146097 * b) / 4 in
  let d := (4 * c + 3) / 1461 in
  let e := c - (1461 * d) / 4 in
  let m := (5 * e + 2) / 153 in
  let day := e - (153 * m + 2) / 5 + 1 in
  let month := m + 3 - 12 * (m / 10) in
  let year := 100 * b + d - 4800 + m / 10 in
  (if year <=? 0 then year - 1 else year, month, day).

Definition year (d : QDate) : Z := fst (fst (getDateFromJulianDay d)).
Definition month (d : QDate) : Z := snd (fst (getDateFromJulianDay d)).
Definition day (d : QDate) : Z := snd (getDateFromJulianDay d).

(** [QDate(y, m, d)] for a date of the Gregorian calendar with [y > 0]. *)
Definition julianDayFromDate (y m d : Z) : QDate :=
  let a := (14 - m) / 12 in
  let y' := y + 4800 - a in
  let m' := m + 12 * a - 3 in
  d + (153 * m' + 2) / 5 + 365 * y' + y' / 4 - y' / 100 + y' / 400 - 32045.

(** [QDateTime] in local time: a date and a time of day.  Daylight-saving
    shifts are outside the model: every day has [MSECS_PER_DAY] ms. *)
Record QDateTime := mkDateTime {
  date : QDate;
  time : QTime
}.

Definition toMSecs (dt : QDateTime) : Z := date dt * MSECS_PER_DAY + time dt.

(** [operator>] on [QDateTime]. *)
Definition dt_gtb (a b : QDateTime) : bool := toMSecs b <? toMSecs a.

(** [QDateTime::setTime]: an invalid time sets midnight. *)
Definition setTime (dt : QDateTime) (t : QTime) : QDateTime :=
  {| date := date dt; time := if QTime_isValid t then t else 0 |}.

(** [QDateTime::addDays]. *)
Definition addDays (dt : QDateTime) (n : Z) : QDateTime :=
  {| date := date dt + n; time := time dt |}.

(** *** Paths *)

Definition isAbsolutePath (p : string) : bool :=
  match p with
  | String c _ => Ascii.eqb c "/"
  | EmptyString => false
  end.

Definition joinPath (dir name : string) : string :=
  if String.eqb dir "/" then "/" +:+ name else dir +:+ "/" +:+ name.

(** Cuts a reversed string at its first occurrence of [sep]: the text
    before it and, when [sep] occurs, the text after it (both still
    reversed). *)
Fixpoint cut_rev (sep : ascii) (rs : string) : string * option string :=
  match rs with
  | EmptyString => (EmptyString, None)
  | String c r =>
      if Ascii.eqb c sep then (EmptyString, Some r)
      else let '(a, b) := cut_rev sep r in (String c a, b)
  end.

(** Directory part and file name of a path, split at the last [/]. *)
Definition splitPath (p : string) : option string * string :=
  let '(rname, rdir) := cut_rev "/" (String.rev p) in
  (String.rev <$> rdir, String.rev rname).

(** [QFileInfo::fileName]. *)
Definition fileNameOf (p : string) : string := snd (splitPath p).

(** [QFileInfo::suffix]: the text after the last [.] of the file name,
    empty when the name has no dot. *)
Definition suffix (p : string) : string :=
  match cut_rev "." (String.rev (fileNameOf p)) with
  | (rsuf, Some _) => String.rev rsuf
  | (_, None) => ""
  end.

(** The directory of an absolute path: the text before its last [/],
    the root for a path directly below it. *)
Definition dirName (p : string) : string :=
  match fst (splitPath p) with
  | Some "" => "/"
  | Some d => d
  | None => "/"
  end.

(** *** The outside world *)

Record FileData := mkFile {
  content : string;
  lastModified : QDateTime
}.

(** The calls to [QFile] ([remove], [rename], [open]), recorded in the
    order they are issued.  (Directories are created with [QDir::mkdir];
    that shows in [denied].) *)
Inductive FsCall :=
| CallRemove (path : string)
| CallRename (oldName newName : string)
| CallOpen (path : string) (mode : Z).

(** What the file system refuses: the [protected] paths, which the
    process may not create, write, rename or remove, and the [missing]
    directories, which do not exist.  A path is denied when it is
    protected or lies directly in a missing directory. *)
Record Denied := mkDenied {
  protected : gset string;
  missing : gset string
}.

#[export] Instance Denied_elem_of : ElemOf string Denied :=
  fun p D => p ∈ protected D ∨ dirName p ∈ missing D.

#[export] Instance Denied_elem_of_dec (p : string) (D : Denied) : Decision (p ∈ D) :=
  decide (p ∈ protected D ∨ dirName p ∈ missing D).

(** Nothing refused; one protected path. *)
#[export] Instance Denied_empty : Empty Denied := mkDenied ∅ ∅.

#[export] Instance Denied_singleton : Singleton string Denied :=
  fun p => mkDenied {[p]} ∅.

(** Paths are absolute in [files] and [denied]; [.] and [..] segments and
    symbolic links are outside the model.  A directory exists unless it
    is [missing]. *)
Record World := mkWorld {
  files : gmap string FileData;
  denied : Denied;
  cwd : string;
  now : QDateTime;
  locale : Z -> string;
  cerr : list string;
  fscalls : list FsCall
}.

Definition with_files (fs : gmap string FileData) (w : World) : World :=
  {| files := fs; denied := denied w; cwd := cwd w; now := now w;
     locale := locale w; cerr := cerr w; fscalls := fscalls w |}.

Definition with_denied (D : Denied) (w : World) : World :=
  {| files := files w; denied := D; cwd := cwd w; now := now w;
     locale := locale w; cerr := cerr w; fscalls := fscalls w |}.

Definition record_call (c : FsCall) (w : World) : World :=
  {| files := files w; denied := denied w; cwd := cwd w; now := now w;
     locale := locale w; cerr := cerr w; fscalls := fscalls w ++ [c] |}.

(** [std::cerr << ...]: one diagnostic line. *)
Definition report (msg : string) (w : World) : World :=
  {| files := files w; denied := denied w; cwd := cwd w; now := now w;
     locale := locale w; cerr := cerr w ++ [msg]; fscalls := fscalls w |}.

(** The environment moving the clock between two calls. *)
Definition at_time (t : QDateTime) (w : World) : World :=
  {| files := files w; denied := denied w; cwd := cwd w; now := t;
     locale := locale w; cerr := cerr w; fscalls := fscalls w |}.

(** [QDateTime::currentDateTime()]. *)
Definition currentDateTime (w : World) : QDateTime := now w.

(** [QFileInfo::absoluteFilePath]: relative names resolve against the
    working directory. *)
Definition absoluteFilePath (w : World) (p : string) : string :=
  if isAbsolutePath p then p else joinPath (cwd w) p.

(** [QFileInfo::absolutePath]: the directory of the absolute path. *)
Definition absolutePath (w : World) (p : string) : string :=
  match fst (splitPath (absoluteFilePath w p)) with
  | Some "" => "/"
  | Some d => d
  | None => "/"
  end.

(** *** QFile *)

(** [QIODevice::OpenModeFlag]. *)
Definition ReadOnly : Z := 1.
Definition WriteOnly : Z := 2.
Definition Append : Z := 4.
Definition Truncate : Z := 8.
Definition Text : Z := 16.
Definition NewOnly : Z := 64.

Definition has_flag (mode flag : Z) : bool := negb (Z.land mode flag =? 0).

(** The mode [QFile::open] really uses: [Append] implies [WriteOnly], and
    [WriteOnly] implies [Truncate] unless [ReadOnly], [Append] or
    [NewOnly] is given. *)
Definition processOpenModeFlags (mode : Z) : Z :=
  let m1 := if has_flag mode Append then Z.lor mode WriteOnly else mode in
  if has_flag m1 WriteOnly
     && negb (has_flag m1 (Z.lor ReadOnly (Z.lor Append NewOnly)))
  then Z.lor m1 Truncate else m1.

(** [QFile::exists(name)]. *)
Definition QFile_exists (name : string) (w : World) : bool :=
  bool_decide (is_Some (files w !! absoluteFilePath w name)).

(** [QFile::remove(name)]: fails when the file is missing or the path is
    denied. *)
Definition QFile_remove (name : string) (w : World) : bool * World :=
  let p := absoluteFilePath w name in
  let w := record_call (CallRemove p) w in
  if bool_decide (is_Some (files w !! p)) && negb (bool_decide (p ∈ denied w))
  then (true, with_files (delete p (files w)) w)
  else (false, w).

(** [QFile::rename(oldName, newName)]: fails when [newName] exists (it is
    never overwritten), [oldName] is missing, or a path is denied. *)
Definition QFile_rename (oldName newName : string) (w : World) : bool * World :=
  let po := absoluteFilePath w oldName in
  let pn := absoluteFilePath w newName in
  let w := record_call (CallRename po pn) w in
  match files w !! po, files w !! pn with
  | Some f, None =>
      if bool_decide (po ∈ denied w) || bool_decide (pn ∈ denied w)
      then (false, w)
      else (true, with_files (<[pn := f]> (delete po (files w))) w)
  | _, _ => (false, w)
  end.

(** A [QFile] object: its name and whether it is open. *)
Record QFile := mkQFile {
  fileName : string;
  isOpen : bool
}.

(** [QFile::setFileName]. *)
Definition setFileName (name : string) (f : QFile) : QFile :=
  {| fileName := name; isOpen := isOpen f |}.

(** [QFile::open(mode)] for a mode that includes writing: fails on an
    empty name or a denied path (a protected path, or one in a missing
    directory); creates the file when it is missing and
    empties it when the mode truncates. *)
Definition QFile_open (mode : Z) (f : QFile) (w : World) : bool * QFile * World :=
  let p := absoluteFilePath w (fileName f) in
  let w := record_call (CallOpen p mode) w in
  if String.eqb (fileName f) "" || bool_decide (p ∈ denied w)
  then (false, {| fileName := fileName f; isOpen := false |}, w)
  else
    let fd :=
      match files w !! p with
      | Some d =>
          if has_flag (processOpenModeFlags mode) Truncate
          then mkFile "" (now w) else d
      | None => mkFile "" (now w)
      end in
    (true, {| fileName := fileName f; isOpen := true |},
     with_files (<[p := fd]> (files w)) w).

(** [QFile::close]. *)
Definition QFile_close (f : QFile) : QFile :=
  {| fileName := fileName f; isOpen := false |}.

(** [QFile::size]: the size of the file on disk, 0 when there is none. *)
Definition QFile_size (f : QFile) (w : World) : Z :=
  match files w !! absoluteFilePath w (fileName f) with
  | Some d => Z.of_nat (String.length (content d))
  | None => 0
  end.

(** [Qt::endl] on a text stream: a line feed, then a flush.  (Where the
    platform's text mode writes CR LF instead, read [endl] as that.) *)
Definition endl : string := String "010" "".

(** [stream << text; stream.flush()] on a [QTextStream] whose device is
    [f], UTF-8 encoded: the bytes are appended when the file is open and
    dropped otherwise. *)
Definition stream_write (text : string) (f : QFile) (w : World) : World :=
  if isOpen f then
    let p := absoluteFilePath w (fileName f) in
    match files w !! p with
    | Some d => with_files (<[p := mkFile (content d +:+ text) (now w)]> (files w)) w
    | None => w
    end
  else w.

(** *** QDir *)

(** [QDir(d).exists()]; [QDir("")] is the working directory. *)
Definition QDir_exists (d : string) (w : World) : bool :=
  bool_decide ((if String.eqb d "" then cwd w else d) ∉ missing (denied w)).

(** [QDir::mkdir(d)] for an absolute [d]: creates the one directory [d].
    It fails on an empty name, when [d] exists, when the directory that
    is to hold [d] is missing (parents are not created) and when [d] is
    protected. *)
Definition QDir_mkdir (d : string) (w : World) : bool * World :=
  if String.eqb d "" then (false, w)
  else if bool_decide (d ∈ missing (denied w)) && negb (bool_decide (d ∈ denied w))
  then (true, with_denied {| protected := protected (denied w);
                             missing := missing (denied w) ∖ {[d]} |} w)
  else (false, w).

(** Order of [QDir::Time]: most recently modified first, equal times by
    name. *)
Definition time_before (a b : string * FileData) : bool :=
  let ta := toMSecs (lastModified (snd a)) in
  let tb := toMSecs (lastModified (snd b)) in
  (tb <? ta) || ((ta =? tb) && String.ltb (fst a) (fst b)).

Fixpoint insert_sorted (x : string * FileData) (l : list (string * FileData))
  : list (string * FileData) :=
  match l with
  | [] => [x]
  | y :: l' => if time_before x y then x :: l else y :: insert_sorted x l'
  end.

Definition sort_by_time (l : list (string * FileData)) : list (string * FileData) :=
  foldr insert_sorted [] l.

(** The entries of directory [dir]: file names (without the directory)
    and their data. *)
Definition dir_entries (dir : string) (w : World) : list (string * FileData) :=
  omap (fun '(p, d) =>
          match splitPath p with
          | (Some pd, name) =>
              if String.eqb (if String.eqb pd "" then "/" else pd) dir
              then Some (name, d) else None
          | (None, _) => None
          end)
       (map_to_list (files w)).

(** [QDir(dir).entryList({"*." + ext}, QDir::Files | QDir::Readable,
    QDir::Time)]: the NAMES of the files of [dir] that end in [.ext]
    (name filters ignore case), most recently modified first.  Hidden and
    unreadable files and wildcard characters inside [ext] are outside the
    model. *)
Definition entryList (dir ext : string) (w : World) : list string :=
  fst <$> sort_by_time
    (filter (fun e => Is_true (endsWith (toLower (fst e)) (toLower ("." +:+ ext))))
            (dir_entries dir w)).

End Qt.

(* ===================================================================== *)
(** ** QsLogDestFile.cpp *)
(* ===================================================================== *)

Module QsLogging.
Import Qt.

(** [Q_ASSERT]: a failed assertion aborts the process in a debug build and
    is compiled away when [QT_NO_DEBUG] is defined. *)
Inductive Outcome (A : Type) :=
| Ok (a : A)
| Aborted.
Arguments Ok {A} a.
Arguments Aborted {A}.

Definition Q_ASSERT {A : Type} (debug : bool) (cond : bool) (k : A) : Outcome A :=
  if debug && negb cond then Aborted else Ok k.

(** *** SizeRotationStrategy *)

Module SizeRotationStrategy.

Record t := mk {
  mFileName : string;
  mCurrentSizeInBytes : Z;
  mMaxSizeInBytes : Z;
  mBackupsCount : Z
}.

Definition MaxBackupCount : Z := 10.

(** The constructor. *)
Definition make : t :=
  {| mFileName := ""; mCurrentSizeInBytes := 0; mMaxSizeInBytes := 0;
     mBackupsCount := 0 |}.

Definition setInitialInfo (file : QFile) (w : World) (s : t) : t :=
  {| mFileName := fileName file;
     mCurrentSizeInBytes := QFile_size file w;
     mMaxSizeInBytes := mMaxSizeInBytes s;
     mBackupsCount := mBackupsCount s |}.

Definition includeMessageInCalculation (message : string) (s : t) : t :=
  {| mFileName := mFileName s;
     mCurrentSizeInBytes := mCurrentSizeInBytes s + Z.of_nat (String.length message);
     mMaxSizeInBytes := mMaxSizeInBytes s;
     mBackupsCount := mBackupsCount s |}.

Definition shouldRotate (s : t) : bool :=
  mMaxSizeInBytes s <? mCurrentSizeInBytes s.

(** [logNamePattern.arg(i)] with [logNamePattern = mFileName + ".%1"]. *)
Definition backupName (s : t) (w : World) (i : Z) : string :=
  arg_int (locale w) i (mFileName s +:+ ".%1").

(** Step 1 of [rotate]: the loop [for (i = 1; i <= mBackupsCount; ++i)]
    with [n] iterations left, [i] the loop variable and [last] the
    current [lastExistingBackupIndex]. *)
Fixpoint find_last_existing (s : t) (w : World) (n : nat) (i last : Z) : Z :=
  match n with
  | O => last
  | S n' =>
      if i <=? mBackupsCount s then
        if QFile_exists (backupName s w i) w
        then find_last_existing s w n' (i + 1) (Z.min i (mBackupsCount s - 1))
        else last
      else last
  end.

(** Step 2 of [rotate]: the loop [for (i = last; i >= 1; --i)], written
    by recursion on [i]. *)
Fixpoint shift_up (s : t) (i : nat) (w : World) : World :=
  match i with
  | O => w
  | S i' =>
      let oldName := backupName s w (Z.of_nat i) in
      let newName := backupName s w (Z.of_nat i + 1) in
      let w1 := snd (QFile_remove newName w) in
      let '(renamed, w2) := QFile_rename oldName newName w1 in
      let w3 :=
        if renamed then w2
        else report ("QsLog: could not rename backup " +:+ oldName +:+ " to " +:+ newName) w2 in
      shift_up s i' w3
  end.

Definition rotate (s : t) (w : World) : World :=
  if mBackupsCount s =? 0 then
    let '(removed, w1) := QFile_remove (mFileName s) w in
    if removed then w1
    else report ("QsLog: backup delete failed " +:+ mFileName s) w1
  else
    (* 1. find the last existing backup than can be shifted up *)
    let lastExistingBackupIndex :=
      find_last_existing s w (Z.to_nat (mBackupsCount s)) 1 0 in
    (* 2. shift up *)
    let w2 := shift_up s (Z.to_nat lastExistingBackupIndex) w in
    (* 3. rename current log file *)
    let newName := backupName s w 1 in
    let w3 := if QFile_exists newName w2 then snd (QFile_remove newName w2) else w2 in
    let '(renamed, w4) := QFile_rename (mFileName s) newName w3 in
    if renamed then w4
    else report ("QsLog: could not rename log " +:+ mFileName s +:+ " to " +:+ newName) w4.

Definition recommendedOpenModeFlag : Z := Append.

Definition setMaximumSizeInBytes (debug : bool) (size : Z) (s : t) : Outcome t :=
  Q_ASSERT debug (0 <=? size)
    {| mFileName := mFileName s;
       mCurrentSizeInBytes := mCurrentSizeInBytes s;
       mMaxSizeInBytes := size;
       mBackupsCount := mBackupsCount s |}.

Definition setBackupCount (debug : bool) (backups : Z) (s : t) : Outcome t :=
  Q_ASSERT debug (0 <=? backups)
    {| mFileName := mFileName s;
       mCurrentSizeInBytes := mCurrentSizeInBytes s;
       mMaxSizeInBytes := mMaxSizeInBytes s;
       mBackupsCount := Z.min backups MaxBackupCount |}.

End SizeRotationStrategy.

(** *** DailyRotationStrategy *)

Module DailyRotationStrategy.

Record t := mk {
  mFileName : string;
  rotation_hour_ : Z;
  rotation_minute_ : Z;
  rotation_tp_ : QDateTime
}.

(** The constructor; the default-constructed [QDateTime] compares like
    the epoch (Julian day 2440588, midnight). *)
Definition make : t :=
  {| mFileName := ""; rotation_hour_ := 0; rotation_minute_ := 0;
     rotation_tp_ := mkDateTime 2440588 0 |}.

Definition next_rotation_tp (rotation_hour rotation_minute : Z) (w : World) : QDateTime :=
  let nowdt := currentDateTime w in
  let rotationTime := setHMS rotation_hour rotation_minute 0 in
  let nowdt := setTime nowdt rotationTime in
  addDays nowdt 1.

Definition setInitialInfo (file : QFile) (w : World) (s : t) : t :=
  {| mFileName := fileName file;
     rotation_hour_ := rotation_hour_ s;
     rotation_minute_ := rotation_minute_ s;
     rotation_tp_ := next_rotation_tp (rotation_hour_ s) (rotation_minute_ s) w |}.

Definition includeMessageInCalculation (message : string) (s : t) : t := s.

(** Returns the answer and the strategy, whose deadline the call may have
    moved. *)
Definition shouldRotate (s : t) (w : World) : bool * t :=
  let nowTime := currentDateTime w in
  if dt_gtb nowTime (rotation_tp_ s) then
    (true,
     {| mFileName := mFileName s;
        rotation_hour_ := rotation_hour_ s;
        rotation_minute_ := rotation_minute_ s;
        rotation_tp_ := next_rotation_tp (rotation_hour_ s) (rotation_minute_ s) w |})
  else (false, s).

Definition calc_filename (loc : Z -> string) (fileName : string) (dt : QDateTime) : string :=
  let fileNamesplit := split "." fileName in
  let fileNamesplit :=
    if (List.length fileNamesplit <? 2)%nat then (fileNamesplit ++ [""])%list else fileNamesplit in
  let year := year (date dt) in
  let month := month (date dt) in
  let day := day (date dt) in
  arg (at_ fileNamesplit 1)
    (arg_int loc day
      (arg_int loc month
        (arg_int loc year
          (arg (at_ fileNamesplit 0) "%1_%2_%3_%4.%5")))).

Definition getFileName (s : t) (w : World) : string :=
  let nowdt := currentDateTime w in
  calc_filename (locale w) (mFileName s) nowdt.

(** The loop [for (i = 29; i < results.length(); i++)
    QFile::remove(results.at(i))] over the entries from index 29 on. *)
Definition remove_all (names : list string) (w : World) : World :=
  foldl (fun w name => snd (QFile_remove name w)) w names.

Definition rotate (s : t) (w : World) : World :=
  let fileName := getFileName s w in
  let fileDir := absolutePath w fileName in
  let filefilter := suffix fileName in
  let results := entryList fileDir filefilter w in
  if (29 <? List.length results)%nat then remove_all (drop 29 results) w else w.

Definition recommendedOpenModeFlag : Z := Append.

Definition setRotation_hour (newRotation_hour : Z) (s : t) : t :=
  {| mFileName := mFileName s;
     rotation_hour_ := newRotation_hour;
     rotation_minute_ := rotation_minute_ s;
     rotation_tp_ := rotation_tp_ s |}.

Definition setRotation_minute (newRotation_minute : Z) (s : t) : t :=
  {| mFileName := mFileName s;
     rotation_hour_ := rotation_hour_ s;
     rotation_minute_ := newRotation_minute;
     rotation_tp_ := rotation_tp_ s |}.

End DailyRotationStrategy.

(** *** The RotationStrategy interface *)

(** The three implementations of the abstract class; a destination holds
    one of them and calls it through the functions below.  The strategy
    is modelled as owned by its destination. *)
Inductive RotationStrategy :=
| NullRS
| SizeRS (s : SizeRotationStrategy.t)
| DailyRS (d : DailyRotationStrategy.t).

Definition setInitialInfo (file : QFile) (w : World) (r : RotationStrategy) : RotationStrategy :=
  match r with
  | NullRS => NullRS
  | SizeRS s => SizeRS (SizeRotationStrategy.setInitialInfo file w s)
  | DailyRS d => DailyRS (DailyRotationStrategy.setInitialInfo file w d)
  end.

Definition includeMessageInCalculation (message : string) (r : RotationStrategy) : RotationStrategy :=
  match r with
  | NullRS => NullRS
  | SizeRS s => SizeRS (SizeRotationStrategy.includeMessageInCalculation message s)
  | DailyRS d => DailyRS (DailyRotationStrategy.includeMessageInCalculation message d)
  end.

Definition shouldRotate (r : RotationStrategy) (w : World) : bool * RotationStrategy :=
  match r with
  | NullRS => (false, NullRS)
  | SizeRS s => (SizeRotationStrategy.shouldRotate s, SizeRS s)
  | DailyRS d => let '(b, d') := DailyRotationStrategy.shouldRotate d w in (b, DailyRS d')
  end.

Definition rotate (r : RotationStrategy) (w : World) : World :=
  match r with
  | NullRS => w
  | SizeRS s => SizeRotationStrategy.rotate s w
  | DailyRS d => DailyRotationStrategy.rotate d w
  end.

Definition getFileName (r : RotationStrategy) (w : World) : string :=
  match r with
  | NullRS => ""
  | SizeRS _ => ""
  | DailyRS d => DailyRotationStrategy.getFileName d w
  end.

Definition recommendedOpenModeFlag (r : RotationStrategy) : Z :=
  match r with
  | NullRS => Truncate
  | SizeRS _ => SizeRotationStrategy.recommendedOpenModeFlag
  | DailyRS _ => DailyRotationStrategy.recommendedOpenModeFlag
  end.

(** The branch [if (!dir.exists()) dir.mkdir(fileDir)] of the two
    constructors, where [fileDir] is [QFileInfo(name).absolutePath()],
    which is empty for an empty name. *)
Definition mkdir_if_missing (name : string) (w : World) : World :=
  let fileDir := if String.eqb name "" then "" else absolutePath w name in
  if QDir_exists fileDir w then w else snd (QDir_mkdir fileDir w).

(** *** FileDestination *)

Module FileDestination.

Record t := mk {
  mFile : QFile;
  mRotationStrategy : RotationStrategy
}.

(** The constructor. *)
Definition make (filePath : string) (rotationStrategy : RotationStrategy) (w : World)
  : t * World :=
  let f := setFileName filePath (mkQFile "" false) in
  let w := mkdir_if_missing filePath w in
  let '(opened, f, w) :=
    QFile_open (Z.lor (Z.lor WriteOnly Text) (recommendedOpenModeFlag rotationStrategy)) f w in
  let w := if opened then w
           else report ("QsLog: could not open log file " +:+ filePath) w in
  ({| mFile := f; mRotationStrategy := setInitialInfo f w rotationStrategy |}, w).

(** The body of [if (mRotationStrategy->shouldRotate()) { ... }] in
    [write]: close, rotate, reopen, take the new baseline. *)
Definition rotate_and_reopen (d : t) (w : World) : t * World :=
  let f := QFile_close (mFile d) in
  let w := rotate (mRotationStrategy d) w in
  let '(opened, f, w) :=
    QFile_open (Z.lor (Z.lor WriteOnly Text) (recommendedOpenModeFlag (mRotationStrategy d))) f w in
  let w := if opened then w
           else report ("QsLog: could not reopen log file " +:+ fileName f) w in
  ({| mFile := f; mRotationStrategy := setInitialInfo f w (mRotationStrategy d) |}, w).

(** The part of [write] before the message is streamed out; also tells
    whether it rotated. *)
Definition prepare (message : string) (d : t) (w : World) : bool * t * World :=
  let r := includeMessageInCalculation message (mRotationStrategy d) in
  let '(b, r) := shouldRotate r w in
  let d := {| mFile := mFile d; mRotationStrategy := r |} in
  if b then let '(d, w) := rotate_and_reopen d w in (true, d, w)
  else (false, d, w).

Definition write (message : string) (d : t) (w : World) : t * World :=
  let '(_, d, w) := prepare message d w in
  (d, stream_write (message +:+ endl) (mFile d) w).

Definition isValid (d : t) : bool := isOpen (mFile d).

(** A sequence of [write] calls. *)
Definition write_all (messages : list string) (d : t) (w : World) : t * World :=
  foldl (fun '(d, w) m => write m d w) (d, w) messages.

End FileDestination.

(** *** DailyFileDestination *)

Module DailyFileDestination.

Record t := mk {
  mFile : QFile;
  mRotationStrategy_ : RotationStrategy
}.

(** The constructor: the file is opened with [WriteOnly | Text] alone. *)
Definition make (filePath : string) (rotationStrategy : RotationStrategy) (w : World)
  : t * World :=
  let r := setInitialInfo (mkQFile filePath false) w rotationStrategy in
  let fileName := getFileName r w in
  let f := setFileName fileName (mkQFile "" false) in
  let w := mkdir_if_missing fileName w in
  let '(opened, f, w) := QFile_open (Z.lor WriteOnly Text) f w in
  let w := if opened then w
           else report ("QsLog: could not open log file " +:+ filePath) w in
  ({| mFile := f; mRotationStrategy_ := r |}, w).

Definition write (message : string) (d : t) (w : World) : t * World :=
  let '(b, r) := shouldRotate (mRotationStrategy_ d) w in
  let '(f, w) :=
    if b then
      let f := QFile_close (mFile d) in
      let w := rotate r w in
      let fileName := getFileName r w in
      let f := setFileName fileName f in
      let '(opened, f, w) :=
        QFile_open (Z.lor (Z.lor WriteOnly Text) (recommendedOpenModeFlag r)) f w in
      let w := if opened then w
               else report ("QsLog: could not reopen log file " +:+ Qt.fileName f) w in
      (f, w)
    else (mFile d, w) in
  ({| mFile := f; mRotationStrategy_ := r |},
   stream_write (message +:+ endl) f w).

Definition isValid (d : t) : bool := isOpen (mFile d).

End DailyFileDestination.

End QsLogging.

(* ===================================================================== *)
(** ** Vocabulary of the statements *)
(* ===================================================================== *)

Import Qt QsLogging.

(** The string holds no [%], hence no place marker of [QString::arg]. *)
Fixpoint no_marker (s : string) : bool :=
  match s with
  | EmptyString => true
  | String c r => negb (Ascii.eqb c "%") && no_marker r
  end.

(** The string holds no [.]. *)
Fixpoint no_dot (s : string) : bool :=
  match s with
  | EmptyString => true
  | String c r => negb (Ascii.eqb c ".") && no_dot r
  end.

(** [_<year>_<month>_<day>] of a date, the numbers printed plainly. *)
Definition date_tag (dt : QDateTime) : string :=
  "_" +:+ number (year (date dt)) +:+ "_" +:+ number (month (date dt))
  +:+ "_" +:+ number (day (date dt)).

(** [<path>.<i>], the name the spec gives the [i]-th backup. *)
Definition backup (P : string) (i : Z) : string := P +:+ "." +:+ number i.

(** Effect of [QFile::remove] and [QFile::rename] on the file table. *)
Definition fs_remove (D : Denied) (p : string) (m : gmap string FileData)
  : gmap string FileData :=
  if bool_decide (is_Some (m !! p)) && negb (bool_decide (p ∈ D)) then delete p m else m.

Definition fs_rename (D : Denied) (po pn : string) (m : gmap string FileData)
  : gmap string FileData :=
  match m !! po, m !! pn with
  | Some f, None =>
      if bool_decide (po ∈ D) || bool_decide (pn ∈ D) then m
      else <[pn := f]> (delete po m)
  | _, _ => m
  end.


(** How many of the backups [from], [from+1], ... of [P] exist in a row,
    looking at no more than [n] of them. *)
Fixpoint existing_run (m : gmap string FileData) (P : string) (n : nat) (from : Z) : Z :=
  match n with
  | O => 0
  | S n' =>
      if bool_decide (is_Some (m !! backup P from))
      then 1 + existing_run m P n' (from + 1)
      else 0
  end.

(** Total size of the messages, in UTF-8 bytes. *)
Definition total_size (messages : list string) : Z :=
  foldr (fun m acc => Z.of_nat (String.length m) + acc) 0 messages.

(** What the messages add to a file: each one, then a line terminator. *)
Definition lines (messages : list string) : string :=
  foldr (fun m acc => m +:+ endl +:+ acc) "" messages.

(** Content of the file at [p], if there is one. *)
Definition content_at (w : World) (p : string) : option string :=
  content <$> files w !! p.

(** The part of the world that the [QFile] operations, the strategies
    and [write] leave alone.  (Only the [mkdir] of the constructors
    changes [denied].) *)
Definition env (w : World) : Denied * string * QDateTime * (Z → string) :=
  (denied w, cwd w, now w, locale w).

(** A destination that drives a size strategy for log file [path] with
    [n] backups, as [FileDestination::FileDestination] sets it up. *)
Definition size_destination (d : FileDestination.t) (path : string) (n : Z) : Prop :=
  ∃ s, FileDestination.mRotationStrategy d = SizeRS s
       ∧ SizeRotationStrategy.mFileName s = path
       ∧ SizeRotationStrategy.mBackupsCount s = n
       ∧ fileName (FileDestination.mFile d) = path.

(** The destination's file is open on a file the process may write: it
    has a name, the path is not denied and the file exists.  This is the
    state a successful [QFile::open] leaves. *)
Definition open_on (d : FileDestination.t) (w : World) : Prop :=
  isOpen (FileDestination.mFile d) = true
  ∧ fileName (FileDestination.mFile d) ≠ ""
  ∧ (absoluteFilePath w (fileName (FileDestination.mFile d)) ∉ denied w)
  ∧ is_Some (files w !! absoluteFilePath w (fileName (FileDestination.mFile d))).

(** The time of day the daily strategy rotates at: [rotation_hour_] :
    [rotation_minute_] : 00, or midnight when they are out of range (the
    [QTime] is then invalid, and [QDateTime::setTime] falls back). *)
Definition rotation_time (s : DailyRotationStrategy.t) : QTime :=
  let t := setHMS (DailyRotationStrategy.rotation_hour_ s)
                  (DailyRotationStrategy.rotation_minute_ s) 0 in
  if QTime_isValid t then t else 0.

(** A well-formed instant: its time of day lies within the day. *)
Definition valid_instant (t : QDateTime) : Prop := 0 ≤ time t < MSECS_PER_DAY.

(** The daily strategy with its deadline replaced. *)
Definition with_deadline (tp : QDateTime) (s : DailyRotationStrategy.t)
  : DailyRotationStrategy.t :=
  {| DailyRotationStrategy.mFileName := DailyRotationStrategy.mFileName s;
     DailyRotationStrategy.rotation_hour_ := DailyRotationStrategy.rotation_hour_ s;
     DailyRotationStrategy.rotation_minute_ := DailyRotationStrategy.rotation_minute_ s;
     DailyRotationStrategy.rotation_tp_ := tp |}.

(** Example data: [n] log files [app_2024_1_<k>.log], [k] from 1 to [n],
    in directory [dir], file [k] last modified on Julian day [2460310 + k]
    (so a higher [k] is more recent). *)
Definition dated_log (dir : string) (k : nat) : string * FileData :=
  (joinPath dir ("app_2024_1_" +:+ number (Z.of_nat k) +:+ ".log"),
   mkFile "x" (mkDateTime (2460310 + Z.of_nat k) 0)).

Definition dated_logs (dir : string) (n : nat) : gmap string FileData :=
  list_to_map (dated_log dir <$> seq 1 n).

(** A world with the given files and working directory, on 2024-03-05 at
    midnight, where nothing is denied and numbers print plainly. *)
Definition world_of (fs : gmap string FileData) (dir : string) : World :=
  mkWorld fs ∅ dir (mkDateTime (julianDayFromDate 2024 3 5) 0) number [] [].

(** Example data for the size strategy: log file [/log/a.txt], a limit
    of 5 bytes, 2 backups; on disk the log file and its backup [.1]. *)
Definition example_size : SizeRotationStrategy.t :=
  SizeRotationStrategy.mk "/log/a.txt" 0 5 2.

Definition example_files : gmap string FileData :=
  <[backup "/log/a.txt" 1 := mkFile "old" (mkDateTime 2460374 0)]>
    (<["/log/a.txt" := mkFile "new" (mkDateTime 2460375 0)]> ∅).

(** A sequence of [DailyFileDestination::write] calls, the clock moved to
    the given instant before each. *)
Definition daily_write_at (entries : list (QDateTime * string))
    (d : DailyFileDestination.t) (w : World) : DailyFileDestination.t * World :=
  foldl (fun '(d, w) '(t, m) => DailyFileDestination.write m d (at_time t w)) (d, w) entries.

(** The size strategy with its running size replaced. *)
Definition with_size (n : Z) (s : SizeRotationStrategy.t) : SizeRotationStrategy.t :=
  {| SizeRotationStrategy.mFileName := SizeRotationStrategy.mFileName s;
     SizeRotationStrategy.mCurrentSizeInBytes := n;
     SizeRotationStrategy.mMaxSizeInBytes := SizeRotationStrategy.mMaxSizeInBytes s;
     SizeRotationStrategy.mBackupsCount := SizeRotationStrategy.mBackupsCount s |}.

(** Size in bytes of what is stored at [p], 0 when there is nothing. *)
Definition size_at (w : World) (p : string) : Z :=
  match files w !! p with
  | Some d => Z.of_nat (String.length (content d))
  | None => 0
  end.

(** The string does not begin with a decimal digit (a digit right after
    [%1] would make a two-digit place marker). *)
Definition no_leading_digit (s : string) : bool :=
  match s with
  | EmptyString => true
  | String c _ => match digitValue c with Some _ => false | None => true end
  end.

(** A batch of [shouldRotate] calls of the daily strategy made at the
    given instants, in order: the answers and the final strategy. *)
Fixpoint shouldRotate_at (times : list QDateTime) (s : DailyRotationStrategy.t)
  (w : World) : list bool * DailyRotationStrategy.t :=
  match times with
  | [] => ([], s)
  | t :: rest =>
      let '(b, s') := DailyRotationStrategy.shouldRotate s (at_time t w) in
      let '(bs, s'') := shouldRotate_at rest s' w in
      (b :: bs, s'')
  end.

(* ===================================================================== *)
(** ** Strings and paths *)
(* ===================================================================== *)

Section Strings.

(** stdpp keeps [String.append] folded under [simpl]; these two equations
    unfold it one step. *)
Lemma append_cons (x : ascii) (a b : string) : String x a +:+ b = String x (a +:+ b).
Proof. reflexivity. Qed.

Lemma append_nil_l (b : string) : "" +:+ b = b.
Proof. reflexivity. Qed.

Lemma append_assoc (a b c : string) : (a +:+ b) +:+ c = a +:+ (b +:+ c).
Proof.
  induction a as [|x a IH]; [reflexivity|].
  rewrite !append_cons. by f_equal.
Qed.

Lemma append_nil_r (a : string) : a +:+ "" = a.
Proof.
  induction a as [|x a IH]; [reflexivity|].
  rewrite append_cons. by f_equal.
Qed.

Lemma length_append (a b : string) :
  String.length (a +:+ b) = (String.length a + String.length b)%nat.
Proof.
  induction a as [|x a IH]; [reflexivity|].
  rewrite append_cons. simpl. by rewrite IH.
Qed.

Lemma append_neq_self (a b : string) : b ≠ "" → a +:+ b ≠ a.
Proof.
  intros Hb Heq. apply (f_equal String.length) in Heq.
  rewrite length_append in Heq. destruct b; [done | simpl in Heq; lia].
Qed.

Lemma to_int_not_nil (n : Z) :
  Z.to_int n ≠ Decimal.Pos Decimal.Nil ∧ Z.to_int n ≠ Decimal.Neg Decimal.Nil.
Proof.
  destruct n as [|p|p]; simpl; split; try discriminate;
    intros [= H]; by apply Unsigned.to_uint_nonnil in H.
Qed.

Lemma number_inj (i j : Z) : number i = number j → i = j.
Proof.
  unfold number. intros H. apply DecimalZ.to_int_inj.
  destruct (to_int_not_nil i) as [Hi1 Hi2], (to_int_not_nil j) as [Hj1 Hj2].
  pose proof (NilZero.isi _ Hi1 Hi2) as Ei.
  pose proof (NilZero.isi _ Hj1 Hj2) as Ej.
  rewrite H in Ei. congruence.
Qed.

Lemma backup_inj (P : string) (i j : Z) : backup P i = backup P j → i = j.
Proof.
  unfold backup. intros H. apply (inj (String.append P)) in H.
  rewrite !append_cons in H. injection H as H. by apply number_inj.
Qed.

Lemma backup_neq_self (P : string) (i : Z) : backup P i ≠ P.
Proof. unfold backup. by apply append_neq_self. Qed.

Lemma min_escape_plain (p r : string) (fuel : nat) :
  no_marker p = true →
  min_escape (String.length p + fuel) (p +:+ r) = min_escape fuel r.
Proof.
  induction p as [|c p IH]; [done|].
  simpl. intros [Hc Hp]%andb_true_iff. apply negb_true_iff in Hc.
  rewrite ?append_cons. simpl. rewrite Hc. by apply IH.
Qed.

Lemma replace_escapes_plain (p r a la : string) (m : Z) (fuel : nat) :
  no_marker p = true →
  replace_escapes (String.length p + fuel) m a la (p +:+ r)
  = p +:+ replace_escapes fuel m a la r.
Proof.
  induction p as [|c p IH]; [done|].
  simpl. intros [Hc Hp]%andb_true_iff. apply negb_true_iff in Hc.
  rewrite ?append_cons. simpl. rewrite Hc. rewrite ?append_cons. f_equal. by apply IH.
Qed.

(** The scanners of [QString::arg] never run out of fuel: a marker is
    shorter than the text it is cut from, so any fuel above the length of
    the text gives the same result. *)
Lemma skip_L_length (s : string) :
  (String.length (snd (skip_L s)) ≤ String.length s)%nat.
Proof.
  destruct s as [|c r]; [done|]. unfold skip_L.
  destruct (Ascii.eqb c "L"); simpl; lia.
Qed.

Lemma parse_escape_length (s r : string) (n : Z) (loc : bool) :
  parse_escape s = Some (n, loc, r) → (String.length r < String.length s)%nat.
Proof.
  unfold parse_escape. pose proof (skip_L_length s) as HL.
  destruct (skip_L s) as [l s1]. simpl in HL.
  destruct s1 as [|c s2]; [done|].
  destruct (digitValue c); [|done].
  destruct s2 as [|c2 s3].
  - intros [= _ _ <-]. simpl in *. lia.
  - destruct (digitValue c2); intros [= _ _ <-]; simpl in *; lia.
Qed.

Lemma min_escape_fuel (f1 f2 : nat) (s : string) :
  (String.length s < f1)%nat → (String.length s < f2)%nat →
  min_escape f1 s = min_escape f2 s.
Proof.
  revert f2 s. induction f1 as [|f1 IH]; intros f2 s H1 H2; [lia|].
  destruct f2 as [|f2]; [lia|].
  destruct s as [|c r]; [done|]. simpl in H1, H2. cbn [min_escape].
  destruct (Ascii.eqb c "%").
  - destruct (parse_escape r) as [[[n loc] r']|] eqn:E.
    + apply parse_escape_length in E. by rewrite (IH f2 r') by lia.
    + pose proof (skip_L_length r). apply IH; lia.
  - apply IH; lia.
Qed.

Lemma replace_escapes_fuel (f1 f2 : nat) (m : Z) (a la s : string) :
  (String.length s < f1)%nat → (String.length s < f2)%nat →
  replace_escapes f1 m a la s = replace_escapes f2 m a la s.
Proof.
  revert f2 s. induction f1 as [|f1 IH]; intros f2 s H1 H2; [lia|].
  destruct f2 as [|f2]; [lia|].
  destruct s as [|c r]; [done|]. simpl in H1, H2. cbn [replace_escapes].
  destruct (Ascii.eqb c "%").
  - destruct (parse_escape r) as [[[n loc] r']|] eqn:E.
    + apply parse_escape_length in E. by rewrite (IH f2 r') by lia.
    + pose proof (skip_L_length r) as HL. destruct (skip_L r) as [l r'].
      simpl in HL. by rewrite (IH f2 r') by lia.
  - by rewrite (IH f2 r) by lia.
Qed.

(** [(p + ".%1").arg(a)] for a [p] without place markers. *)
Lemma arg_with_dot1 (p a la : string) :
  no_marker p = true → arg_with a la (p +:+ ".%1") = p +:+ "." +:+ a.
Proof.
  intros Hp. unfold arg_with.
  replace (S (String.length (p +:+ ".%1"))) with (String.length p + 4)%nat
    by (rewrite length_append; simpl; lia).
  rewrite min_escape_plain by done.
  change (min_escape 4 ".%1") with (Some 1). cbv iota.
  rewrite replace_escapes_plain by done.
  change (replace_escapes 4 1 a la ".%1") with ("." +:+ a +:+ "").
  by rewrite append_nil_r.
Qed.

Lemma joinPath_append (d p x : string) :
  joinPath d (p +:+ x) = joinPath d p +:+ x.
Proof.
  unfold joinPath. destruct (String.eqb d "/"); [done|].
  by rewrite !append_assoc.
Qed.

Lemma absoluteFilePath_append (w : World) (p x : string) :
  absoluteFilePath w (p +:+ "." +:+ x) = absoluteFilePath w p +:+ "." +:+ x.
Proof.
  unfold absoluteFilePath. destruct p as [|c p].
  - change (isAbsolutePath ("" +:+ "." +:+ x)) with false.
    change (isAbsolutePath "") with false. cbv iota. apply joinPath_append.
  - change (isAbsolutePath (String c p +:+ "." +:+ x)) with (Ascii.eqb c "/").
    change (isAbsolutePath (String c p)) with (Ascii.eqb c "/").
    destruct (Ascii.eqb c "/"); [done|]. apply joinPath_append.
Qed.

End Strings.

(** Closes [x ≠ y] where the two are the log file and a backup, or two
    backups with different numbers. *)
Ltac backup_neq :=
  let E := fresh "E" in
  intros E;
  first [ by apply backup_neq_self in E
        | symmetry in E; by apply backup_neq_self in E
        | apply backup_inj in E; lia ].

(* ===================================================================== *)
(** ** The file-system primitives *)
(* ===================================================================== *)

Section FileSystem.

Lemma env_fields (w w' : World) :
  env w' = env w →
  denied w' = denied w ∧ cwd w' = cwd w ∧ now w' = now w ∧ locale w' = locale w.
Proof. unfold env. intros [= -> -> -> ->]. done. Qed.

Lemma absoluteFilePath_env (w w' : World) (p : string) :
  env w' = env w → absoluteFilePath w' p = absoluteFilePath w p.
Proof.
  intros (_ & Hc & _)%env_fields. unfold absoluteFilePath. by rewrite Hc.
Qed.

Lemma report_env (msg : string) (w : World) : env (report msg w) = env w.
Proof. reflexivity. Qed.

Lemma report_files (msg : string) (w : World) : files (report msg w) = files w.
Proof. reflexivity. Qed.

Lemma report_fscalls (msg : string) (w : World) : fscalls (report msg w) = fscalls w.
Proof. reflexivity. Qed.

Lemma QFile_remove_env (name : string) (w : World) :
  env (snd (QFile_remove name w)) = env w.
Proof. unfold QFile_remove. simpl. by case_match. Qed.

Lemma QFile_remove_files (name : string) (w : World) :
  files (snd (QFile_remove name w))
  = fs_remove (denied w) (absoluteFilePath w name) (files w).
Proof. unfold QFile_remove, fs_remove. simpl. by case_match. Qed.

Lemma QFile_remove_fscalls (name : string) (w : World) :
  fscalls (snd (QFile_remove name w))
  = (fscalls w ++ [CallRemove (absoluteFilePath w name)])%list.
Proof. unfold QFile_remove. simpl. by case_match. Qed.

Lemma QFile_remove_cerr (name : string) (w : World) :
  cerr (snd (QFile_remove name w)) = cerr w.
Proof. unfold QFile_remove. simpl. by case_match. Qed.

Lemma QFile_remove_fst (name : string) (w : World) :
  fst (QFile_remove name w)
  = bool_decide (is_Some (files w !! absoluteFilePath w name))
    && negb (bool_decide (absoluteFilePath w name ∈ denied w)).
Proof. unfold QFile_remove. simpl. by case_match. Qed.

Lemma QFile_rename_env (a b : string) (w : World) :
  env (snd (QFile_rename a b w)) = env w.
Proof. unfold QFile_rename. simpl. by repeat case_match. Qed.

Lemma QFile_rename_files (a b : string) (w : World) :
  files (snd (QFile_rename a b w))
  = fs_rename (denied w) (absoluteFilePath w a) (absoluteFilePath w b) (files w).
Proof. unfold QFile_rename, fs_rename. simpl. by repeat case_match. Qed.




Lemma fs_remove_lookup (D : Denied) (p q : string) (m : gmap string FileData) :
  p ∉ D → fs_remove D p m !! q = if decide (p = q) then None else m !! q.
Proof.
  intros Hp. unfold fs_remove. rewrite (bool_decide_eq_false_2 _ Hp). simpl.
  rewrite andb_true_r. case_bool_decide as Hs.
  - apply lookup_delete.
  - case_decide as Hq; [|done]. subst q.
    destruct (m !! p) eqn:E; [|done]. exfalso. apply Hs. by eexists.
Qed.


(** Whatever happens, [remove] creates nothing and [rename] creates at
    most its target. *)
Lemma fs_remove_creates (D : Denied) (p q : string) (m : gmap string FileData) :
  is_Some (fs_remove D p m !! q) → is_Some (m !! q).
Proof.
  unfold fs_remove. case_match; [|done].
  rewrite lookup_delete. destruct (decide (p = q)); [intros [? [=]] | auto].
Qed.

Lemma fs_rename_creates (D : Denied) (po pn q : string) (m : gmap string FileData) :
  is_Some (fs_rename D po pn m !! q) → is_Some (m !! q) ∨ q = pn.
Proof.
  unfold fs_rename. repeat case_match; auto.
  rewrite lookup_insert. destruct (decide (pn = q)); [auto|].
  rewrite lookup_delete. destruct (decide (po = q)); [intros [? [=]] | auto].
Qed.

(** Files other than the ones named are never affected. *)
Lemma fs_remove_other (D : Denied) (p q : string) (m : gmap string FileData) :
  q ≠ p → fs_remove D p m !! q = m !! q.
Proof. intros Hq. unfold fs_remove. case_match; [|done]. by rewrite lookup_delete_ne. Qed.

Lemma fs_rename_other (D : Denied) (po pn q : string) (m : gmap string FileData) :
  q ≠ po → q ≠ pn → fs_rename D po pn m !! q = m !! q.
Proof.
  intros Ho Hn. unfold fs_rename. repeat case_match; try done.
  rewrite lookup_insert_ne by done. by rewrite lookup_delete_ne.
Qed.

End FileSystem.

(* ===================================================================== *)
(** ** Directories *)
(* ===================================================================== *)

Section Directories.

Lemma not_denied_empty (p : string) : p ∉ (∅ : Denied).
Proof. intros [H|H]; by apply not_elem_of_empty in H. Qed.

Lemma denied_protected (p : string) (D : Denied) : p ∈ protected D → p ∈ D.
Proof. by left. Qed.

Lemma absolutePath_dirName (w : World) (p : string) :
  absolutePath w p = dirName (absoluteFilePath w p).
Proof. reflexivity. Qed.

Lemma dirName_nonempty (p : string) : dirName p ≠ "".
Proof. unfold dirName. by repeat case_match. Qed.

Lemma absolutePath_nonempty (w : World) (p : string) :
  String.eqb (absolutePath w p) "" = false.
Proof. apply String.eqb_neq, dirName_nonempty. Qed.

(** A path that is not denied lies in a directory that exists. *)
Lemma not_denied_dir_exists (p : string) (w : World) :
  p ∉ denied w → QDir_exists (dirName p) w = true.
Proof.
  intros Hp. unfold QDir_exists.
  rewrite (proj2 (String.eqb_neq _ _) (dirName_nonempty p)).
  apply bool_decide_eq_true_2. intros Hm. apply Hp. by right.
Qed.

Lemma QDir_mkdir_fields (d : string) (w : World) :
  files (snd (QDir_mkdir d w)) = files w
  ∧ cwd (snd (QDir_mkdir d w)) = cwd w
  ∧ now (snd (QDir_mkdir d w)) = now w
  ∧ locale (snd (QDir_mkdir d w)) = locale w
  ∧ cerr (snd (QDir_mkdir d w)) = cerr w
  ∧ fscalls (snd (QDir_mkdir d w)) = fscalls w
  ∧ protected (denied (snd (QDir_mkdir d w))) = protected (denied w)
  ∧ missing (denied (snd (QDir_mkdir d w))) ⊆ missing (denied w).
Proof.
  unfold QDir_mkdir. destruct (String.eqb d ""); [by repeat split|].
  destruct (_ && _); [|by repeat split].
  repeat split. cbn. apply subseteq_difference_l. reflexivity.
Qed.

(** The [mkdir] branch of the constructors changes nothing but the set
    of missing directories, which can only shrink. *)
Lemma mkdir_if_missing_fields (name : string) (w : World) :
  files (mkdir_if_missing name w) = files w
  ∧ cwd (mkdir_if_missing name w) = cwd w
  ∧ now (mkdir_if_missing name w) = now w
  ∧ locale (mkdir_if_missing name w) = locale w
  ∧ cerr (mkdir_if_missing name w) = cerr w
  ∧ fscalls (mkdir_if_missing name w) = fscalls w
  ∧ protected (denied (mkdir_if_missing name w)) = protected (denied w)
  ∧ missing (denied (mkdir_if_missing name w)) ⊆ missing (denied w).
Proof.
  unfold mkdir_if_missing. cbv zeta. case_match; [by repeat split|].
  apply QDir_mkdir_fields.
Qed.

Lemma mkdir_if_missing_path (name p : string) (w : World) :
  absoluteFilePath (mkdir_if_missing name w) p = absoluteFilePath w p.
Proof.
  destruct (mkdir_if_missing_fields name w) as (_ & Hc & _).
  unfold absoluteFilePath. by rewrite Hc.
Qed.

(** When the file may be opened its directory exists, and the branch is
    not taken. *)
Lemma mkdir_if_missing_available (name : string) (w : World) :
  name ≠ "" → absoluteFilePath w name ∉ denied w → mkdir_if_missing name w = w.
Proof.
  intros Hn Hp. unfold mkdir_if_missing. cbv zeta.
  rewrite (proj2 (String.eqb_neq _ _) Hn), absolutePath_dirName.
  by rewrite not_denied_dir_exists.
Qed.

(** A directory that exists is left alone. *)
Lemma mkdir_if_missing_exists (name : string) (w : World) :
  absolutePath w name ∉ missing (denied w) → mkdir_if_missing name w = w.
Proof.
  intros Hd. unfold mkdir_if_missing. cbv zeta.
  destruct (String.eqb name "") eqn:En.
  - unfold QDir_mkdir. cbn. by case_match.
  - unfold QDir_exists.
    rewrite absolutePath_nonempty. by rewrite bool_decide_eq_true_2.
Qed.

(** A missing directory that cannot be created - it is protected, or the
    directory that is to hold it is missing too - stays missing. *)
Lemma mkdir_if_missing_fails (name : string) (w : World) :
  absolutePath w name ∈ missing (denied w) →
  absolutePath w name ∈ denied w →
  mkdir_if_missing name w = w.
Proof.
  intros Hm Hd. unfold mkdir_if_missing, QDir_mkdir. cbv zeta.
  repeat case_match; try done.
  rewrite (bool_decide_eq_true_2 _ Hd) in *. by rewrite andb_false_r in *.
Qed.

(** A missing directory that can be created is created. *)
Lemma mkdir_if_missing_creates (name : string) (w : World) :
  name ≠ "" →
  absolutePath w name ∈ missing (denied w) →
  absolutePath w name ∉ denied w →
  mkdir_if_missing name w
  = with_denied {| protected := protected (denied w);
                   missing := missing (denied w) ∖ {[absolutePath w name]} |} w.
Proof.
  intros Hn Hm Hd. unfold mkdir_if_missing, QDir_mkdir, QDir_exists. cbv zeta.
  rewrite (proj2 (String.eqb_neq _ _) Hn), !absolutePath_nonempty.
  rewrite (bool_decide_eq_false_2 (absolutePath w name ∉ missing (denied w))) by tauto.
  rewrite (bool_decide_eq_true_2 _ Hm), (bool_decide_eq_false_2 _ Hd). reflexivity.
Qed.

(** With an empty name nothing is created. *)
Lemma mkdir_if_missing_empty (w : World) : mkdir_if_missing "" w = w.
Proof. unfold mkdir_if_missing, QDir_mkdir. cbn. by case_match. Qed.

(** A protected path stays denied. *)
Lemma mkdir_if_missing_protected (name p : string) (w : World) :
  p ∈ protected (denied w) → p ∈ denied (mkdir_if_missing name w).
Proof.
  intros Hp. destruct (mkdir_if_missing_fields name w) as (_ & _ & _ & _ & _ & _ & Hpr & _).
  left. by rewrite Hpr.
Qed.

End Directories.

(** Close [p ∉ denied w] and [p ∈ denied w] for a protected [p], on
    concrete data. *)
Ltac not_denied :=
  let H := fresh "H" in intros [H|H]; vm_compute in H; discriminate H.
Ltac is_protected := left; vm_compute; reflexivity.

(* ===================================================================== *)
(** ** SizeRotationStrategy::rotate *)
(* ===================================================================== *)

Section SizeRotate.

Import SizeRotationStrategy.

Variable s : SizeRotationStrategy.t.
Variable w : World.
Hypothesis Hplain : no_marker (mFileName s) = true.

Local Abbreviation P := (absoluteFilePath w (mFileName s)).
Local Abbreviation B i := (backup (absoluteFilePath w (mFileName s)) i).
Local Abbreviation N := (mBackupsCount s).

(** Without place markers in the file name, backup [i] is [<path>.<i>]. *)
Lemma backupName_plain (w0 : World) (i : Z) :
  backupName s w0 i = mFileName s +:+ "." +:+ number i.
Proof. unfold backupName, arg_int. by apply arg_with_dot1. Qed.

Lemma backupName_path (w0 w1 : World) (i : Z) :
  env w0 = env w → absoluteFilePath w0 (backupName s w1 i) = B i.
Proof.
  intros He. rewrite backupName_plain, (absoluteFilePath_env _ _ _ He).
  apply absoluteFilePath_append.
Qed.

Lemma existing_run_nonneg (m : gmap string FileData) (n : nat) (i : Z) :
  0 ≤ existing_run m P n i.
Proof.
  revert i. induction n as [|n IH]; intros i; simpl; [lia|].
  case_bool_decide; [|lia]. specialize (IH (i + 1)). lia.
Qed.

Lemma existing_run_le (m : gmap string FileData) (n : nat) (i : Z) :
  existing_run m P n i ≤ Z.of_nat n.
Proof.
  revert i. induction n as [|n IH]; intros i; simpl existing_run; [lia|].
  case_bool_decide; [|lia]. specialize (IH (i + 1)). lia.
Qed.


(** Step 1: the scan returns the length of the run of existing backups
    that starts at [.1], capped at [mBackupsCount - 1]. *)
Lemma find_last_existing_run (w0 : World) (n : nat) (i last : Z) :
  env w0 = env w →
  i + Z.of_nat n = N + 1 →
  find_last_existing s w0 n i last
  = let r := existing_run (files w0) P n i in
    if r =? 0 then last else Z.min (i + r - 1) (N - 1).
Proof.
  intros He. revert i last. induction n as [|n IH]; intros i last Hn; simpl; [done|].
  destruct (Z.leb_spec i N); [|lia].
  unfold QFile_exists. rewrite (backupName_path _ _ _ He).
  case_bool_decide as Hex; [|done].
  rewrite IH by lia. simpl.
  pose proof (existing_run_nonneg (files w0) n (i + 1)) as Hr.
  destruct (Z.eqb_spec (existing_run (files w0) P n (i + 1)) 0) as [E|E].
  - rewrite E. simpl. f_equal. lia.
  - destruct (Z.eqb_spec (1 + existing_run (files w0) P n (i + 1)) 0); [lia|].
    f_equal. lia.
Qed.

Lemma find_last_existing_capped :
  1 ≤ N →
  find_last_existing s w (Z.to_nat N) 1 0
  = Z.min (existing_run (files w) P (Z.to_nat N) 1) (N - 1).
Proof.
  intros HN. rewrite find_last_existing_run by (done || lia). simpl.
  pose proof (existing_run_nonneg (files w) (Z.to_nat N) 1).
  destruct (Z.eqb_spec (existing_run (files w) P (Z.to_nat N) 1) 0) as [E|E]; lia.
Qed.

(** Step 2, whatever the file system allows: the environment is kept and
    no file appears except backups [.2] to [.(k+1)]. *)
Lemma shift_up_creates (k : nat) (w0 : World) :
  env w0 = env w →
  env (shift_up s k w0) = env w ∧
  ∀ q, is_Some (files (shift_up s k w0) !! q) →
       is_Some (files w0 !! q) ∨ ∃ j, 2 ≤ j ≤ Z.of_nat k + 1 ∧ q = B j.
Proof.
  revert w0. induction k as [|k IH]; intros w0 He.
  { simpl. split; [done|]. auto. }
  cbn [shift_up].
  set (oldName := backupName s w0 (Z.of_nat (S k))).
  set (newName := backupName s w0 (Z.of_nat (S k) + 1)).
  set (w1 := snd (QFile_remove newName w0)).
  assert (He1 : env w1 = env w) by (unfold w1; by rewrite QFile_remove_env).
  pose proof (QFile_rename_env oldName newName w1) as He2.
  pose proof (QFile_rename_files oldName newName w1) as Hf2.
  destruct (QFile_rename oldName newName w1) as [renamed w2]. simpl in He2, Hf2.
  rewrite He1 in He2.
  set (w3 := if renamed then w2 else report _ w2).
  assert (He3 : env w3 = env w) by (unfold w3; by destruct renamed).
  assert (Hf3 : files w3 = files w2) by (unfold w3; by destruct renamed).
  destruct (IH w3 He3) as [He4 Hc4]. split; [done|].
  intros q Hq. destruct (Hc4 q Hq) as [Hq3|(j & Hj & ->)].
  - rewrite Hf3, Hf2 in Hq3. apply fs_rename_creates in Hq3 as [Hq1| ->].
    + unfold w1 in Hq1. rewrite QFile_remove_files in Hq1.
      apply fs_remove_creates in Hq1. by left.
    + right. exists (Z.of_nat (S k) + 1). split; [lia|].
      unfold newName. by apply backupName_path.
  - right. exists j. split; [lia|done].
Qed.


(** Step 2 never touches a file that is not a backup. *)
Lemma shift_up_frame (k : nat) (w0 : World) (q : string) :
  env w0 = env w → (∀ j, q ≠ B j) →
  files (shift_up s k w0) !! q = files w0 !! q.
Proof.
  revert w0. induction k as [|k IH]; intros w0 He Hq; [done|].
  cbn [shift_up].
  set (oldName := backupName s w0 (Z.of_nat (S k))).
  set (newName := backupName s w0 (Z.of_nat (S k) + 1)).
  set (w1 := snd (QFile_remove newName w0)).
  assert (He1 : env w1 = env w) by (unfold w1; by rewrite QFile_remove_env).
  pose proof (QFile_rename_env oldName newName w1) as He2.
  pose proof (QFile_rename_files oldName newName w1) as Hf2.
  destruct (QFile_rename oldName newName w1) as [renamed w2]. simpl in He2, Hf2.
  rewrite He1 in He2.
  set (w3 := if renamed then w2 else _).
  assert (He3 : env w3 = env w) by (unfold w3; by destruct renamed).
  assert (Hf3 : files w3 = files w2) by (unfold w3; by destruct renamed).
  rewrite (IH w3 He3 Hq), Hf3, Hf2.
  subst oldName newName. rewrite !(backupName_path w1 w0) by done.
  rewrite fs_rename_other by apply Hq.
  unfold w1. rewrite QFile_remove_files, (backupName_path w0 w0) by done.
  by rewrite fs_remove_other by apply Hq.
Qed.

End SizeRotate.

(* ===================================================================== *)
(** ** Which files the write path can create *)
(* ===================================================================== *)

Section Creation.

Import SizeRotationStrategy.

Lemma QFile_open_env (mode : Z) (f : QFile) (w : World) :
  env (snd (QFile_open mode f w)) = env w.
Proof. unfold QFile_open. simpl. by case_match. Qed.

Lemma QFile_open_name (mode : Z) (f : QFile) (w : World) :
  fileName (snd (fst (QFile_open mode f w))) = fileName f.
Proof. unfold QFile_open. simpl. by case_match. Qed.

Lemma QFile_open_isOpen (mode : Z) (f : QFile) (w : World) :
  isOpen (snd (fst (QFile_open mode f w))) = fst (fst (QFile_open mode f w)).
Proof. unfold QFile_open. simpl. by case_match. Qed.

Lemma QFile_open_cerr (mode : Z) (f : QFile) (w : World) :
  cerr (snd (QFile_open mode f w)) = cerr w.
Proof. unfold QFile_open. simpl. by case_match. Qed.

Lemma QFile_open_fscalls (mode : Z) (f : QFile) (w : World) :
  fscalls (snd (QFile_open mode f w))
  = (fscalls w ++ [CallOpen (absoluteFilePath w (fileName f)) mode])%list.
Proof. unfold QFile_open. simpl. by case_match. Qed.

Lemma QFile_open_creates (mode : Z) (f : QFile) (w : World) (q : string) :
  is_Some (files (snd (QFile_open mode f w)) !! q) →
  is_Some (files w !! q) ∨ q = absoluteFilePath w (fileName f).
Proof.
  unfold QFile_open. simpl. case_match; simpl; [auto|].
  rewrite lookup_insert. destruct (decide (absoluteFilePath w (fileName f) = q)); auto.
Qed.

Lemma stream_write_env (text : string) (f : QFile) (w : World) :
  env (stream_write text f w) = env w.
Proof. unfold stream_write. by repeat case_match. Qed.

Lemma stream_write_fscalls (text : string) (f : QFile) (w : World) :
  fscalls (stream_write text f w) = fscalls w.
Proof. unfold stream_write. by repeat case_match. Qed.

Lemma stream_write_cerr (text : string) (f : QFile) (w : World) :
  cerr (stream_write text f w) = cerr w.
Proof. unfold stream_write. by repeat case_match. Qed.

Lemma stream_write_creates (text : string) (f : QFile) (w : World) (q : string) :
  is_Some (files (stream_write text f w) !! q) → is_Some (files w !! q).
Proof.
  unfold stream_write. repeat case_match; try done. simpl.
  rewrite lookup_insert. destruct (decide (absoluteFilePath w (fileName f) = q)); [|done].
  subst q. intros _. by eexists.
Qed.

(** [rotate] keeps the environment and creates no file except backups
    [.1] to [.mBackupsCount] - whether or not its steps succeed. *)
Lemma size_rotate_creates (s : SizeRotationStrategy.t) (w : World) :
  (mBackupsCount s ≠ 0 → no_marker (mFileName s) = true) → 0 ≤ mBackupsCount s →
  env (rotate s w) = env w ∧
  ∀ q, is_Some (files (rotate s w) !! q) →
       is_Some (files w !! q)
       ∨ ∃ j, 1 ≤ j ≤ mBackupsCount s ∧ q = backup (absoluteFilePath w (mFileName s)) j.
Proof.
  intros Hplain0 HN. unfold rotate.
  destruct (Z.eqb_spec (mBackupsCount s) 0) as [E0|E0].
  { pose proof (QFile_remove_env (mFileName s) w) as He.
    pose proof (QFile_remove_files (mFileName s) w) as Hf.
    destruct (QFile_remove (mFileName s) w) as [removed w1]. simpl in He, Hf.
    assert (Hw : env (if removed then w1 else report ("QsLog: backup delete failed " +:+ mFileName s) w1) = env w
                 ∧ files (if removed then w1 else report ("QsLog: backup delete failed " +:+ mFileName s) w1) = files w1)
      by (by destruct removed).
    destruct Hw as [-> ->]. split; [done|].
    intros q Hq. rewrite Hf in Hq. left. by eapply fs_remove_creates. }
  pose proof (Hplain0 E0) as Hplain.
  rewrite (find_last_existing_capped s w Hplain) by lia.
  set (L := Z.min _ _).
  assert (HL : L ≤ mBackupsCount s - 1) by (unfold L; lia).
  destruct (shift_up_creates s w Hplain (Z.to_nat L) w eq_refl) as [He2 Hc2].
  set (w2 := shift_up s (Z.to_nat L) w) in *.
  set (newName := backupName s w 1).
  set (w3 := if QFile_exists newName w2 then snd (QFile_remove newName w2) else w2).
  assert (He3 : env w3 = env w).
  { unfold w3. case_match; [|done]. by rewrite QFile_remove_env. }
  assert (Hc3 : ∀ q, is_Some (files w3 !! q) → is_Some (files w2 !! q)).
  { intros q. unfold w3. case_match; [|done].
    rewrite QFile_remove_files. apply fs_remove_creates. }
  pose proof (QFile_rename_env (mFileName s) newName w3) as He4.
  pose proof (QFile_rename_files (mFileName s) newName w3) as Hf4.
  destruct (QFile_rename (mFileName s) newName w3) as [renamed w4]. simpl in He4, Hf4.
  rewrite He3 in He4.
  assert (Hw : env (if renamed then w4 else report ("QsLog: could not rename log " +:+ mFileName s +:+ " to " +:+ newName) w4) = env w
               ∧ files (if renamed then w4 else report ("QsLog: could not rename log " +:+ mFileName s +:+ " to " +:+ newName) w4) = files w4)
    by (by destruct renamed).
  destruct Hw as [-> ->]. split; [done|].
  intros q Hq. rewrite Hf4 in Hq. apply fs_rename_creates in Hq as [Hq| ->].
  - apply Hc3, Hc2 in Hq as [Hq|(j & Hj & ->)]; [by left|].
    right. exists j. split; [lia|done].
  - right. exists 1. split; [lia|].
    unfold newName. by apply (backupName_path s w).
Qed.

(** [prepare] with a size strategy, the virtual calls resolved. *)
Lemma prepare_size (message : string) (d : FileDestination.t) (w : World)
    (s : SizeRotationStrategy.t) :
  FileDestination.mRotationStrategy d = SizeRS s →
  FileDestination.prepare message d w
  = let s1 := SizeRotationStrategy.includeMessageInCalculation message s in
    let d1 := {| FileDestination.mFile := FileDestination.mFile d;
                 FileDestination.mRotationStrategy := SizeRS s1 |} in
    if SizeRotationStrategy.shouldRotate s1
    then let '(d2, w2) := FileDestination.rotate_and_reopen d1 w in (true, d2, w2)
    else (false, d1, w).
Proof. intros Hs. unfold FileDestination.prepare. rewrite Hs. reflexivity. Qed.

(** One [write] keeps the destination's set-up and creates no file except
    the log file and backups [.1] to [.n]. *)
Lemma write_creates (path : string) (n : Z) (message : string)
    (d : FileDestination.t) (w : World) :
  (n ≠ 0 → no_marker path = true) → 0 ≤ n →
  size_destination d path n →
  size_destination (fst (FileDestination.write message d w)) path n ∧
  env (snd (FileDestination.write message d w)) = env w ∧
  ∀ q, is_Some (files (snd (FileDestination.write message d w)) !! q) →
       is_Some (files w !! q) ∨ q = absoluteFilePath w path
       ∨ ∃ j, 1 ≤ j ≤ n ∧ q = backup (absoluteFilePath w path) j.
Proof.
  intros Hplain Hn (s & Hs & Hname & Hcount & Hfile).
  unfold FileDestination.write. rewrite (prepare_size _ _ _ _ Hs). cbv zeta.
  set (s1 := SizeRotationStrategy.includeMessageInCalculation message s).
  destruct (SizeRotationStrategy.shouldRotate s1) eqn:Hrot.
  - unfold FileDestination.rotate_and_reopen.
    cbn [FileDestination.mFile FileDestination.mRotationStrategy QsLogging.rotate
         QsLogging.recommendedOpenModeFlag QsLogging.setInitialInfo].
    destruct (size_rotate_creates s1 w) as [He1 Hc1];
      [simpl; by rewrite Hname, Hcount | simpl; lia |].
    set (w1 := SizeRotationStrategy.rotate s1 w) in *.
    set (mode := Z.lor (Z.lor WriteOnly Text) _).
    pose proof (QFile_open_env mode (QFile_close (FileDestination.mFile d)) w1) as He2.
    pose proof (QFile_open_name mode (QFile_close (FileDestination.mFile d)) w1) as Hn2.
    pose proof (QFile_open_creates mode (QFile_close (FileDestination.mFile d)) w1) as Hc2.
    destruct (QFile_open mode _ w1) as [[opened f2] w2]. simpl in He2, Hn2, Hc2.
    set (w3 := if opened then w2 else _).
    assert (He3 : env w3 = env w)
      by (unfold w3; destruct opened; rewrite ?report_env; congruence).
    assert (Hf3 : files w3 = files w2) by (unfold w3; by destruct opened).
    simpl. split; [|split].
    + eexists. split; [done|]. simpl. rewrite Hn2. done.
    + by rewrite stream_write_env.
    + intros q Hq. apply stream_write_creates in Hq. rewrite Hf3 in Hq.
      apply Hc2 in Hq as [Hq| ->].
      * apply Hc1 in Hq as [Hq|(j & Hj & ->)]; [by left|].
        right; right. exists j. simpl in Hj. rewrite <- Hname. split; [lia|done].
      * right; left. rewrite (absoluteFilePath_env _ _ _ He1). simpl. by rewrite Hfile.
  - simpl. split; [|split].
    + eexists. split; [done|]. done.
    + by rewrite stream_write_env.
    + intros q Hq. apply stream_write_creates in Hq. by left.
Qed.

(** Backups numbered above [n] never appear, however many messages are
    written and however many rotations they cause. *)
Lemma write_all_no_backup_above (path : string) (n : Z) (messages : list string)
    (d : FileDestination.t) (w : World) :
  (n ≠ 0 → no_marker path = true) → 0 ≤ n →
  size_destination d path n →
  (∀ i, n < i → files w !! backup (absoluteFilePath w path) i = None) →
  ∀ i, n < i →
    files (snd (FileDestination.write_all messages d w))
      !! backup (absoluteFilePath w path) i = None.
Proof.
  intros Hplain Hn. unfold FileDestination.write_all.
  revert d w. induction messages as [|m ms IH]; intros d w Hd Hinv i Hi.
  { simpl. by apply Hinv. }
  simpl. destruct (write_creates path n m d w Hplain Hn Hd) as (Hd' & He' & Hc').
  destruct (FileDestination.write m d w) as [d' w'] eqn:Ew. simpl in *.
  rewrite <- (absoluteFilePath_env _ _ path He').
  apply IH; [done| |done].
  intros j Hj. rewrite (absoluteFilePath_env _ _ path He').
  destruct (files w' !! backup (absoluteFilePath w path) j) eqn:E; [|done].
  exfalso. destruct (Hc' (backup (absoluteFilePath w path) j)) as [Hq|[Hq|(k & Hk & Hq)]].
  - by eexists.
  - rewrite Hinv in Hq by done. by destruct Hq.
  - by apply backup_neq_self in Hq.
  - apply backup_inj in Hq. lia.
Qed.

End Creation.

(* ===================================================================== *)
(** ** The size strategy: the backup chain *)
(* ===================================================================== *)

Section SizeRotateChain.

Import SizeRotationStrategy.

Variable s : SizeRotationStrategy.t.
Variable w : World.

Local Abbreviation N := (mBackupsCount s).
Local Abbreviation P := (absoluteFilePath w (mFileName s)).
Local Abbreviation L := (Z.min (existing_run (files w) P (Z.to_nat N) 1) (N - 1)).
Local Abbreviation w' := (SizeRotationStrategy.rotate s w).


End SizeRotateChain.

Section SizeProperties.

Import SizeRotationStrategy.

(** [rotate] without backups is one [QFile::remove] of the log file. *)
Lemma size_rotate_zero (s : SizeRotationStrategy.t) (w : World) :
  mBackupsCount s = 0 →
  env (rotate s w) = env w
  ∧ fscalls (rotate s w)
    = (fscalls w ++ [CallRemove (absoluteFilePath w (mFileName s))])%list
  ∧ files (rotate s w)
    = fs_remove (denied w) (absoluteFilePath w (mFileName s)) (files w)
  ∧ cerr (rotate s w)
    = if bool_decide (is_Some (files w !! absoluteFilePath w (mFileName s)))
         && negb (bool_decide (absoluteFilePath w (mFileName s) ∈ denied w))
      then cerr w
      else (cerr w ++ ["QsLog: backup delete failed " +:+ mFileName s])%list.
Proof.
  intros H0. unfold rotate. rewrite H0. cbn [Z.eqb].
  pose proof (QFile_remove_env (mFileName s) w) as He.
  pose proof (QFile_remove_files (mFileName s) w) as Hf.
  pose proof (QFile_remove_fscalls (mFileName s) w) as Hc.
  pose proof (QFile_remove_cerr (mFileName s) w) as Hr.
  pose proof (QFile_remove_fst (mFileName s) w) as Hb.
  destruct (QFile_remove (mFileName s) w) as [removed w1].
  simpl in He, Hf, Hc, Hr, Hb. rewrite <- Hb.
  destruct removed; repeat split; try done. simpl. by rewrite Hr.
Qed.

(** C7.  Size strategy with [mBackupsCount = 0]: [rotate] issues exactly
    one call, the removal of the log file.  When the file exists and may
    be removed it is deleted; otherwise the files stay as they are and one
    line is written to [std::cerr] - in both cases [rotate] returns
    normally.  No file is ever created: not by [rotate], and no
    [<path>.i] appears however many messages are written. *)
Theorem size_rotate_without_backups (s : SizeRotationStrategy.t) (w : World) :
  mBackupsCount s = 0 →
  env (rotate s w) = env w
  ∧ fscalls (rotate s w)
    = (fscalls w ++ [CallRemove (absoluteFilePath w (mFileName s))])%list
  ∧ (∀ q, is_Some (files (rotate s w) !! q) → is_Some (files w !! q))
  ∧ (is_Some (files w !! absoluteFilePath w (mFileName s)) →
     absoluteFilePath w (mFileName s) ∉ denied w →
     files (rotate s w) = delete (absoluteFilePath w (mFileName s)) (files w)
     ∧ cerr (rotate s w) = cerr w)
  ∧ (files w !! absoluteFilePath w (mFileName s) = None
     ∨ absoluteFilePath w (mFileName s) ∈ denied w →
     files (rotate s w) = files w
     ∧ cerr (rotate s w)
       = (cerr w ++ ["QsLog: backup delete failed " +:+ mFileName s])%list)
  ∧ (∀ d messages, size_destination d (mFileName s) 0 →
     (∀ i, 0 < i → files w !! backup (absoluteFilePath w (mFileName s)) i = None) →
     ∀ i, 0 < i →
       files (snd (FileDestination.write_all messages d w))
         !! backup (absoluteFilePath w (mFileName s)) i = None).
Proof.
  intros H0. destruct (size_rotate_zero s w H0) as (He & Hc & Hf & Hr).
  split; [done|]. split; [done|]. split; [|split; [|split]].
  - intros q. rewrite Hf. apply fs_remove_creates.
  - intros Hex Hden. rewrite Hf, Hr. unfold fs_remove.
    by rewrite (bool_decide_eq_true_2 _ Hex), (bool_decide_eq_false_2 _ Hden).
  - intros Hfail.
    assert (Hcond : bool_decide (is_Some (files w !! absoluteFilePath w (mFileName s)))
                    && negb (bool_decide (absoluteFilePath w (mFileName s) ∈ denied w)) = false).
    { destruct Hfail as [Hn|Hd].
      - rewrite bool_decide_eq_false_2; [done|]. rewrite Hn. by intros [? [=]].
      - rewrite (bool_decide_eq_true_2 _ Hd). simpl. apply andb_false_r. }
    rewrite Hf, Hr. unfold fs_remove. by rewrite Hcond.
  - intros d messages Hd Hinv i Hi.
    apply write_all_no_backup_above with (n := 0); (done || lia).
Qed.

(** C9.  [setBackupCount(n)] with [n >= 0] stores [min(n, 10)], a value
    in [[0, MaxBackupCount]], and changes nothing else.  A negative [n]
    violates the [Q_ASSERT]: a debug build aborts instead of returning,
    and a build without assertions returns no error either - it stores
    the negative number. *)
Theorem setBackupCount_clamps (debug : bool) (n : Z) (s : SizeRotationStrategy.t) :
  (0 ≤ n →
   setBackupCount debug n s
   = Ok {| mFileName := mFileName s;
           mCurrentSizeInBytes := mCurrentSizeInBytes s;
           mMaxSizeInBytes := mMaxSizeInBytes s;
           mBackupsCount := Z.min n 10 |}
   ∧ 0 ≤ Z.min n 10 ≤ MaxBackupCount)
  ∧ (n < 0 →
     setBackupCount true n s = Aborted
     ∧ setBackupCount false n s
       = Ok {| mFileName := mFileName s;
               mCurrentSizeInBytes := mCurrentSizeInBytes s;
               mMaxSizeInBytes := mMaxSizeInBytes s;
               mBackupsCount := n |}).
Proof.
  unfold setBackupCount, Q_ASSERT, MaxBackupCount. split.
  - intros Hn. destruct (Z.leb_spec 0 n); [|lia].
    rewrite andb_false_r. split; [done|lia].
  - intros Hn. destruct (Z.leb_spec 0 n); [lia|]. split; [done|].
    cbn [andb]. by rewrite Z.min_l by lia.
Qed.

(** One [write] that does not rotate appends the message and a line
    terminator and calls nothing else. *)
Lemma write_without_rotation (message : string) (d : FileDestination.t) (w : World)
    (s : SizeRotationStrategy.t) (fd : FileData) :
  FileDestination.mRotationStrategy d = SizeRS s →
  isOpen (FileDestination.mFile d) = true →
  files w !! absoluteFilePath w (fileName (FileDestination.mFile d)) = Some fd →
  mCurrentSizeInBytes s + Z.of_nat (String.length message) ≤ mMaxSizeInBytes s →
  FileDestination.write message d w
  = ({| FileDestination.mFile := FileDestination.mFile d;
        FileDestination.mRotationStrategy := SizeRS (includeMessageInCalculation message s) |},
     with_files
       (<[absoluteFilePath w (fileName (FileDestination.mFile d))
          := mkFile (content fd +:+ message +:+ endl) (now w)]> (files w)) w).
Proof.
  intros Hs Hopen Hfd Hsize. unfold FileDestination.write.
  rewrite (prepare_size message d w s Hs). cbv zeta.
  unfold shouldRotate. cbn [includeMessageInCalculation mMaxSizeInBytes mCurrentSizeInBytes].
  destruct (Z.ltb_spec (mMaxSizeInBytes s)
              (mCurrentSizeInBytes s + Z.of_nat (String.length message))); [lia|].
  cbn [FileDestination.mFile]. unfold stream_write. by rewrite Hopen, Hfd.
Qed.

(** C3, with the size at opening counted in.  Size strategy, file open:
    when the running size -
    the size the file had when it was opened, plus the messages - stays
    within [mMaxSizeInBytes], writing the messages makes no file-system
    call (no rotation, no reopening) and reports nothing; the file then
    holds what it held, followed by every message and its line
    terminator, in order; no other file changes. *)
Theorem writes_within_limit (messages : list string) (d : FileDestination.t) (w : World)
    (s : SizeRotationStrategy.t) (fd : FileData) :
  FileDestination.mRotationStrategy d = SizeRS s →
  isOpen (FileDestination.mFile d) = true →
  files w !! absoluteFilePath w (fileName (FileDestination.mFile d)) = Some fd →
  mCurrentSizeInBytes s + total_size messages ≤ mMaxSizeInBytes s →
  fscalls (snd (FileDestination.write_all messages d w)) = fscalls w
  ∧ cerr (snd (FileDestination.write_all messages d w)) = cerr w
  ∧ content_at (snd (FileDestination.write_all messages d w))
               (absoluteFilePath w (fileName (FileDestination.mFile d)))
    = Some (content fd +:+ lines messages)
  ∧ (∀ q, q ≠ absoluteFilePath w (fileName (FileDestination.mFile d)) →
          files (snd (FileDestination.write_all messages d w)) !! q = files w !! q)
  ∧ FileDestination.isValid (fst (FileDestination.write_all messages d w)) = true.
Proof.
  unfold FileDestination.write_all.
  revert d w s fd. induction messages as [|m ms IH]; intros d w s fd Hs Hopen Hfd Hsize.
  { simpl. unfold content_at. rewrite Hfd. simpl.
    unfold lines. simpl. by rewrite append_nil_r. }
  assert (Hpos : 0 ≤ total_size ms).
  { clear. induction ms as [|x xs IHx]; simpl; lia. }
  simpl in Hsize.
  cbn [foldl]. rewrite (write_without_rotation m d w s fd) by (done || lia).
  set (p := absoluteFilePath w (fileName (FileDestination.mFile d))).
  set (d1 := FileDestination.mk _ _).
  set (w1 := with_files _ w).
  specialize (IH d1 w1 (includeMessageInCalculation m s)
                (mkFile (content fd +:+ m +:+ endl) (now w))).
  destruct IH as (Hc & Hr & Hcont & Hrest & Hv); [done|done| | |].
  { unfold w1. cbn. apply lookup_insert_eq. }
  { cbn. lia. }
  change (absoluteFilePath w1 (fileName (FileDestination.mFile d1))) with p in *.
  repeat split; try done.
  - rewrite Hcont. cbn [content lines foldr]. by rewrite !append_assoc.
  - intros q Hq. rewrite (Hrest q Hq). unfold w1. cbn. by rewrite lookup_insert_ne.
Qed.

End SizeProperties.

Section SizeTrigger.

Import SizeRotationStrategy.

(** A successful open: what it returns and what it leaves on disk. *)
Lemma QFile_open_ok (mode : Z) (f : QFile) (w : World) :
  fileName f ≠ "" →
  absoluteFilePath w (fileName f) ∉ denied w →
  QFile_open mode f w
  = (true, {| fileName := fileName f; isOpen := true |},
     with_files
       (<[absoluteFilePath w (fileName f)
          := match files w !! absoluteFilePath w (fileName f) with
             | Some d =>
                 if has_flag (processOpenModeFlags mode) Truncate
                 then mkFile "" (now w) else d
             | None => mkFile "" (now w)
             end]> (files w))
       (record_call (CallOpen (absoluteFilePath w (fileName f)) mode) w)).
Proof.
  intros Hname Hden. unfold QFile_open. cbn [denied record_call files now].
  apply String.eqb_neq in Hname. rewrite Hname.
  by rewrite (bool_decide_eq_false_2 _ Hden).
Qed.

(** A failed open: the file object is closed and nothing changes on disk. *)
Lemma QFile_open_fail (mode : Z) (f : QFile) (w : World) :
  fileName f = "" ∨ absoluteFilePath w (fileName f) ∈ denied w →
  QFile_open mode f w
  = (false, {| fileName := fileName f; isOpen := false |},
     record_call (CallOpen (absoluteFilePath w (fileName f)) mode) w).
Proof.
  intros Hfail. unfold QFile_open. cbn [denied record_call files now].
  destruct Hfail as [Hn|Hd].
  - apply String.eqb_eq in Hn. by rewrite Hn.
  - rewrite (bool_decide_eq_true_2 _ Hd). by rewrite orb_true_r.
Qed.

(** Streaming into an open file that is on disk. *)
Lemma stream_write_open (text : string) (f : QFile) (w : World) (d : FileData) :
  isOpen f = true →
  files w !! absoluteFilePath w (fileName f) = Some d →
  stream_write text f w
  = with_files (<[absoluteFilePath w (fileName f)
                  := mkFile (content d +:+ text) (now w)]> (files w)) w.
Proof. intros Ho Hd. unfold stream_write. by rewrite Ho, Hd. Qed.

(** What the constructor establishes for a size strategy: the strategy
    and the file object name the same path, and a valid destination is
    open on an existing, writable file. *)
Lemma make_size_destination (path : string) (s : SizeRotationStrategy.t) (w : World) :
  size_destination (fst (FileDestination.make path (SizeRS s) w)) path (mBackupsCount s)
  ∧ (FileDestination.isValid (fst (FileDestination.make path (SizeRS s) w)) = true →
     open_on (fst (FileDestination.make path (SizeRS s) w))
             (snd (FileDestination.make path (SizeRS s) w))).
Proof.
  unfold FileDestination.make.
  set (mode := Z.lor (Z.lor WriteOnly Text) _).
  set (f := setFileName path (mkQFile "" false)).
  generalize (mkdir_if_missing path w). clear w. intros w.
  destruct (decide (fileName f = "" ∨ absoluteFilePath w (fileName f) ∈ denied w))
    as [Hfail|Hok].
  - rewrite (QFile_open_fail mode f w Hfail). split.
    + eexists. by repeat split.
    + intros [=].
  - rewrite (QFile_open_ok mode f w) by tauto. split.
    + eexists. by repeat split.
    + intros _. unfold open_on.
      cbn [fst snd FileDestination.mFile fileName isOpen].
      set (w1 := with_files _ _).
      assert (He : env w1 = env w) by reflexivity.
      rewrite (absoluteFilePath_env w w1 _ He).
      destruct (env_fields _ _ He) as (-> & _).
      repeat split; [tauto | tauto |].
      unfold w1. cbn [files with_files]. rewrite lookup_insert_eq. by eexists.
Qed.



End SizeTrigger.

(* ===================================================================== *)
(** ** The daily strategy: the deadline *)
(* ===================================================================== *)

Section DailyDeadline.

Import DailyRotationStrategy.

Lemma rotation_time_range (s : DailyRotationStrategy.t) :
  0 ≤ rotation_time s < MSECS_PER_DAY.
Proof.
  unfold rotation_time. destruct (QTime_isValid _) eqn:E; [|unfold MSECS_PER_DAY; lia].
  unfold QTime_isValid in E. apply andb_true_iff in E as [E1 E2].
  apply Z.leb_le in E1. apply Z.ltb_lt in E2. done.
Qed.

(** The deadline is always computed as: tomorrow, at the rotation time. *)
Lemma next_rotation_tp_eq (s : DailyRotationStrategy.t) (w : World) :
  next_rotation_tp (rotation_hour_ s) (rotation_minute_ s) w
  = mkDateTime (date (now w) + 1) (rotation_time s).
Proof. reflexivity. Qed.

Lemma rotation_time_with_deadline (tp : QDateTime) (s : DailyRotationStrategy.t) :
  rotation_time (with_deadline tp s) = rotation_time s.
Proof. reflexivity. Qed.

(** A call at or before the deadline: no, and nothing changes. *)
Lemma shouldRotate_not_due (s : DailyRotationStrategy.t) (w : World) :
  toMSecs (now w) ≤ toMSecs (rotation_tp_ s) →
  shouldRotate s w = (false, s).
Proof.
  intros Ht. unfold shouldRotate, dt_gtb, currentDateTime.
  destruct (Z.ltb_spec (toMSecs (rotation_tp_ s)) (toMSecs (now w))); [lia|done].
Qed.

(** A call after the deadline: yes, and the deadline moves to the
    rotation time of the day after the call. *)
Lemma shouldRotate_due (s : DailyRotationStrategy.t) (w : World) :
  toMSecs (rotation_tp_ s) < toMSecs (now w) →
  shouldRotate s w
  = (true, with_deadline (mkDateTime (date (now w) + 1) (rotation_time s)) s).
Proof.
  intros Ht. unfold shouldRotate, dt_gtb, currentDateTime.
  destruct (Z.ltb_spec (toMSecs (rotation_tp_ s)) (toMSecs (now w))); [|lia].
  by rewrite next_rotation_tp_eq.
Qed.

(** Calls that all come at or before the deadline. *)
Lemma shouldRotate_at_quiet (times : list QDateTime) (s : DailyRotationStrategy.t)
    (w : World) :
  Forall (λ t, toMSecs t ≤ toMSecs (rotation_tp_ s)) times →
  shouldRotate_at times s w = (map (λ _, false) times, s).
Proof.
  induction 1 as [|t ts Ht _ IH]; [done|].
  cbn [shouldRotate_at]. rewrite shouldRotate_not_due by done.
  by rewrite IH.
Qed.

(** C1, with the deadline itself on the quiet side.  Daily strategy whose
    deadline is day [dd] at the
    rotation time [T].  The calls made at or before the deadline answer
    false and leave the strategy alone; the first call made strictly after
    it answers true - the only call that changes the deadline - and moves
    the deadline to [T] on the day after that call, which is later than
    the call itself and is day [dd + 1] at [T] when the call was made on
    day [dd]; the calls that follow, up to [T] of day [dd + 1], answer
    false and leave the new deadline alone. *)
Theorem daily_shouldRotate_once (s : DailyRotationStrategy.t) (w : World) (dd : Z)
    (before after : list QDateTime) (t : QDateTime) :
  rotation_tp_ s = mkDateTime dd (rotation_time s) →
  Forall (λ b, toMSecs b ≤ toMSecs (rotation_tp_ s)) before →
  valid_instant t →
  toMSecs (rotation_tp_ s) < toMSecs t →
  Forall (λ a, toMSecs a ≤ toMSecs (mkDateTime (dd + 1) (rotation_time s))) after →
  shouldRotate_at before s w = (map (λ _, false) before, s)
  ∧ shouldRotate_at (before ++ t :: after) s w
    = ((map (λ _, false) before ++ true :: map (λ _, false) after)%list,
       with_deadline (mkDateTime (date t + 1) (rotation_time s)) s)
  ∧ toMSecs t < toMSecs (mkDateTime (date t + 1) (rotation_time s))
  ∧ (date t = dd →
     mkDateTime (date t + 1) (rotation_time s) = mkDateTime (dd + 1) (rotation_time s)).
Proof.
  intros Htp Hbefore [Ht0 Ht1] Hdue Hafter.
  pose proof (rotation_time_range s) as HT.
  assert (Hday : dd ≤ date t).
  { rewrite Htp in Hdue. unfold toMSecs in Hdue. cbn [date time] in Hdue.
    unfold MSECS_PER_DAY in *. nia. }
  split; [by apply shouldRotate_at_quiet|]. split; [|split].
  - clear Htp. revert Hbefore. induction 1 as [|b bs Hb _ IH].
    + cbn [app shouldRotate_at map]. rewrite shouldRotate_due by done.
      rewrite shouldRotate_at_quiet; [done|].
      eapply Forall_impl; [exact Hafter|]. intros a Ha. cbn beta in *.
      cbn [rotation_tp_ with_deadline now at_time].
      unfold toMSecs in *. cbn [date time] in *. unfold MSECS_PER_DAY in *. nia.
    + cbn [app shouldRotate_at map]. rewrite shouldRotate_not_due by done.
      by rewrite IH.
  - unfold toMSecs. cbn [date time]. unfold MSECS_PER_DAY in *. nia.
  - by intros ->.
Qed.

(** The boundary and the new deadline.  With the
    rotation time 23:00 and the deadline on 2024-03-05 (Julian day
    2460375): a call made exactly at the deadline answers false although
    it is made "at or after [T]"; and a first call made at 00:30 on
    2024-03-06 moves the deadline to 2024-03-07 23:00, not to the next
    occurrence of 23:00, which is 2024-03-06 23:00. *)
Lemma daily_shouldRotate_at_deadline :
  let s := DailyRotationStrategy.mk "app.log" 23 0 (mkDateTime 2460375 82800000) in
  let w := mkWorld ∅ ∅ "/" (mkDateTime 2460375 0) number [] [] in
  fst (shouldRotate s (at_time (mkDateTime 2460375 82800000) w)) = false
  ∧ shouldRotate s (at_time (mkDateTime 2460376 1800000) w)
    = (true, DailyRotationStrategy.mk "app.log" 23 0 (mkDateTime 2460377 82800000)).
Proof. split; reflexivity. Qed.

End DailyDeadline.

(* ===================================================================== *)
(** ** DailyFileDestination: how the file is opened *)
(* ===================================================================== *)

Section DailyOpen.

Import DailyRotationStrategy.

Lemma remove_all_env (names : list string) (w : World) :
  env (remove_all names w) = env w.
Proof.
  unfold remove_all. revert w. induction names as [|n ns IH]; intros w; [done|].
  cbn [foldl]. rewrite IH. apply QFile_remove_env.
Qed.

Lemma daily_rotate_env (s : DailyRotationStrategy.t) (w : World) :
  env (rotate s w) = env w.
Proof. unfold rotate. case_match; [apply remove_all_env | done]. Qed.

(** C10.  [DailyFileDestination]'s constructor opens the dated file name
    with [WriteOnly | Text], a mode without the [Append] flag that the
    daily strategy recommends: when the open succeeds the file is empty,
    whatever it held.  In [write], a call that does not rotate opens
    nothing; a call that rotates reopens with [WriteOnly | Text | Append],
    so what the newly dated file already holds is kept and the message
    follows it. *)
Theorem daily_constructor_truncates (path message : string)
    (s s0 : DailyRotationStrategy.t) (f0 : QFile) (w : World) :
  let name := calc_filename (locale w) path (now w) in
  let made := DailyFileDestination.make path (DailyRS s) w in
  let d0 := DailyFileDestination.mk f0 (DailyRS s0) in
  let name' := calc_filename (locale w) (mFileName s0) (now w) in
  let s1 := with_deadline (mkDateTime (date (now w) + 1) (rotation_time s0)) s0 in
  let wrote := DailyFileDestination.write message d0 w in
  (fscalls (snd made)
   = (fscalls w ++ [CallOpen (absoluteFilePath w name) (Z.lor WriteOnly Text)])%list
   ∧ has_flag (Z.lor WriteOnly Text) Append = false
   ∧ has_flag (QsLogging.recommendedOpenModeFlag (DailyRS s)) Append = true
   ∧ (DailyFileDestination.isValid (fst made) = true →
      files (snd made) !! absoluteFilePath w name = Some (mkFile "" (now w))))
  ∧ (toMSecs (now w) ≤ toMSecs (rotation_tp_ s0) → fscalls (snd wrote) = fscalls w)
  ∧ (toMSecs (rotation_tp_ s0) < toMSecs (now w) →
     fscalls (snd wrote)
     = (fscalls (rotate s1 w)
        ++ [CallOpen (absoluteFilePath w name') (Z.lor (Z.lor WriteOnly Text) Append)])%list
     ∧ (DailyFileDestination.isValid (fst wrote) = true →
        content_at (snd wrote) (absoluteFilePath w name')
        = Some (default "" (content_at (rotate s1 w) (absoluteFilePath w name'))
                +:+ message +:+ endl))).
Proof.
  intros name made d0 name' s1 wrote. split; [|split].
  - unfold made, DailyFileDestination.make.
    change (QsLogging.getFileName
              (QsLogging.setInitialInfo (mkQFile path false) w (DailyRS s)) w) with name.
    destruct (mkdir_if_missing_fields name w) as (Hf0 & _ & Hn0 & _ & _ & Hcalls0 & _).
    pose proof (mkdir_if_missing_path name name w) as Hp0.
    set (w0 := mkdir_if_missing name w) in *.
    unfold setFileName. cbn [isOpen].
    unfold QFile_open. cbn [fileName denied record_call files now fscalls].
    rewrite Hp0.
    destruct (String.eqb name "" || bool_decide (absoluteFilePath w name ∈ denied w0)) eqn:E.
    + cbn. rewrite Hcalls0. repeat split; try done.
    + cbn. rewrite Hcalls0. repeat split; try done. intros _.
      rewrite lookup_insert_eq, Hf0, Hn0. by destruct (files w !! absoluteFilePath w name).
  - intros Hnot. unfold wrote, DailyFileDestination.write, d0.
    cbn [DailyFileDestination.mRotationStrategy_ DailyFileDestination.mFile QsLogging.shouldRotate].
    rewrite shouldRotate_not_due by done. cbv beta iota zeta. cbn [snd].
    apply stream_write_fscalls.
  - intros Hdue. unfold wrote, DailyFileDestination.write, d0.
    cbn [DailyFileDestination.mRotationStrategy_ DailyFileDestination.mFile QsLogging.shouldRotate].
    rewrite shouldRotate_due by done. fold s1. cbv beta iota zeta.
    cbn [QsLogging.rotate QsLogging.getFileName QsLogging.recommendedOpenModeFlag].
    pose proof (daily_rotate_env s1 w) as He.
    set (wr := rotate s1 w) in *.
    destruct (env_fields _ _ He) as (Hd & Hc & Hn & Hl).
    assert (Hname : getFileName s1 wr = name').
    { unfold getFileName, currentDateTime. by rewrite Hl, Hn. }
    rewrite Hname. unfold recommendedOpenModeFlag.
    set (f := setFileName name' (QFile_close f0)).
    set (mode := Z.lor (Z.lor WriteOnly Text) Append).
    assert (Hf : fileName f = name') by reflexivity.
    pose proof (absoluteFilePath_env w wr name' He) as Hp.
    destruct (decide (name' = "" ∨ absoluteFilePath wr name' ∈ denied wr))
      as [Hfail|Hok].
    + rewrite (QFile_open_fail mode f wr) by (by rewrite Hf). rewrite Hf, Hp.
      cbn [fst snd DailyFileDestination.mFile DailyFileDestination.isValid isOpen].
      rewrite stream_write_fscalls. split; [reflexivity|]. intros [=].
    + rewrite (QFile_open_ok mode f wr) by (rewrite Hf; tauto). rewrite Hf, Hp.
      cbn [fst snd DailyFileDestination.mFile DailyFileDestination.isValid isOpen].
      rewrite stream_write_fscalls. split; [reflexivity|]. intros _.
      set (fd := match files wr !! absoluteFilePath w name' with
                 | Some d => if has_flag (processOpenModeFlags mode) Truncate
                             then mkFile "" (now wr) else d
                 | None => mkFile "" (now wr)
                 end).
      set (w2 := with_files _ _).
      assert (He2 : env w2 = env w) by (rewrite <- He; reflexivity).
      pose proof (absoluteFilePath_env w w2 name' He2) as Hp2.
      assert (Hfd : files w2 !! absoluteFilePath w name' = Some fd).
      { unfold w2. cbn [files with_files]. apply lookup_insert_eq. }
      rewrite (stream_write_open _ (mkQFile name' true) w2 fd eq_refl)
        by (cbn [fileName]; by rewrite Hp2).
      cbn [fileName]. rewrite Hp2. unfold content_at. cbn [files with_files].
      rewrite lookup_insert_eq. cbn [fmap option_fmap option_map content].
      unfold fd. destruct (files wr !! absoluteFilePath w name') as [d|]; [done|].
      cbn [fmap option_fmap option_map default content]. by rewrite append_nil_l.
Qed.

End DailyOpen.

(* ===================================================================== *)
(** ** The daily strategy: file names and retention *)
(* ===================================================================== *)

Section DailyNames.

Import DailyRotationStrategy.

(** The two examples of the spec: one dot, and no dot. *)
Lemma calc_filename_examples :
  calc_filename number "app.log" (mkDateTime (julianDayFromDate 2024 3 5) 0)
  = "app_2024_3_5.log"
  ∧ calc_filename number "app" (mkDateTime (julianDayFromDate 2024 3 5) 0)
    = "app_2024_3_5.".
Proof. split; reflexivity. Qed.

Lemma no_marker_append (a b : string) :
  no_marker a = true → no_marker b = true → no_marker (a +:+ b) = true.
Proof.
  intros Ha Hb. induction a as [|c a IH]; [done|].
  rewrite append_cons. simpl in *. apply andb_true_iff in Ha as [Hc Ha].
  rewrite Hc. simpl. by apply IH.
Qed.

Lemma no_marker_number (n : Z) : no_marker (number n) = true.
Proof.
  assert (Hu : ∀ d, no_marker (NilEmpty.string_of_uint d) = true)
    by (induction d; simpl; auto).
  assert (Hz : ∀ d, no_marker (NilZero.string_of_uint d) = true)
    by (intros d; destruct d; try reflexivity; apply (Hu (_ d))).
  unfold number. destruct (Z.to_int n); simpl; auto.
Qed.

(** [arg] on a text whose beginning holds no place marker only looks at
    the rest. *)
Lemma arg_with_plain (pre rest x lx : string) :
  no_marker pre = true →
  arg_with x lx (pre +:+ rest)
  = match min_escape (S (String.length rest)) rest with
    | Some m => pre +:+ replace_escapes (S (String.length rest)) m x lx rest
    | None => pre +:+ rest
    end.
Proof.
  intros Hp. unfold arg_with.
  replace (S (String.length (pre +:+ rest)))
    with (String.length pre + S (String.length rest))%nat
    by (rewrite length_append; lia).
  rewrite min_escape_plain by done.
  destruct (min_escape _ rest); [|done]. by apply replace_escapes_plain.
Qed.

Lemma split_no_dot (s : string) : no_dot s = true → split "." s = [s].
Proof.
  induction s as [|c s IH]; [done|].
  simpl. intros [Hc Hs]%andb_true_iff. apply negb_true_iff in Hc.
  rewrite Hc, IH by done. done.
Qed.

Lemma split_first_dot (base rest : string) :
  no_dot base = true → split "." (base +:+ "." +:+ rest) = base :: split "." rest.
Proof.
  induction base as [|c base IH]; [done|].
  intros H. simpl in H. apply andb_true_iff in H as [Hc Hs]. apply negb_true_iff in Hc.
  rewrite append_cons. cbn [split]. rewrite Hc, IH by done. done.
Qed.

(** One [arg] call on [pre + "_%k..."]: the marker is replaced, the text
    before it kept.  [rest] and [rest'] are the text from the marker on,
    before and after the call. *)
Lemma arg_with_step (pre x lx rest rest' : string) (m : Z) :
  no_marker pre = true →
  min_escape (S (String.length rest)) rest = Some m →
  replace_escapes (S (String.length rest)) m x lx rest = rest' →
  arg_with x lx (pre +:+ rest) = pre +:+ rest'.
Proof. intros Hp Hm Hr. rewrite arg_with_plain by done. by rewrite Hm, Hr. Qed.

(** The chain of five [arg] calls of [calc_filename], for arguments
    without place markers (the last one may hold some). *)
Lemma arg_chain (a0 a1 sy ly sm lm sd ld : string) :
  no_marker a0 = true → no_marker sy = true → no_marker sm = true →
  no_marker sd = true →
  arg_with a1 a1
    (arg_with sd ld (arg_with sm lm (arg_with sy ly (arg_with a0 a0 "%1_%2_%3_%4.%5"))))
  = a0 +:+ ("_" +:+ sy +:+ "_" +:+ sm +:+ "_" +:+ sd) +:+ "." +:+ a1.
Proof.
  intros H0 Hy Hm Hd.
  assert (E1 : arg_with a0 a0 "%1_%2_%3_%4.%5" = a0 +:+ "_%2_%3_%4.%5") by reflexivity.
  rewrite E1.
  rewrite (arg_with_step a0 sy ly "_%2_%3_%4.%5" ("_" +:+ sy +:+ "_%3_%4.%5") 2)
    by (done || reflexivity).
  replace (a0 +:+ "_" +:+ sy +:+ "_%3_%4.%5")
    with ((a0 +:+ "_" +:+ sy) +:+ "_%3_%4.%5") by (by rewrite !append_assoc).
  rewrite (arg_with_step _ sm lm "_%3_%4.%5" ("_" +:+ sm +:+ "_%4.%5") 3);
    [|by repeat apply no_marker_append|reflexivity|reflexivity].
  replace ((a0 +:+ "_" +:+ sy) +:+ "_" +:+ sm +:+ "_%4.%5")
    with (((a0 +:+ "_" +:+ sy) +:+ "_" +:+ sm) +:+ "_%4.%5") by (by rewrite !append_assoc).
  rewrite (arg_with_step _ sd ld "_%4.%5" ("_" +:+ sd +:+ ".%5") 4);
    [|by repeat apply no_marker_append|reflexivity|reflexivity].
  replace (((a0 +:+ "_" +:+ sy) +:+ "_" +:+ sm) +:+ "_" +:+ sd +:+ ".%5")
    with ((((a0 +:+ "_" +:+ sy) +:+ "_" +:+ sm) +:+ "_" +:+ sd) +:+ ".%5")
    by (by rewrite !append_assoc).
  rewrite (arg_with_step _ a1 a1 ".%5" ("." +:+ a1) 5);
    [|by repeat apply no_marker_append|reflexivity|].
  - by rewrite !append_assoc.
  - change (replace_escapes (S (String.length ".%5")) 5 a1 a1 ".%5")
      with ("." +:+ a1 +:+ ""). by rewrite append_nil_r.
Qed.

Lemma calc_filename_args (loc : Z → string) (a0 a1 : string) (dt : QDateTime) :
  no_marker a0 = true →
  arg a1
    (arg_int loc (day (date dt))
      (arg_int loc (month (date dt))
        (arg_int loc (year (date dt))
          (arg a0 "%1_%2_%3_%4.%5"))))
  = a0 +:+ date_tag dt +:+ "." +:+ a1.
Proof.
  intros H0. unfold arg, arg_int, date_tag.
  apply arg_chain; auto using no_marker_number.
Qed.

(** What [calc_filename] computes for a name whose first segment holds no
    place marker: the date goes after the text before the FIRST dot, and
    of the rest only the text up to the second dot is kept. *)
Lemma calc_filename_first_segments (loc : Z → string) (base rest : string) (dt : QDateTime) :
  no_dot base = true → no_marker base = true →
  calc_filename loc base dt = base +:+ date_tag dt +:+ "."
  ∧ calc_filename loc (base +:+ "." +:+ rest) dt
    = base +:+ date_tag dt +:+ "." +:+ at_ (split "." rest) 0.
Proof.
  intros Hd Hm. unfold calc_filename. split.
  - rewrite split_no_dot by done. cbn [List.length Nat.ltb Nat.leb app at_ nth].
    rewrite calc_filename_args by done. by rewrite append_nil_r.
  - rewrite split_first_dot by done.
    assert (Hlen : (List.length (base :: split "." rest) <? 2)%nat = false).
    { destruct rest as [|c rest]; [done|]. simpl.
      destruct (Ascii.eqb c "."); [done|]. by destruct (split "." rest). }
    rewrite Hlen. cbn [at_ nth]. by rewrite calc_filename_args.
Qed.

(** For a name with exactly one dot the date is inserted before the
    extension. *)
Lemma calc_filename_one_dot (loc : Z → string) (base ext : string) (dt : QDateTime) :
  no_dot base = true → no_marker base = true → no_dot ext = true →
  calc_filename loc (base +:+ "." +:+ ext) dt = base +:+ date_tag dt +:+ "." +:+ ext.
Proof.
  intros Hd Hm He.
  destruct (calc_filename_first_segments loc base ext dt Hd Hm) as [_ ->].
  by rewrite split_no_dot.
Qed.

(** C6.  [calc_filename] cuts the name at its FIRST dot and keeps only
    the text up to the second one: a name with two dots loses its final
    extension, and a path with a dot in a directory name is cut inside
    the directory part - the date is not inserted before the final
    extension. *)
Theorem calc_filename_second_dot :
  calc_filename number "app.tar.gz" (mkDateTime (julianDayFromDate 2024 3 5) 0)
  = "app_2024_3_5.tar"
  ∧ calc_filename number "./logs/app.log" (mkDateTime (julianDayFromDate 2024 3 5) 0)
    = "_2024_3_5./logs/app"
  ∧ calc_filename number "/srv/my.app/app.log" (mkDateTime (julianDayFromDate 2024 3 5) 0)
    = "/srv/my_2024_3_5.app/app".
Proof. repeat split; reflexivity. Qed.

(** C5.  35 dated log files in [/var/log], the process working in
    [/home/user]: [rotate] lists the 35 names, newest first, and asks to
    remove the 6 oldest - by bare name, which resolves against the working
    directory.  The six calls hit [/home/user/...], fail, and all 35 files
    remain. *)
Theorem daily_rotate_relative_names :
  let s := DailyRotationStrategy.mk "/var/log/app.log" 0 0 (mkDateTime 2460376 0) in
  let w := world_of (dated_logs "/var/log" 35) "/home/user" in
  size (files w) = 35%nat
  ∧ size (files (rotate s w)) = 35%nat
  ∧ forallb (λ k, bool_decide (is_Some (files (rotate s w) !! fst (dated_log "/var/log" k))))
            (seq 1 35) = true
  ∧ fscalls (rotate s w)
    = [CallRemove "/home/user/app_2024_1_6.log";
       CallRemove "/home/user/app_2024_1_5.log";
       CallRemove "/home/user/app_2024_1_4.log";
       CallRemove "/home/user/app_2024_1_3.log";
       CallRemove "/home/user/app_2024_1_2.log";
       CallRemove "/home/user/app_2024_1_1.log"].
Proof. vm_compute. repeat split; reflexivity. Qed.

(** [rotate] renames nothing: its only calls are removals, one per listed
    name from index 29 on, each resolved against the working directory. *)
Lemma daily_rotate_only_removes (s : DailyRotationStrategy.t) (w : World) :
  let results := entryList (absolutePath w (getFileName s w))
                           (suffix (getFileName s w)) w in
  fscalls (rotate s w)
  = (fscalls w
     ++ ((λ name, CallRemove (absoluteFilePath w name))
           <$> (if (29 <? List.length results)%nat then drop 29 results else [])))%list.
Proof.
  intros results. unfold rotate. fold results.
  destruct (29 <? List.length results)%nat; [|by rewrite app_nil_r].
  unfold remove_all. generalize (drop 29 results). intros names.
  assert (Hgen : ∀ w0, env w0 = env w →
            fscalls (foldl (λ w1 name, snd (QFile_remove name w1)) w0 names)
            = (fscalls w0 ++ ((λ name, CallRemove (absoluteFilePath w name)) <$> names))%list).
  { induction names as [|n ns IH]; intros w0 He; [by rewrite app_nil_r|].
    cbn [foldl]. rewrite IH by (by rewrite QFile_remove_env).
    rewrite QFile_remove_fscalls, (absoluteFilePath_env w w0 n He).
    by rewrite <- app_assoc. }
  by apply Hgen.
Qed.

(** In general: when the working directory holds none of the listed
    names, [rotate] removes nothing at all. *)
Lemma daily_rotate_removes_nothing (s : DailyRotationStrategy.t) (w : World) :
  (∀ name, name ∈ entryList (absolutePath w (getFileName s w))
                            (suffix (getFileName s w)) w →
           files w !! absoluteFilePath w name = None) →
  files (rotate s w) = files w.
Proof.
  intros Hnone. unfold rotate.
  set (results := entryList _ _ w) in *.
  destruct (29 <? List.length results)%nat; [|done].
  assert (Hdrop : ∀ name, name ∈ drop 29 results →
                          files w !! absoluteFilePath w name = None).
  { intros name Hin. apply Hnone. eapply subseteq_drop, Hin. }
  clear Hnone. unfold remove_all.
  assert (Hgen : ∀ names w0, env w0 = env w → files w0 = files w →
            (∀ name, name ∈ names → files w !! absoluteFilePath w name = None) →
            files (foldl (λ w1 name, snd (QFile_remove name w1)) w0 names) = files w).
  { induction names as [|n ns IH]; intros w0 He Hf Hns; [done|].
    cbn [foldl]. apply IH.
    - by rewrite QFile_remove_env.
    - rewrite QFile_remove_files, (absoluteFilePath_env w w0 n He), Hf.
      unfold fs_remove. rewrite (Hns n) by apply list_elem_of_here.
      rewrite bool_decide_eq_false_2; [done|]. by intros [? [=]].
    - intros name Hin. apply Hns. by apply list_elem_of_further. }
  by apply Hgen.
Qed.

(** When the working directory is the log directory the same call does
    leave the 29 most recently modified files (numbers 7 to 35). *)
Lemma daily_rotate_in_working_directory :
  let s := DailyRotationStrategy.mk "/var/log/app.log" 0 0 (mkDateTime 2460376 0) in
  let w := world_of (dated_logs "/var/log" 35) "/var/log" in
  size (files (rotate s w)) = 29%nat
  ∧ forallb (λ k, bool_decide (is_Some (files (rotate s w) !! fst (dated_log "/var/log" k))))
            (seq 7 29) = true
  ∧ forallb (λ k, bool_decide (files (rotate s w) !! fst (dated_log "/var/log" k) = None))
            (seq 1 6) = true.
Proof. vm_compute. repeat split; reflexivity. Qed.

End DailyNames.

(* ===================================================================== *)
(** ** The statements at concrete inputs *)
(* ===================================================================== *)

Section Instances.

Import SizeRotationStrategy.



(** Staying within the limit does not prevent a rotation when the file
    already has content: the log file
    holds 3 bytes, the limit is 2 bytes and one message of 1 byte is
    written.  The messages stay within the limit, yet the write rotates. *)
Lemma writes_within_limit_existing_content :
  let w := world_of {["/log/a.txt" := mkFile "abc" (mkDateTime 2460375 0)]} "/" in
  let made := FileDestination.make "/log/a.txt" (SizeRS (SizeRotationStrategy.mk "" 0 2 1)) w in
  let wrote := FileDestination.write_all ["a"] (fst made) (snd made) in
  FileDestination.isValid (fst made) = true
  ∧ total_size ["a"] ≤ 2
  ∧ fscalls (snd wrote)
    = (fscalls (snd made)
       ++ [CallRename "/log/a.txt" "/log/a.txt.1"; CallOpen "/log/a.txt" 22])%list
  ∧ content_at (snd wrote) "/log/a.txt.1" = Some "abc"
  ∧ content_at (snd wrote) "/log/a.txt" = Some ("a" +:+ endl).
Proof. vm_compute. repeat split; (reflexivity || discriminate). Qed.

(** Writing within the limit, on the example: two messages of 1 byte on top of the 3 bytes of
    [/log/a.txt], limit 5. *)
Lemma writes_within_limit_example :
  let w := world_of example_files "/" in
  let d := FileDestination.mk (mkQFile "/log/a.txt" true)
             (SizeRS (SizeRotationStrategy.mk "/log/a.txt" 3 5 2)) in
  fscalls (snd (FileDestination.write_all ["a"; "b"] d w)) = fscalls w
  ∧ content_at (snd (FileDestination.write_all ["a"; "b"] d w)) "/log/a.txt"
    = Some ("new" +:+ lines ["a"; "b"]).
Proof.
  intros w d.
  destruct (writes_within_limit ["a"; "b"] d w (SizeRotationStrategy.mk "/log/a.txt" 3 5 2)
              (mkFile "new" (mkDateTime 2460375 0)))
    as (Hc & _ & Hcont & _).
  - reflexivity.
  - reflexivity.
  - reflexivity.
  - vm_compute. discriminate.
  - split; [exact Hc | exact Hcont].
Defined.


(** Rotation without backups, on an example: no backups kept, the log file present. *)
Lemma size_rotate_without_backups_example :
  let w := world_of example_files "/" in
  let s := SizeRotationStrategy.mk "/log/a.txt" 0 5 0 in
  files (rotate s w) = delete "/log/a.txt" (files w)
  ∧ cerr (rotate s w) = cerr w
  ∧ fscalls (rotate s w) = (fscalls w ++ [CallRemove "/log/a.txt"])%list.
Proof.
  intros w s.
  destruct (size_rotate_without_backups s w) as (_ & Hc & _ & Hok & _).
  - reflexivity.
  - destruct Hok as [Hf Hr].
    + by eexists.
    + apply not_denied_empty.
    + split; [exact Hf|]. split; [exact Hr | exact Hc].
Defined.

(** [setBackupCount] at 12 and at -1. *)
Lemma setBackupCount_clamps_example :
  setBackupCount true 12 make
  = Ok {| mFileName := ""; mCurrentSizeInBytes := 0; mMaxSizeInBytes := 0;
          mBackupsCount := 10 |}
  ∧ setBackupCount true (-1) make = Aborted.
Proof.
  split.
  - destruct (setBackupCount_clamps true 12 make) as [H _].
    destruct H as [H _]; [lia|]. exact H.
  - destruct (setBackupCount_clamps true (-1) make) as [_ H].
    destruct H as [H _]; [lia|]. exact H.
Defined.

End Instances.

Section DailyInstances.

Import DailyRotationStrategy.

(** One rotation per deadline, on an example: rotation time 23:00, deadline on Julian day
    2460375; calls at 22:00 and at 23:00 sharp, then at 23:30, then at
    23:45 and at 22:59 of the next day. *)
Lemma daily_shouldRotate_once_example :
  let s := DailyRotationStrategy.mk "app.log" 23 0 (mkDateTime 2460375 82800000) in
  let w := world_of ∅ "/" in
  fst (shouldRotate_at
         [mkDateTime 2460375 79200000; mkDateTime 2460375 82800000;
          mkDateTime 2460375 84600000;
          mkDateTime 2460375 85500000; mkDateTime 2460376 82740000] s w)
  = [false; false; true; false; false].
Proof.
  intros s w.
  destruct (daily_shouldRotate_once s w 2460375
              [mkDateTime 2460375 79200000; mkDateTime 2460375 82800000]
              [mkDateTime 2460375 85500000; mkDateTime 2460376 82740000]
              (mkDateTime 2460375 84600000)) as (_ & H & _).
  - reflexivity.
  - repeat constructor; vm_compute; discriminate.
  - split; vm_compute; [discriminate | reflexivity].
  - vm_compute. reflexivity.
  - repeat constructor; vm_compute; discriminate.
  - cbn [app] in H. rewrite H. reflexivity.
Defined.

(** The constructor on an example: the dated file of 2024-03-05 already holds text
    when the destination is constructed. *)
Lemma daily_constructor_truncates_example :
  let w := world_of {["/log/app_2024_3_5.log" := mkFile "earlier today" (mkDateTime 2460375 0)]} "/" in
  let s := DailyRotationStrategy.mk "" 0 0 (mkDateTime 2460375 0) in
  files (snd (DailyFileDestination.make "/log/app.log" (DailyRS s) w))
    !! "/log/app_2024_3_5.log"
  = Some (mkFile "" (mkDateTime 2460375 0)).
Proof.
  intros w s.
  destruct (daily_constructor_truncates "/log/app.log" "m" s s (mkQFile "" false) w)
    as ((_ & _ & _ & H) & _).
  apply H. reflexivity.
Defined.

End DailyInstances.

(* ===================================================================== *)
(** ** More on the write path of FileDestination *)
(* ===================================================================== *)

Section WritePath.

Import SizeRotationStrategy.

Lemma QFile_open_other (mode : Z) (f : QFile) (w : World) (q : string) :
  q ≠ absoluteFilePath w (fileName f) →
  files (snd (QFile_open mode f w)) !! q = files w !! q.
Proof.
  intros Hq. unfold QFile_open. simpl. case_match; [done|].
  simpl. by rewrite lookup_insert_ne.
Qed.

Lemma stream_write_other (text : string) (f : QFile) (w : World) (q : string) :
  q ≠ absoluteFilePath w (fileName f) →
  files (stream_write text f w) !! q = files w !! q.
Proof.
  intros Hq. unfold stream_write. repeat case_match; try done.
  simpl. by rewrite lookup_insert_ne.
Qed.

Lemma stream_write_closed (text : string) (f : QFile) (w : World) :
  isOpen f = false → stream_write text f w = w.
Proof. intros Hc. unfold stream_write. by rewrite Hc. Qed.

(** Step 2 of the size rotation leaves alone every file that is not one
    of the backups it handles. *)
Lemma shift_up_frame_bounded (s : SizeRotationStrategy.t) (w : World)
    (k : nat) (w0 : World) (q : string) :
  no_marker (mFileName s) = true →
  env w0 = env w →
  (∀ j, 1 ≤ j ≤ Z.of_nat k + 1 → q ≠ backup (absoluteFilePath w (mFileName s)) j) →
  files (shift_up s k w0) !! q = files w0 !! q.
Proof.
  intros Hplain. revert w0. induction k as [|k IH]; intros w0 He Hq; [done|].
  cbn [shift_up].
  set (oldName := backupName s w0 (Z.of_nat (S k))).
  set (newName := backupName s w0 (Z.of_nat (S k) + 1)).
  set (w1 := snd (QFile_remove newName w0)).
  assert (He1 : env w1 = env w) by (unfold w1; by rewrite QFile_remove_env).
  pose proof (QFile_rename_env oldName newName w1) as He2.
  pose proof (QFile_rename_files oldName newName w1) as Hf2.
  destruct (QFile_rename oldName newName w1) as [renamed w2]. simpl in He2, Hf2.
  rewrite He1 in He2.
  set (w3 := if renamed then w2 else _).
  assert (He3 : env w3 = env w) by (unfold w3; by destruct renamed).
  assert (Hf3 : files w3 = files w2) by (unfold w3; by destruct renamed).
  rewrite (IH w3 He3) by (intros j Hj; apply Hq; lia).
  rewrite Hf3, Hf2.
  subst oldName newName. rewrite !(backupName_path s w Hplain w1 w0) by done.
  rewrite fs_rename_other by (apply Hq; lia).
  unfold w1. rewrite QFile_remove_files, (backupName_path s w Hplain w0 w0) by done.
  by rewrite fs_remove_other by (apply Hq; lia).
Qed.

(** [rotate] changes nothing but the log file and its backups [.1] to
    [.mBackupsCount], whatever the file system lets it do. *)
Lemma size_rotate_frame (s : SizeRotationStrategy.t) (w : World) (q : string) :
  (mBackupsCount s ≠ 0 → no_marker (mFileName s) = true) → 0 ≤ mBackupsCount s →
  q ≠ absoluteFilePath w (mFileName s) →
  (∀ j, 1 ≤ j ≤ mBackupsCount s → q ≠ backup (absoluteFilePath w (mFileName s)) j) →
  files (rotate s w) !! q = files w !! q.
Proof.
  intros Hplain0 HN HqP Hq.
  destruct (decide (mBackupsCount s = 0)) as [E0|E0].
  { destruct (size_rotate_zero s w E0) as (_ & _ & -> & _). by apply fs_remove_other. }
  pose proof (Hplain0 E0) as Hplain.
  unfold rotate. rewrite (proj2 (Z.eqb_neq _ _) E0).
  rewrite (find_last_existing_capped s w Hplain) by lia.
  set (L := Z.min _ _).
  assert (HL : L ≤ mBackupsCount s - 1) by (unfold L; lia).
  destruct (shift_up_creates s w Hplain (Z.to_nat L) w eq_refl) as [He2 _].
  pose proof (shift_up_frame_bounded s w (Z.to_nat L) w q Hplain eq_refl) as Hf2.
  set (w2 := shift_up s (Z.to_nat L) w) in *.
  rewrite <- Hf2 by (intros j Hj; apply Hq; lia).
  set (newName := backupName s w 1).
  assert (HB : absoluteFilePath w2 newName = backup (absoluteFilePath w (mFileName s)) 1)
    by apply (backupName_path s w Hplain w2 w 1 He2).
  set (w3 := if QFile_exists newName w2 then snd (QFile_remove newName w2) else w2).
  assert (He3 : env w3 = env w).
  { unfold w3. case_match; [|done]. by rewrite QFile_remove_env. }
  assert (Hf3 : files w3 !! q = files w2 !! q).
  { unfold w3. case_match; [|done]. rewrite QFile_remove_files, HB.
    apply fs_remove_other. apply Hq. lia. }
  pose proof (QFile_rename_files (mFileName s) newName w3) as Hf4.
  destruct (QFile_rename (mFileName s) newName w3) as [renamed w4]. simpl in Hf4.
  assert (Hw : ∀ msg, files (if renamed then w4 else report msg w4) = files w4)
    by (intros msg; by destruct renamed).
  rewrite Hw, Hf4, <- Hf3.
  apply fs_rename_other.
  - by rewrite (absoluteFilePath_env w w3 _ He3).
  - unfold newName. rewrite (backupName_path s w Hplain w3 w 1 He3). apply Hq. lia.
Qed.

(** One [write] changes nothing but the log file and its backups. *)
Lemma write_frame (path : string) (n : Z) (message : string)
    (d : FileDestination.t) (w : World) (q : string) :
  (n ≠ 0 → no_marker path = true) → 0 ≤ n →
  size_destination d path n →
  q ≠ absoluteFilePath w path →
  (∀ j, 1 ≤ j ≤ n → q ≠ backup (absoluteFilePath w path) j) →
  files (snd (FileDestination.write message d w)) !! q = files w !! q.
Proof.
  intros Hplain Hn (s & Hs & Hname & Hcount & Hfile) HqP Hq.
  unfold FileDestination.write. rewrite (prepare_size _ _ _ _ Hs). cbv zeta.
  set (s1 := includeMessageInCalculation message s).
  destruct (shouldRotate s1) eqn:Hrot.
  - unfold FileDestination.rotate_and_reopen.
    cbn [FileDestination.mFile FileDestination.mRotationStrategy QsLogging.rotate
         QsLogging.recommendedOpenModeFlag QsLogging.setInitialInfo].
    destruct (size_rotate_creates s1 w) as [He1 _];
      [simpl; by rewrite Hname, Hcount | simpl; lia |].
    pose proof (size_rotate_frame s1 w q) as Hf1.
    set (w1 := rotate s1 w) in *.
    set (mode := Z.lor (Z.lor WriteOnly Text) _).
    pose proof (QFile_open_env mode (QFile_close (FileDestination.mFile d)) w1) as He2.
    pose proof (QFile_open_name mode (QFile_close (FileDestination.mFile d)) w1) as Hn2.
    pose proof (QFile_open_other mode (QFile_close (FileDestination.mFile d)) w1 q) as Hf2.
    destruct (QFile_open mode _ w1) as [[opened f2] w2]. simpl in He2, Hn2, Hf2.
    set (w3 := if opened then w2 else _).
    assert (He3 : env w3 = env w)
      by (unfold w3; destruct opened; rewrite ?report_env; congruence).
    assert (Hf3 : files w3 = files w2) by (unfold w3; by destruct opened).
    simpl. rewrite stream_write_other.
    + rewrite Hf3, Hf2, Hf1; try done.
      * simpl. by rewrite Hname, Hcount.
      * simpl. lia.
      * simpl. by rewrite Hname.
      * simpl. rewrite Hname, Hcount. done.
      * rewrite (absoluteFilePath_env w w1 _ He1), Hfile. done.
    + rewrite (absoluteFilePath_env w w3 _ He3), Hn2, Hfile. done.
  - simpl. apply stream_write_other. by rewrite Hfile.
Qed.

(** X1.  A file destination with a size strategy for log file [path] and
    [n] backups changes no file other than [path] and [path.1] to
    [path.n], however many messages are written and whether or not the
    steps of its rotations succeed. *)
Theorem size_destination_touches_only_its_files (path : string) (n : Z)
    (messages : list string) (d : FileDestination.t) (w : World) (q : string) :
  (n ≠ 0 → no_marker path = true) → 0 ≤ n →
  size_destination d path n →
  q ≠ absoluteFilePath w path →
  (∀ j, 1 ≤ j ≤ n → q ≠ backup (absoluteFilePath w path) j) →
  files (snd (FileDestination.write_all messages d w)) !! q = files w !! q.
Proof.
  intros Hplain Hn. unfold FileDestination.write_all.
  revert d w. induction messages as [|m ms IH]; intros d w Hd HqP Hq; [done|].
  cbn [foldl].
  destruct (write_creates path n m d w Hplain Hn Hd) as (Hd' & He' & _).
  pose proof (write_frame path n m d w q Hplain Hn Hd HqP Hq) as Hf.
  destruct (FileDestination.write m d w) as [d' w'] eqn:Ew. simpl in *.
  rewrite <- Hf. apply IH; [done| |].
  - by rewrite (absoluteFilePath_env w w' path He').
  - intros j Hj. rewrite (absoluteFilePath_env w w' path He'). by apply Hq.
Qed.

End WritePath.

Section RotatingWrite.

Import SizeRotationStrategy.

Lemma shift_up_env (s : SizeRotationStrategy.t) (k : nat) (w : World) :
  env (shift_up s k w) = env w.
Proof.
  revert w. induction k as [|k IH]; intros w; [done|].
  cbn [shift_up].
  set (w1 := snd (QFile_remove _ w)).
  assert (He1 : env w1 = env w) by apply QFile_remove_env.
  pose proof (QFile_rename_env (backupName s w (Z.of_nat (S k)))
                (backupName s w (Z.of_nat (S k) + 1)) w1) as He2.
  destruct (QFile_rename _ _ w1) as [renamed w2]. simpl in He2.
  rewrite IH. destruct renamed; rewrite ?report_env; congruence.
Qed.

(** [rotate] never changes the environment. *)
Lemma size_rotate_env (s : SizeRotationStrategy.t) (w : World) :
  env (rotate s w) = env w.
Proof.
  unfold rotate. destruct (mBackupsCount s =? 0).
  - pose proof (QFile_remove_env (mFileName s) w) as He.
    destruct (QFile_remove (mFileName s) w) as [removed w1]. simpl in He.
    destruct removed; rewrite ?report_env; congruence.
  - set (w2 := shift_up s _ w).
    assert (He2 : env w2 = env w) by apply shift_up_env.
    set (w3 := if QFile_exists _ w2 then _ else w2).
    assert (He3 : env w3 = env w).
    { unfold w3. case_match; [|done]. by rewrite QFile_remove_env. }
    pose proof (QFile_rename_env (mFileName s) (backupName s w 1) w3) as He4.
    destruct (QFile_rename _ _ w3) as [renamed w4]. simpl in He4.
    destruct renamed; rewrite ?report_env; congruence.
Qed.

(** A [write] that rotates, on a log file the process may open: whatever
    the rotation achieved, the file is reopened in append mode, the
    counter restarts at the size found there, and the message follows
    what is there. *)
Lemma write_rotating (message : string) (d : FileDestination.t) (w : World)
    (s : SizeRotationStrategy.t) :
  FileDestination.mRotationStrategy d = SizeRS s →
  fileName (FileDestination.mFile d) = mFileName s →
  mFileName s ≠ "" →
  absoluteFilePath w (mFileName s) ∉ denied w →
  shouldRotate (includeMessageInCalculation message s) = true →
  let wr := rotate (includeMessageInCalculation message s) w in
  let P := absoluteFilePath w (mFileName s) in
  fst (FileDestination.write message d w)
  = FileDestination.mk (mkQFile (mFileName s) true) (SizeRS (with_size (size_at wr P) s))
  ∧ files (snd (FileDestination.write message d w))
    = <[P := mkFile (default "" (content_at wr P) +:+ message +:+ endl) (now w)]> (files wr)
  ∧ env (snd (FileDestination.write message d w)) = env w
  ∧ cerr (snd (FileDestination.write message d w)) = cerr wr
  ∧ fscalls (snd (FileDestination.write message d w))
    = (fscalls wr ++ [CallOpen P (Z.lor (Z.lor WriteOnly Text) Append)])%list.
Proof.
  intros Hs Hfile Hname Hden Hrot wr P.
  unfold FileDestination.write. rewrite (prepare_size message d w s Hs). cbv zeta.
  rewrite Hrot. unfold FileDestination.rotate_and_reopen.
  cbn [FileDestination.mFile FileDestination.mRotationStrategy QsLogging.rotate
       QsLogging.recommendedOpenModeFlag QsLogging.setInitialInfo].
  fold wr.
  pose proof (size_rotate_env (includeMessageInCalculation message s) w) as He1.
  fold wr in He1.
  destruct (env_fields _ _ He1) as (Hd1 & _ & Hn1 & _).
  set (f := QFile_close (FileDestination.mFile d)).
  assert (Hf : fileName f = mFileName s) by (unfold f; simpl; done).
  assert (HPr : absoluteFilePath wr (fileName f) = P).
  { rewrite Hf. apply (absoluteFilePath_env w wr _ He1). }
  rewrite (QFile_open_ok _ f wr) by (rewrite ?HPr, ?Hf, ?Hd1; done).
  rewrite HPr, Hf.
  cbn [fst snd FileDestination.mFile]. unfold recommendedOpenModeFlag.
  set (mode := Z.lor (Z.lor WriteOnly Text) Append).
  set (fd := match files wr !! P with
             | Some d0 => if has_flag (processOpenModeFlags mode) Truncate
                          then mkFile "" (now wr) else d0
             | None => mkFile "" (now wr)
             end).
  assert (Hfd : content fd = default "" (content_at wr P)).
  { unfold fd, content_at. by destruct (files wr !! P). }
  set (w2 := with_files _ _).
  assert (He2 : env w2 = env w) by (rewrite <- He1; reflexivity).
  assert (HP2 : absoluteFilePath w2 (mFileName s) = P)
    by apply (absoluteFilePath_env w w2 _ He2).
  assert (Hl2 : files w2 !! P = Some fd).
  { unfold w2. cbn [files with_files]. apply lookup_insert_eq. }
  rewrite (stream_write_open _ (mkQFile (mFileName s) true) w2 fd eq_refl)
    by (cbn [fileName]; by rewrite HP2).
  cbn [fileName]. rewrite HP2.
  assert (Hsize : QFile_size (mkQFile (mFileName s) true) w2 = size_at wr P).
  { unfold QFile_size, size_at. cbn [fileName]. rewrite HP2, Hl2.
    unfold fd. by destruct (files wr !! P). }
  split; [|split; [|split; [|split]]].
  - unfold setInitialInfo. rewrite Hsize. reflexivity.
  - cbn [files with_files]. unfold w2 at 2. cbn [files with_files].
    rewrite insert_insert_eq. rewrite Hfd.
    change (now w2) with (now wr). by rewrite Hn1.
  - exact He2.
  - reflexivity.
  - reflexivity.
Qed.

(** One [write] keeps a valid destination valid. *)
Lemma write_keeps_open (path : string) (n : Z) (message : string)
    (d : FileDestination.t) (w : World) :
  size_destination d path n → open_on d w →
  size_destination (fst (FileDestination.write message d w)) path n
  ∧ open_on (fst (FileDestination.write message d w))
            (snd (FileDestination.write message d w))
  ∧ env (snd (FileDestination.write message d w)) = env w.
Proof.
  intros (s & Hs & Hname & Hcount & Hfile) (Hopen & Hne & Hden & [fd Hfd]).
  destruct (shouldRotate (includeMessageInCalculation message s)) eqn:Hrot.
  - destruct (write_rotating message d w s Hs) as (Hd' & Hf' & He' & _);
      [congruence | congruence | by rewrite Hname, <- Hfile | done |].
    rewrite Hd'. split; [|split; [|done]].
    + eexists. split; [reflexivity|]. by repeat split.
    + unfold open_on. cbn [FileDestination.mFile isOpen fileName].
      rewrite (absoluteFilePath_env _ _ _ He').
      destruct (env_fields _ _ He') as (-> & _).
      rewrite Hname, <- Hfile. repeat split; try done.
      rewrite Hf', Hname, <- Hfile, lookup_insert_eq. by eexists.
  - rewrite (write_without_rotation message d w s fd Hs Hopen Hfd).
    2:{ unfold shouldRotate in Hrot. simpl in Hrot. apply Z.ltb_ge in Hrot. lia. }
    cbn [fst snd]. split; [|split; [|done]].
    + eexists. split; [reflexivity|]. by repeat split.
    + unfold open_on. cbn [FileDestination.mFile files with_files denied].
      change (absoluteFilePath (with_files _ w) (fileName (FileDestination.mFile d)))
        with (absoluteFilePath w (fileName (FileDestination.mFile d))).
      repeat split; try done. rewrite lookup_insert_eq. by eexists.
Qed.

(** X2.  A file destination with a size strategy that is valid (its file
    open on a writable path) stays valid over any sequence of writes, with
    or without rotations: the file is open and exists after each of them,
    and the strategy keeps its file name and backup count. *)
Theorem size_destination_stays_valid (path : string) (n : Z) (messages : list string)
    (d : FileDestination.t) (w : World) :
  size_destination d path n → open_on d w →
  FileDestination.isValid (fst (FileDestination.write_all messages d w)) = true
  ∧ open_on (fst (FileDestination.write_all messages d w))
            (snd (FileDestination.write_all messages d w))
  ∧ size_destination (fst (FileDestination.write_all messages d w)) path n.
Proof.
  unfold FileDestination.write_all.
  revert d w. induction messages as [|m ms IH]; intros d w Hd Ho.
  { simpl. split; [|done]. by destruct Ho. }
  cbn [foldl]. destruct (write_keeps_open path n m d w Hd Ho) as (Hd' & Ho' & _).
  destruct (FileDestination.write m d w) as [d' w']. by apply IH.
Qed.

End RotatingWrite.

(* ===================================================================== *)
(** ** The running size after the constructor and after a rotation *)
(* ===================================================================== *)

Section Baseline.

Import SizeRotationStrategy.

(** The part of [write] before the message is streamed out, when the
    message triggers a rotation: whatever the rotation and the reopening
    achieve, the strategy is left with the size of what is then stored
    at the path of the log file. *)
Lemma prepare_rotating_size (message : string) (d : FileDestination.t) (w : World)
    (s : SizeRotationStrategy.t) :
  FileDestination.mRotationStrategy d = SizeRS s →
  fileName (FileDestination.mFile d) = mFileName s →
  mMaxSizeInBytes s < mCurrentSizeInBytes s + Z.of_nat (String.length message) →
  fst (fst (FileDestination.prepare message d w)) = true
  ∧ FileDestination.mRotationStrategy (snd (fst (FileDestination.prepare message d w)))
    = SizeRS (with_size (size_at (snd (FileDestination.prepare message d w))
                                 (absoluteFilePath w (mFileName s))) s).
Proof.
  intros Hs Hfile Hsize.
  rewrite (prepare_size message d w s Hs). cbv zeta.
  assert (Hrot : shouldRotate (includeMessageInCalculation message s) = true).
  { unfold shouldRotate. cbn. apply Z.ltb_lt. lia. }
  rewrite Hrot. unfold FileDestination.rotate_and_reopen.
  cbn [FileDestination.mFile FileDestination.mRotationStrategy QsLogging.rotate
       QsLogging.recommendedOpenModeFlag QsLogging.setInitialInfo].
  pose proof (size_rotate_env (includeMessageInCalculation message s) w) as He1.
  set (wr := rotate (includeMessageInCalculation message s) w) in *.
  set (mode := Z.lor (Z.lor WriteOnly Text) _).
  pose proof (QFile_open_env mode (QFile_close (FileDestination.mFile d)) wr) as He2.
  pose proof (QFile_open_name mode (QFile_close (FileDestination.mFile d)) wr) as Hn2.
  destruct (QFile_open mode _ wr) as [[opened f2] w2]. cbn [fst snd] in He2, Hn2.
  cbn [QFile_close fileName] in Hn2.
  set (w3 := if opened then w2 else _).
  assert (He3 : env w3 = env w)
    by (unfold w3; destruct opened; rewrite ?report_env; congruence).
  cbn [fst snd FileDestination.mRotationStrategy]. split; [reflexivity|].
  unfold setInitialInfo, with_size, QFile_size, size_at.
  cbn [includeMessageInCalculation mMaxSizeInBytes mBackupsCount].
  rewrite (absoluteFilePath_env w w3 _ He3), Hn2, Hfile. reflexivity.
Qed.

(** The same, when the log file may be reopened: the file is open again,
    in append mode, on what the rotation left at its path. *)
Lemma prepare_rotating_reopened (message : string) (d : FileDestination.t) (w : World)
    (s : SizeRotationStrategy.t) :
  FileDestination.mRotationStrategy d = SizeRS s →
  fileName (FileDestination.mFile d) = mFileName s →
  mMaxSizeInBytes s < mCurrentSizeInBytes s + Z.of_nat (String.length message) →
  mFileName s ≠ "" →
  absoluteFilePath w (mFileName s) ∉ denied w →
  FileDestination.isValid (snd (fst (FileDestination.prepare message d w))) = true
  ∧ fscalls (snd (FileDestination.prepare message d w))
    = (fscalls (rotate (includeMessageInCalculation message s) w)
       ++ [CallOpen (absoluteFilePath w (mFileName s))
                    (Z.lor (Z.lor WriteOnly Text) Append)])%list
  ∧ size_at (snd (FileDestination.prepare message d w)) (absoluteFilePath w (mFileName s))
    = size_at (rotate (includeMessageInCalculation message s) w)
              (absoluteFilePath w (mFileName s)).
Proof.
  intros Hs Hfile Hsize Hname Hden.
  rewrite (prepare_size message d w s Hs). cbv zeta.
  assert (Hrot : shouldRotate (includeMessageInCalculation message s) = true).
  { unfold shouldRotate. cbn. apply Z.ltb_lt. lia. }
  rewrite Hrot. unfold FileDestination.rotate_and_reopen.
  cbn [FileDestination.mFile FileDestination.mRotationStrategy QsLogging.rotate
       QsLogging.recommendedOpenModeFlag QsLogging.setInitialInfo].
  pose proof (size_rotate_env (includeMessageInCalculation message s) w) as He1.
  set (wr := rotate (includeMessageInCalculation message s) w) in *.
  destruct (env_fields _ _ He1) as (Hd1 & _).
  set (f := QFile_close (FileDestination.mFile d)).
  assert (Hf : fileName f = mFileName s) by (unfold f; simpl; done).
  assert (HPr : absoluteFilePath wr (fileName f) = absoluteFilePath w (mFileName s)).
  { rewrite Hf. apply (absoluteFilePath_env w wr _ He1). }
  rewrite (QFile_open_ok _ f wr) by (rewrite ?HPr, ?Hf, ?Hd1; done).
  rewrite HPr, Hf. unfold recommendedOpenModeFlag.
  cbn [fst snd FileDestination.mFile FileDestination.isValid isOpen fscalls with_files
       record_call].
  split; [reflexivity|]. split; [reflexivity|].
  unfold size_at. cbn [files with_files]. rewrite lookup_insert_eq.
  change (has_flag (processOpenModeFlags (Z.lor (Z.lor WriteOnly Text) Append)) Truncate)
    with false.
  by destruct (files wr !! absoluteFilePath w (mFileName s)).
Qed.

(** C8.  Size strategy.  When the constructor returns, on a path that may
    be opened, the running size is the size of the log file, which is the
    size the file had (it is opened in append mode; 0 for a new file).
    In [write], a message that brings the running size over the limit
    makes the destination rotate, reopen the file and call
    [setInitialInfo] again: before the message is streamed out the
    running size is the size of what is then stored at the path of the
    log file, and streaming the message does not change it.  When the
    file may be reopened, that is the size of what the rotation left at
    the path - 0 when the rotation moved or removed the log file. *)
Theorem size_baseline_is_file_size (s : SizeRotationStrategy.t) (path message : string)
    (d : FileDestination.t) (w : World) :
  (path ≠ "" → absoluteFilePath w path ∉ denied w →
   FileDestination.isValid (fst (FileDestination.make path (SizeRS s) w)) = true
   ∧ FileDestination.mRotationStrategy (fst (FileDestination.make path (SizeRS s) w))
     = SizeRS {| mFileName := path;
                 mCurrentSizeInBytes := size_at w (absoluteFilePath w path);
                 mMaxSizeInBytes := mMaxSizeInBytes s;
                 mBackupsCount := mBackupsCount s |}
   ∧ size_at (snd (FileDestination.make path (SizeRS s) w)) (absoluteFilePath w path)
     = size_at w (absoluteFilePath w path))
  ∧ (FileDestination.mRotationStrategy d = SizeRS s →
     fileName (FileDestination.mFile d) = mFileName s →
     mMaxSizeInBytes s < mCurrentSizeInBytes s + Z.of_nat (String.length message) →
     fst (fst (FileDestination.prepare message d w)) = true
     ∧ FileDestination.mRotationStrategy (snd (fst (FileDestination.prepare message d w)))
       = SizeRS (with_size (size_at (snd (FileDestination.prepare message d w))
                                    (absoluteFilePath w (mFileName s))) s)
     ∧ FileDestination.mRotationStrategy (fst (FileDestination.write message d w))
       = FileDestination.mRotationStrategy (snd (fst (FileDestination.prepare message d w)))
     ∧ (mFileName s ≠ "" → absoluteFilePath w (mFileName s) ∉ denied w →
        FileDestination.isValid (snd (fst (FileDestination.prepare message d w))) = true
        ∧ fscalls (snd (FileDestination.prepare message d w))
          = (fscalls (rotate (includeMessageInCalculation message s) w)
             ++ [CallOpen (absoluteFilePath w (mFileName s))
                          (Z.lor (Z.lor WriteOnly Text) Append)])%list
        ∧ size_at (snd (FileDestination.prepare message d w))
                  (absoluteFilePath w (mFileName s))
          = size_at (rotate (includeMessageInCalculation message s) w)
                    (absoluteFilePath w (mFileName s))
        ∧ (files (rotate (includeMessageInCalculation message s) w)
             !! absoluteFilePath w (mFileName s) = None →
           FileDestination.mRotationStrategy
             (snd (fst (FileDestination.prepare message d w)))
           = SizeRS (with_size 0 s)))).
Proof.
  split.
  - intros Hname Hden. unfold FileDestination.make.
    rewrite (mkdir_if_missing_available path w Hname Hden).
    cbn [QsLogging.recommendedOpenModeFlag QsLogging.setInitialInfo].
    rewrite (QFile_open_ok _ (setFileName path (mkQFile "" false)) w) by done.
    cbn [fst snd FileDestination.isValid FileDestination.mFile
         FileDestination.mRotationStrategy isOpen fileName setFileName].
    unfold recommendedOpenModeFlag.
    change (has_flag (processOpenModeFlags (Z.lor (Z.lor WriteOnly Text) Append)) Truncate)
      with false.
    set (w1 := with_files _ _).
    assert (HP1 : absoluteFilePath w1 path = absoluteFilePath w path) by reflexivity.
    assert (Hsz : size_at w1 (absoluteFilePath w path) = size_at w (absoluteFilePath w path)).
    { unfold size_at, w1. cbn [files with_files]. rewrite lookup_insert_eq.
      by destruct (files w !! absoluteFilePath w path). }
    split; [reflexivity|]. split; [|exact Hsz].
    unfold setInitialInfo, QFile_size. cbn [fileName]. rewrite HP1.
    fold (size_at w1 (absoluteFilePath w path)). by rewrite Hsz.
  - intros Hs Hfile Hsize.
    destruct (prepare_rotating_size message d w s Hs Hfile Hsize) as [Hflag Hstrat].
    split; [exact Hflag|]. split; [exact Hstrat|]. split.
    { unfold FileDestination.write.
      by destruct (FileDestination.prepare message d w) as [[b d'] w']. }
    intros Hname Hden.
    destruct (prepare_rotating_reopened message d w s Hs Hfile Hsize Hname Hden)
      as (Hv & Hcalls & Hsz).
    split; [exact Hv|]. split; [exact Hcalls|]. split; [exact Hsz|].
    intros Hgone. rewrite Hstrat, Hsz. unfold size_at. by rewrite Hgone.
Qed.

(** The running size on the example: the constructor finds the 3 bytes
    of [/log/a.txt]; a message of 3 bytes under a limit of 5 rotates the
    file away, and the running size is 0 before the message is
    written. *)
Lemma size_baseline_is_file_size_example :
  let w := world_of example_files "/" in
  let s := SizeRotationStrategy.mk "/log/a.txt" 3 5 2 in
  let d := FileDestination.mk (mkQFile "/log/a.txt" true) (SizeRS s) in
  FileDestination.mRotationStrategy (fst (FileDestination.make "/log/a.txt" (SizeRS s) w))
  = SizeRS (SizeRotationStrategy.mk "/log/a.txt" 3 5 2)
  ∧ fst (fst (FileDestination.prepare "xyz" d w)) = true
  ∧ FileDestination.mRotationStrategy (snd (fst (FileDestination.prepare "xyz" d w)))
    = SizeRS (SizeRotationStrategy.mk "/log/a.txt" 0 5 2).
Proof.
  intros w s d.
  destruct (size_baseline_is_file_size s "/log/a.txt" "xyz" d w) as [Hmake Hwrite].
  destruct Hmake as (_ & Hm & _); [discriminate | apply not_denied_empty |].
  destruct Hwrite as (Hflag & _ & _ & Hre); [reflexivity | reflexivity | vm_compute; reflexivity |].
  destruct Hre as (_ & _ & _ & Hzero); [discriminate | apply not_denied_empty |].
  split; [exact Hm|]. split; [exact Hflag|].
  apply Hzero. vm_compute. reflexivity.
Defined.

End Baseline.

Section WritePathInstances.

Import SizeRotationStrategy.

(** An unrelated file next to the example log: three writes, two of which
    rotate, leave it as it was. *)
Lemma size_destination_touches_only_its_files_example :
  let w := world_of (<["/log/b.txt" := mkFile "other" (mkDateTime 2460370 0)]> example_files) "/" in
  let d := FileDestination.mk (mkQFile "/log/a.txt" true)
             (SizeRS (SizeRotationStrategy.mk "/log/a.txt" 3 5 2)) in
  files (snd (FileDestination.write_all ["abc"; "defgh"; "i"] d w)) !! "/log/b.txt"
  = Some (mkFile "other" (mkDateTime 2460370 0)).
Proof.
  intros w d.
  etrans; [apply (size_destination_touches_only_its_files "/log/a.txt" 2)|reflexivity].
  - reflexivity.
  - lia.
  - eexists. repeat split.
  - vm_compute. discriminate.
  - intros j _. vm_compute. discriminate.
Defined.

(** The example destination over three writes, two of which rotate. *)
Lemma size_destination_stays_valid_example :
  let w := world_of example_files "/" in
  let d := FileDestination.mk (mkQFile "/log/a.txt" true)
             (SizeRS (SizeRotationStrategy.mk "/log/a.txt" 3 5 2)) in
  FileDestination.isValid (fst (FileDestination.write_all ["abc"; "defgh"; "i"] d w)) = true.
Proof.
  intros w d.
  apply (size_destination_stays_valid "/log/a.txt" 2 ["abc"; "defgh"; "i"] d w).
  - eexists. repeat split.
  - repeat split.
    + discriminate.
    + apply not_denied_empty.
    + by eexists.
Defined.

End WritePathInstances.

(* ===================================================================== *)
(** ** The null strategy *)
(* ===================================================================== *)

Section NullStrategy.

(** With the null strategy [write] only streams the message out. *)
Lemma write_null (message : string) (d : FileDestination.t) (w : World) :
  FileDestination.mRotationStrategy d = NullRS →
  FileDestination.write message d w
  = (d, stream_write (message +:+ endl) (FileDestination.mFile d) w).
Proof. destruct d as [f r]. simpl. intros ->. reflexivity. Qed.

Lemma write_all_null (messages : list string) (d : FileDestination.t) (w : World)
    (fd : FileData) :
  FileDestination.mRotationStrategy d = NullRS →
  isOpen (FileDestination.mFile d) = true →
  files w !! absoluteFilePath w (fileName (FileDestination.mFile d)) = Some fd →
  fst (FileDestination.write_all messages d w) = d
  ∧ files (snd (FileDestination.write_all messages d w))
    = <[absoluteFilePath w (fileName (FileDestination.mFile d))
        := mkFile (content fd +:+ lines messages)
                  (match messages with [] => lastModified fd | _ => now w end)]> (files w)
  ∧ fscalls (snd (FileDestination.write_all messages d w)) = fscalls w
  ∧ cerr (snd (FileDestination.write_all messages d w)) = cerr w
  ∧ env (snd (FileDestination.write_all messages d w)) = env w.
Proof.
  unfold FileDestination.write_all.
  revert w fd. induction messages as [|m ms IH]; intros w fd Hs Hopen Hfd.
  { cbn [foldl fst snd lines foldr]. rewrite append_nil_r.
    repeat split; try done. rewrite insert_id; [done|]. by destruct fd. }
  cbn [foldl]. rewrite (write_null m d w Hs).
  rewrite (stream_write_open _ _ w fd Hopen Hfd).
  set (p := absoluteFilePath w (fileName (FileDestination.mFile d))).
  set (w1 := with_files _ w).
  destruct (IH w1 (mkFile (content fd +:+ m +:+ endl) (now w)) Hs Hopen)
    as (Hd & Hf & Hc & Hr & He).
  { unfold w1. cbn. apply lookup_insert_eq. }
  change (absoluteFilePath w1 (fileName (FileDestination.mFile d))) with p in *.
  repeat split; try done.
  rewrite Hf. unfold w1. cbn [files with_files content lastModified now lines foldr].
  rewrite insert_insert_eq, !append_assoc. by destruct ms.
Qed.

(** X3.  A file destination with the null strategy, on a path the process
    may open (not protected, in a directory that exists): the constructor
    creates no directory and opens the file with [Truncate], so what the
    file held is gone; every message written afterwards is appended with
    its line terminator and nothing is ever rotated - the one [QFile]
    call is the constructor's [open], nothing is reported, and no other
    file changes. *)
Theorem null_destination_overwrites (path : string) (messages : list string) (w : World) :
  path ≠ "" →
  absoluteFilePath w path ∉ denied w →
  let made := FileDestination.make path NullRS w in
  let wrote := FileDestination.write_all messages (fst made) (snd made) in
  FileDestination.isValid (fst made) = true
  ∧ content_at (snd made) (absoluteFilePath w path) = Some ""
  ∧ FileDestination.isValid (fst wrote) = true
  ∧ content_at (snd wrote) (absoluteFilePath w path) = Some (lines messages)
  ∧ fscalls (snd wrote)
    = (fscalls w
       ++ [CallOpen (absoluteFilePath w path) (Z.lor (Z.lor WriteOnly Text) Truncate)])%list
  ∧ cerr (snd wrote) = cerr w
  ∧ denied (snd wrote) = denied w
  ∧ (∀ q, q ≠ absoluteFilePath w path → files (snd wrote) !! q = files w !! q).
Proof.
  intros Hname Hden made wrote.
  assert (Hmade : made
    = (FileDestination.mk (mkQFile path true) NullRS,
       with_files (<[absoluteFilePath w path := mkFile "" (now w)]> (files w))
         (record_call (CallOpen (absoluteFilePath w path)
                                (Z.lor (Z.lor WriteOnly Text) Truncate)) w))).
  { unfold made, FileDestination.make.
    cbn [QsLogging.recommendedOpenModeFlag QsLogging.setInitialInfo].
    rewrite (mkdir_if_missing_available path w Hname Hden).
    rewrite (QFile_open_ok _ (setFileName path (mkQFile "" false)) w) by done.
    cbn [fileName setFileName]. f_equal. f_equal. f_equal.
    by destruct (files w !! absoluteFilePath w path). }
  set (P := absoluteFilePath w path) in *.
  set (w1 := with_files _ _) in Hmade.
  unfold wrote. rewrite Hmade. cbn [fst snd].
  destruct (write_all_null messages (FileDestination.mk (mkQFile path true) NullRS) w1
              (mkFile "" (now w)))
    as (Hd & Hf & Hc & Hr & He); [done|done| |].
  { unfold w1. cbn. apply lookup_insert_eq. }
  change (absoluteFilePath w1 (fileName (FileDestination.mFile
            (FileDestination.mk (mkQFile path true) NullRS)))) with P in Hf.
  split; [done|]. split.
  { unfold content_at, w1. cbn [files with_files]. by rewrite lookup_insert_eq. }
  rewrite Hd. split; [done|]. split.
  { unfold content_at. rewrite Hf, lookup_insert_eq. cbn. by rewrite append_nil_l. }
  split; [by rewrite Hc|]. split; [by rewrite Hr|].
  split; [by apply env_fields in He as (-> & _)|].
  intros q Hq. rewrite Hf, lookup_insert_ne by done.
  unfold w1. cbn [files with_files]. by rewrite lookup_insert_ne.
Qed.

(** A file that held text, opened by a null-strategy destination and
    written to twice. *)
Lemma null_destination_overwrites_example :
  let w := world_of example_files "/" in
  let made := FileDestination.make "/log/a.txt" NullRS w in
  content_at (snd (FileDestination.write_all ["a"; "b"] (fst made) (snd made))) "/log/a.txt"
  = Some (lines ["a"; "b"]).
Proof.
  intros w made.
  destruct (null_destination_overwrites "/log/a.txt" ["a"; "b"] w) as (_ & _ & _ & H & _).
  - discriminate.
  - apply not_denied_empty.
  - exact H.
Defined.

End NullStrategy.

(* ===================================================================== *)
(** ** When the file system refuses *)
(* ===================================================================== *)

Section FailureModes.

Import SizeRotationStrategy.

Lemma write_all_closed_null (messages : list string) (d : FileDestination.t) (w : World) :
  FileDestination.mRotationStrategy d = NullRS →
  isOpen (FileDestination.mFile d) = false →
  FileDestination.write_all messages d w = (d, w).
Proof.
  intros Hs Hc. unfold FileDestination.write_all.
  induction messages as [|m ms IH]; [done|].
  cbn [foldl]. by rewrite (write_null m d w Hs), stream_write_closed.
Qed.

(** X4.  When the constructor cannot open the file - it has no name, its
    path is protected, or its directory is missing and cannot be created
    ([mkdir] makes one level only, so it fails when the directory that is
    to hold it is missing too) - the destination is invalid, one line
    [QsLog: could not open log file <path>] goes to [cerr] and no file is
    created or changed; with the null strategy, messages written to such
    a destination are dropped without any further effect. *)
Theorem failed_open_leaves_invalid_destination (path : string) (r : RotationStrategy)
    (messages : list string) (w : World) :
  path = ""
  ∨ absoluteFilePath w path ∈ protected (denied w)
  ∨ (absolutePath w path ∈ missing (denied w) ∧ absolutePath w path ∈ denied w) →
  let made := FileDestination.make path r w in
  FileDestination.isValid (fst made) = false
  ∧ files (snd made) = files w
  ∧ cerr (snd made) = (cerr w ++ ["QsLog: could not open log file " +:+ path])%list
  ∧ (r = NullRS →
     FileDestination.write_all messages (fst made) (snd made) = made).
Proof.
  intros Hfail made. unfold made, FileDestination.make.
  destruct (mkdir_if_missing_fields path w) as (Hf0 & _ & _ & _ & Hc0 & _).
  pose proof (mkdir_if_missing_path path path w) as Hp0.
  assert (Hfail0 : path = ""
                   ∨ absoluteFilePath w path ∈ denied (mkdir_if_missing path w)).
  { destruct Hfail as [Hn|[Hp|[Hm Hd]]].
    - by left.
    - right. by apply mkdir_if_missing_protected.
    - right. rewrite (mkdir_if_missing_fails path w Hm Hd). by right. }
  set (w0 := mkdir_if_missing path w) in *.
  rewrite (QFile_open_fail _ (setFileName path (mkQFile "" false)) w0)
    by (cbn [fileName setFileName]; by rewrite Hp0).
  cbn [fst snd FileDestination.isValid FileDestination.mFile isOpen files cerr report
       record_call].
  rewrite Hf0, Hc0. repeat split; try done.
  intros ->. by apply write_all_closed_null.
Qed.

(** A protected path, and a path two missing directories deep, with the
    null strategy. *)
Lemma failed_open_leaves_invalid_destination_example :
  let w := mkWorld example_files {["/log/a.txt"]} "/" (mkDateTime 2460375 0) number [] [] in
  let w' := mkWorld ∅ (mkDenied ∅ {["/no"; "/no/such"]}) "/" (mkDateTime 2460375 0)
              number [] [] in
  let made := FileDestination.make "/log/a.txt" NullRS w in
  (FileDestination.isValid (fst made) = false
   ∧ files (snd made) = files w
   ∧ cerr (snd made) = ["QsLog: could not open log file /log/a.txt"]
   ∧ FileDestination.write_all ["a"; "b"] (fst made) (snd made) = made)
  ∧ FileDestination.isValid (fst (FileDestination.make "/no/such/a.txt" NullRS w')) = false
  ∧ files (snd (FileDestination.make "/no/such/a.txt" NullRS w')) = ∅.
Proof.
  intros w w' made. split.
  - destruct (failed_open_leaves_invalid_destination "/log/a.txt" NullRS ["a"; "b"] w)
      as (Hv & Hf & Hc & Hw).
    + right; left. vm_compute. reflexivity.
    + split; [exact Hv|]. split; [exact Hf|]. split; [exact Hc|]. by apply Hw.
  - destruct (failed_open_leaves_invalid_destination "/no/such/a.txt" NullRS [] w')
      as (Hv & Hf & _).
    + right; right. split; [vm_compute; reflexivity|].
      right. vm_compute. reflexivity.
    + split; [exact Hv | exact Hf].
Defined.

Lemma QFile_rename_denied (a b : string) (w : World) :
  absoluteFilePath w b ∈ denied w →
  QFile_rename a b w
  = (false, record_call (CallRename (absoluteFilePath w a) (absoluteFilePath w b)) w).
Proof.
  intros Hd. unfold QFile_rename. cbn [files denied record_call].
  repeat case_match; try done.
  exfalso. rewrite (bool_decide_eq_true_2 _ Hd), orb_true_r in *. done.
Qed.

(** [rotate] with backups when [.1] may not be written: the log file
    stays where it is and the failure is the last thing reported. *)
Lemma size_rotate_rename_denied (s : SizeRotationStrategy.t) (w : World) (fd : FileData) :
  files w !! absoluteFilePath w (mFileName s) = Some fd →
  mBackupsCount s ≠ 0 →
  no_marker (mFileName s) = true →
  backup (absoluteFilePath w (mFileName s)) 1 ∈ denied w →
  files (rotate s w) !! absoluteFilePath w (mFileName s) = Some fd
  ∧ last (cerr (rotate s w))
    = Some ("QsLog: could not rename log " +:+ mFileName s +:+ " to "
            +:+ mFileName s +:+ "." +:+ number 1).
Proof.
  intros Hfd E0 Hplain HB1.
  set (P := absoluteFilePath w (mFileName s)) in *.
  unfold rotate. rewrite (proj2 (Z.eqb_neq _ _) E0).
  set (k := Z.to_nat _).
  destruct (shift_up_creates s w Hplain k w eq_refl) as [He2 _].
  pose proof (shift_up_frame s w Hplain k w P eq_refl) as HP2.
  rewrite Hfd in HP2. specialize (HP2 (λ j E, backup_neq_self P j (eq_sym E))).
  set (w2 := shift_up s k w) in *.
  unfold QFile_exists. rewrite (backupName_path s w Hplain w2 w 1 He2). fold P.
  set (w3 := if bool_decide _ then _ else w2).
  assert (He3 : env w3 = env w).
  { unfold w3. case_bool_decide; [|done]. by rewrite QFile_remove_env. }
  assert (Hd3 : denied w3 = denied w) by (by apply env_fields in He3 as (? & _)).
  assert (HP3 : files w3 !! P = Some fd).
  { unfold w3. case_bool_decide as Hex; [|done].
    rewrite QFile_remove_files, (backupName_path s w Hplain w2 w 1 He2).
    fold P. rewrite fs_remove_other; [done|]. backup_neq. }
  rewrite (QFile_rename_denied (mFileName s) (backupName s w 1) w3).
  2:{ rewrite (backupName_path s w Hplain w3 w 1 He3), Hd3. exact HB1. }
  cbn [files report record_call cerr]. split; [exact HP3|].
  rewrite last_snoc. by rewrite (backupName_plain s Hplain w 1).
Qed.

(** X5.  Size strategy with backups, when the rotation cannot rename the
    log file because [<path>.1] may not be written: the write still goes
    through.  The failure is reported on [cerr], the file is reopened in
    append mode with all it held, the message follows the old content -
    so the file grows past the limit - and the running size restarts at
    the size of the old content. *)
Theorem rename_failure_keeps_log_growing (message : string) (d : FileDestination.t)
    (w : World) (s : SizeRotationStrategy.t) (fd : FileData) :
  FileDestination.mRotationStrategy d = SizeRS s →
  fileName (FileDestination.mFile d) = mFileName s →
  mFileName s ≠ "" →
  absoluteFilePath w (mFileName s) ∉ denied w →
  files w !! absoluteFilePath w (mFileName s) = Some fd →
  mBackupsCount s ≠ 0 →
  no_marker (mFileName s) = true →
  backup (absoluteFilePath w (mFileName s)) 1 ∈ denied w →
  mMaxSizeInBytes s < mCurrentSizeInBytes s + Z.of_nat (String.length message) →
  FileDestination.isValid (fst (FileDestination.write message d w)) = true
  ∧ content_at (snd (FileDestination.write message d w)) (absoluteFilePath w (mFileName s))
    = Some (content fd +:+ message +:+ endl)
  ∧ last (cerr (snd (FileDestination.write message d w)))
    = Some ("QsLog: could not rename log " +:+ mFileName s +:+ " to "
            +:+ mFileName s +:+ "." +:+ number 1)
  ∧ FileDestination.mRotationStrategy (fst (FileDestination.write message d w))
    = SizeRS (with_size (Z.of_nat (String.length (content fd))) s).
Proof.
  intros Hs Hfile Hname Hden Hfd E0 Hplain HB1 Hsize.
  destruct (write_rotating message d w s Hs Hfile Hname Hden) as (Hd' & Hf' & _ & Hc' & _).
  { unfold shouldRotate. cbn. apply Z.ltb_lt. lia. }
  destruct (size_rotate_rename_denied (includeMessageInCalculation message s) w fd)
    as [HP Hlast]; try done.
  cbn [includeMessageInCalculation mFileName] in HP, Hlast.
  rewrite Hd', Hc'. unfold content_at. rewrite Hf', lookup_insert_eq.
  unfold content_at, size_at. rewrite HP. cbn [fmap option_fmap option_map default content].
  repeat split; try done.
Qed.

(** The example log file with [.1] out of reach. *)
Lemma rename_failure_keeps_log_growing_example :
  let w := mkWorld example_files {[backup "/log/a.txt" 1]} "/" (mkDateTime 2460375 0)
             number [] [] in
  let s := SizeRotationStrategy.mk "/log/a.txt" 3 5 2 in
  let d := FileDestination.mk (mkQFile "/log/a.txt" true) (SizeRS s) in
  content_at (snd (FileDestination.write "xyz" d w)) "/log/a.txt"
  = Some ("new" +:+ "xyz" +:+ endl)
  ∧ last (cerr (snd (FileDestination.write "xyz" d w)))
    = Some "QsLog: could not rename log /log/a.txt to /log/a.txt.1".
Proof.
  intros w s d.
  destruct (rename_failure_keeps_log_growing "xyz" d w s (mkFile "new" (mkDateTime 2460375 0)))
    as (_ & Hc & Hl & _).
  - reflexivity.
  - reflexivity.
  - discriminate.
  - not_denied.
  - reflexivity.
  - discriminate.
  - reflexivity.
  - is_protected.
  - vm_compute. reflexivity.
  - split; [exact Hc | exact Hl].
Defined.

End FailureModes.

(* ===================================================================== *)
(** ** The running size *)
(* ===================================================================== *)

Section RunningSize.

Import SizeRotationStrategy.

Lemma length_lines (messages : list string) :
  Z.of_nat (String.length (lines messages))
  = total_size messages + Z.of_nat (List.length messages).
Proof.
  induction messages as [|m ms IH]; [done|].
  cbn [lines total_size foldr List.length]. fold (lines ms). fold (total_size ms).
  rewrite !length_append. cbn [endl String.length]. lia.
Qed.

(** The state after writes that stay within the limit. *)
Lemma write_all_within_limit_state (messages : list string) (d : FileDestination.t)
    (w : World) (s : SizeRotationStrategy.t) (fd : FileData) :
  FileDestination.mRotationStrategy d = SizeRS s →
  isOpen (FileDestination.mFile d) = true →
  files w !! absoluteFilePath w (fileName (FileDestination.mFile d)) = Some fd →
  mCurrentSizeInBytes s + total_size messages ≤ mMaxSizeInBytes s →
  FileDestination.mFile (fst (FileDestination.write_all messages d w)) = FileDestination.mFile d
  ∧ FileDestination.mRotationStrategy (fst (FileDestination.write_all messages d w))
    = SizeRS (with_size (mCurrentSizeInBytes s + total_size messages) s)
  ∧ env (snd (FileDestination.write_all messages d w)) = env w
  ∧ content_at (snd (FileDestination.write_all messages d w))
               (absoluteFilePath w (fileName (FileDestination.mFile d)))
    = Some (content fd +:+ lines messages).
Proof.
  unfold FileDestination.write_all.
  revert d w s fd. induction messages as [|m ms IH]; intros d w s fd Hs Hopen Hfd Hsize.
  { cbn [foldl fst snd total_size lines foldr]. rewrite Z.add_0_r, append_nil_r.
    unfold content_at. rewrite Hfd, Hs. repeat split. by destruct s. }
  assert (Hpos : 0 ≤ total_size ms).
  { clear. induction ms as [|x xs IHx]; simpl; lia. }
  simpl in Hsize.
  cbn [foldl]. rewrite (write_without_rotation m d w s fd) by (done || lia).
  set (p := absoluteFilePath w (fileName (FileDestination.mFile d))).
  set (d1 := FileDestination.mk _ _).
  set (w1 := with_files _ w).
  specialize (IH d1 w1 (includeMessageInCalculation m s)
                (mkFile (content fd +:+ m +:+ endl) (now w))).
  destruct IH as (Hf & Hr & He & Hcont); [done|done| | |].
  { unfold w1. cbn. apply lookup_insert_eq. }
  { cbn. lia. }
  change (absoluteFilePath w1 (fileName (FileDestination.mFile d1))) with p in *.
  repeat split; try done.
  - rewrite Hr. cbn [total_size foldr]. fold (total_size ms).
    unfold with_size. cbn [includeMessageInCalculation mFileName mCurrentSizeInBytes
                           mMaxSizeInBytes mBackupsCount].
    do 2 f_equal. lia.
  - rewrite Hcont. cbn [content lines foldr]. by rewrite !append_assoc.
Qed.

(** X6.  The running size counts the characters of the messages but not
    the line terminator written after each: over writes that stay within
    the limit, the running size grows by the size of the messages while
    the file grows by one byte more per message.  So the file can pass
    [mMaxSizeInBytes] without a rotation. *)
Theorem size_counter_ignores_line_ends (messages : list string) (d : FileDestination.t)
    (w : World) (s : SizeRotationStrategy.t) (fd : FileData) :
  FileDestination.mRotationStrategy d = SizeRS s →
  isOpen (FileDestination.mFile d) = true →
  files w !! absoluteFilePath w (fileName (FileDestination.mFile d)) = Some fd →
  mCurrentSizeInBytes s + total_size messages ≤ mMaxSizeInBytes s →
  FileDestination.mRotationStrategy (fst (FileDestination.write_all messages d w))
  = SizeRS (with_size (mCurrentSizeInBytes s + total_size messages) s)
  ∧ QFile_size (FileDestination.mFile (fst (FileDestination.write_all messages d w)))
               (snd (FileDestination.write_all messages d w))
    = QFile_size (FileDestination.mFile d) w
      + total_size messages + Z.of_nat (List.length messages).
Proof.
  intros Hs Hopen Hfd Hsize.
  destruct (write_all_within_limit_state messages d w s fd Hs Hopen Hfd Hsize)
    as (Hf & Hr & He & Hcont).
  split; [exact Hr|].
  unfold QFile_size. rewrite Hf, (absoluteFilePath_env _ _ _ He), Hfd.
  unfold content_at in Hcont.
  destruct (files (snd (FileDestination.write_all messages d w)) !! _) as [fd'|]; [|done].
  simpl in Hcont. injection Hcont as ->.
  rewrite length_append, Nat2Z.inj_add, length_lines. lia.
Qed.

(** The example log file of 3 bytes under a limit of 5: two messages of
    one byte bring the running size to 5 and the file to 7 bytes. *)
Lemma size_counter_ignores_line_ends_example :
  let w := world_of example_files "/" in
  let s := SizeRotationStrategy.mk "/log/a.txt" 3 5 2 in
  let d := FileDestination.mk (mkQFile "/log/a.txt" true) (SizeRS s) in
  FileDestination.mRotationStrategy (fst (FileDestination.write_all ["a"; "b"] d w))
  = SizeRS (SizeRotationStrategy.mk "/log/a.txt" 5 5 2)
  ∧ QFile_size (FileDestination.mFile (fst (FileDestination.write_all ["a"; "b"] d w)))
               (snd (FileDestination.write_all ["a"; "b"] d w)) = 7.
Proof.
  intros w s d.
  destruct (size_counter_ignores_line_ends ["a"; "b"] d w s
              (mkFile "new" (mkDateTime 2460375 0))) as [Hr Hq].
  - reflexivity.
  - reflexivity.
  - reflexivity.
  - vm_compute. discriminate.
  - split; [exact Hr | exact Hq].
Defined.

(** One write that rotates, without backups. *)
Lemma write_rotating_zero (message : string) (d : FileDestination.t) (w : World)
    (s : SizeRotationStrategy.t) :
  FileDestination.mRotationStrategy d = SizeRS s →
  fileName (FileDestination.mFile d) = mFileName s →
  mFileName s ≠ "" →
  absoluteFilePath w (mFileName s) ∉ denied w →
  mBackupsCount s = 0 →
  mMaxSizeInBytes s < mCurrentSizeInBytes s + Z.of_nat (String.length message) →
  fst (FileDestination.write message d w)
  = FileDestination.mk (mkQFile (mFileName s) true) (SizeRS (with_size 0 s))
  ∧ env (snd (FileDestination.write message d w)) = env w
  ∧ content_at (snd (FileDestination.write message d w)) (absoluteFilePath w (mFileName s))
    = Some (message +:+ endl).
Proof.
  intros Hs Hfile Hname Hden E0 Hsize.
  destruct (write_rotating message d w s Hs Hfile Hname Hden) as (Hd' & Hf' & He' & _).
  { unfold shouldRotate. cbn. apply Z.ltb_lt. lia. }
  destruct (size_rotate_zero (includeMessageInCalculation message s) w E0)
    as (_ & _ & Hf & _).
  cbn [includeMessageInCalculation mFileName] in Hf.
  assert (HP : files (rotate (includeMessageInCalculation message s) w)
               !! absoluteFilePath w (mFileName s) = None).
  { rewrite Hf, fs_remove_lookup by done. by rewrite decide_True. }
  rewrite Hd'. unfold content_at. rewrite Hf', lookup_insert_eq.
  unfold size_at, content_at. rewrite HP.
  cbn [fmap option_fmap option_map default content]. by rewrite append_nil_l.
Qed.

(** X7.  Size strategy without backups (as the constructor leaves it)
    and messages that are each longer than the limit (with the
    constructor's limit of 0: any message that is not empty): every write
    removes the log file before it writes, so after any number of writes
    the file holds the last message only, and the running size is back
    at 0. *)
Theorem no_backups_keeps_last_message_only (messages : list string) (last_message : string)
    (d : FileDestination.t) (w : World) (s : SizeRotationStrategy.t) :
  FileDestination.mRotationStrategy d = SizeRS s →
  fileName (FileDestination.mFile d) = mFileName s →
  mFileName s ≠ "" →
  absoluteFilePath w (mFileName s) ∉ denied w →
  mBackupsCount s = 0 →
  0 ≤ mCurrentSizeInBytes s →
  Forall (λ m, mMaxSizeInBytes s < Z.of_nat (String.length m)) messages →
  last messages = Some last_message →
  fst (FileDestination.write_all messages d w)
  = FileDestination.mk (mkQFile (mFileName s) true) (SizeRS (with_size 0 s))
  ∧ content_at (snd (FileDestination.write_all messages d w))
               (absoluteFilePath w (mFileName s))
    = Some (last_message +:+ endl).
Proof.
  unfold FileDestination.write_all.
  revert d w s. induction messages as [|m ms IH];
    intros d w s Hs Hfile Hname Hden E0 Hcur Hall Hlast; [done|].
  apply Forall_cons in Hall as [Hm Hall].
  cbn [foldl].
  destruct (write_rotating_zero m d w s Hs Hfile Hname Hden E0) as (Hd' & He' & Hc'); [lia|].
  destruct (FileDestination.write m d w) as [d1 w1]. cbn [fst snd] in Hd', He', Hc'.
  destruct ms as [|m1 ms'].
  { injection Hlast as <-. cbn [foldl fst snd]. done. }
  change (last (m :: m1 :: ms')) with (last (m1 :: ms')) in Hlast.
  specialize (IH d1 w1 (with_size 0 s)).
  cbn [with_size mFileName mCurrentSizeInBytes mMaxSizeInBytes mBackupsCount] in IH.
  rewrite (absoluteFilePath_env _ _ _ He') in IH.
  destruct (env_fields _ _ He') as (Hden' & _). rewrite Hden' in IH.
  apply IH; try done. all: by rewrite Hd'.
Qed.

(** A default-constructed strategy on the example log file. *)
Lemma no_backups_keeps_last_message_only_example :
  let w := world_of example_files "/" in
  let made := FileDestination.make "/log/a.txt" (SizeRS SizeRotationStrategy.make) w in
  content_at (snd (FileDestination.write_all ["one"; "two"; "three"] (fst made) (snd made)))
             "/log/a.txt"
  = Some ("three" +:+ endl).
Proof.
  intros w made.
  destruct (no_backups_keeps_last_message_only ["one"; "two"; "three"] "three"
              (fst made) (snd made) (SizeRotationStrategy.mk "/log/a.txt" 3 0 0))
    as [_ H].
  - reflexivity.
  - reflexivity.
  - discriminate.
  - not_denied.
  - reflexivity.
  - vm_compute. discriminate.
  - repeat constructor; vm_compute; reflexivity.
  - reflexivity.
  - exact H.
Defined.

End RunningSize.

Section SizeLimit.

Import SizeRotationStrategy.

(** X8.  [setMaximumSizeInBytes(size)] with [size >= 0] stores the limit
    unclamped and changes nothing else; from then on a message triggers a
    rotation exactly when the running size plus its length is greater
    than [size].  A negative [size] violates the [Q_ASSERT]: a debug
    build aborts; a build without assertions stores it, and then every
    message, even an empty one, triggers a rotation as long as the
    running size is not negative. *)
Theorem setMaximumSizeInBytes_sets_trigger (debug : bool) (size : Z)
    (s : SizeRotationStrategy.t) (message : string) :
  (0 ≤ size →
   setMaximumSizeInBytes debug size s
   = Ok {| mFileName := mFileName s;
           mCurrentSizeInBytes := mCurrentSizeInBytes s;
           mMaxSizeInBytes := size;
           mBackupsCount := mBackupsCount s |})
  ∧ (size < 0 → setMaximumSizeInBytes true size s = Aborted)
  ∧ ∀ s', setMaximumSizeInBytes debug size s = Ok s' →
          (shouldRotate (includeMessageInCalculation message s') = true
           ↔ size < mCurrentSizeInBytes s + Z.of_nat (String.length message))
          ∧ (size < 0 → 0 ≤ mCurrentSizeInBytes s →
             shouldRotate (includeMessageInCalculation message s') = true).
Proof.
  unfold setMaximumSizeInBytes, Q_ASSERT. split; [|split].
  - intros Hn. destruct (Z.leb_spec 0 size); [|lia]. by rewrite andb_false_r.
  - intros Hn. by destruct (Z.leb_spec 0 size); [lia|].
  - intros s' Hs'.
    assert (Hmax : mMaxSizeInBytes s' = size ∧ mCurrentSizeInBytes s' = mCurrentSizeInBytes s).
    { destruct (debug && negb (0 <=? size)); [done|]. by injection Hs' as <-. }
    destruct Hmax as [Hmax Hcur].
    unfold shouldRotate. cbn [includeMessageInCalculation mMaxSizeInBytes mCurrentSizeInBytes].
    rewrite Hmax, Hcur. split; [apply Z.ltb_lt|].
    intros Hn Hc. apply Z.ltb_lt. lia.
Qed.

End SizeLimit.

(* ===================================================================== *)
(** ** More on the daily deadline *)
(* ===================================================================== *)

Section DailyDeadlineMore.

Import DailyRotationStrategy.

(** X9.  The first deadline of the daily strategy.  [setInitialInfo]
    always sets it to the rotation time of the NEXT day - later than
    now and less than two days ahead - also when today's rotation time
    has not come yet; until that deadline [shouldRotate] answers false
    and changes nothing, so today's rotation time passes without a
    rotation. *)
Theorem daily_first_deadline_is_tomorrow (s : DailyRotationStrategy.t) (f : QFile)
    (w : World) :
  valid_instant (now w) →
  let s' := setInitialInfo f w s in
  rotation_tp_ s' = mkDateTime (date (now w) + 1) (rotation_time s)
  ∧ toMSecs (now w) < toMSecs (rotation_tp_ s') < toMSecs (now w) + 2 * MSECS_PER_DAY
  ∧ ∀ t, toMSecs t ≤ toMSecs (rotation_tp_ s') → shouldRotate s' (at_time t w) = (false, s').
Proof.
  intros Hnow s'.
  assert (Htp : rotation_tp_ s' = mkDateTime (date (now w) + 1) (rotation_time s))
    by reflexivity.
  split; [exact Htp|]. split.
  - rewrite Htp. pose proof (rotation_time_range s) as HT.
    unfold valid_instant in Hnow. unfold toMSecs. cbn [date time].
    unfold MSECS_PER_DAY in *. lia.
  - intros t Ht. by apply shouldRotate_not_due.
Qed.

(** Started on 2024-03-05 at 10:00 with the rotation time 23:00: at
    23:30 of the same day no rotation is due; the deadline is 23:00 of
    the 6th. *)
Lemma daily_first_deadline_is_tomorrow_example :
  let w := at_time (mkDateTime 2460375 36000000) (world_of ∅ "/") in
  let s := DailyRotationStrategy.mk "" 23 0 (mkDateTime 2440588 0) in
  let s' := setInitialInfo (mkQFile "/log/app.log" false) w s in
  rotation_tp_ s' = mkDateTime 2460376 82800000
  ∧ shouldRotate s' (at_time (mkDateTime 2460375 84600000) w) = (false, s').
Proof.
  intros w s s'.
  destruct (daily_first_deadline_is_tomorrow s (mkQFile "/log/app.log" false) w)
    as (Htp & _ & Hq).
  - vm_compute. split; [discriminate | reflexivity].
  - split; [exact Htp|]. apply Hq. vm_compute. discriminate.
Defined.

(** X10.  The rotation time of day.  With the hour in [0, 23] and the
    minute in [0, 59], [next_rotation_tp] is tomorrow at hour:minute:00.
    With either out of range no error is raised: the deadline is
    tomorrow at midnight. *)
Theorem invalid_rotation_time_means_midnight (h m : Z) (w : World) :
  (0 ≤ h < 24 ∧ 0 ≤ m < 60 →
   next_rotation_tp h m w = mkDateTime (date (now w) + 1) ((h * 3600 + m * 60) * 1000))
  ∧ (¬ (0 ≤ h < 24 ∧ 0 ≤ m < 60) →
     next_rotation_tp h m w = mkDateTime (date (now w) + 1) 0).
Proof.
  unfold next_rotation_tp, addDays, setTime, currentDateTime, setHMS. cbn [date time].
  split.
  - intros [[H1 H2] [H3 H4]].
    rewrite (proj2 (Z.leb_le _ _) H1), (proj2 (Z.ltb_lt _ _) H2),
            (proj2 (Z.leb_le _ _) H3), (proj2 (Z.ltb_lt _ _) H4).
    cbn [andb Z.leb Z.ltb Z.compare].
    assert (Hv : QTime_isValid ((h * 3600 + m * 60 + 0) * 1000) = true).
    { unfold QTime_isValid, MSECS_PER_DAY. apply andb_true_iff.
      split; [apply Z.leb_le | apply Z.ltb_lt]; lia. }
    rewrite Hv. f_equal. lia.
  - intros Hout.
    assert (Hc : (0 <=? h) && (h <? 24) && (0 <=? m) && (m <? 60) = false).
    { apply not_true_iff_false. intros Hc.
      apply andb_true_iff in Hc as [Hc H4]. apply andb_true_iff in Hc as [Hc H3].
      apply andb_true_iff in Hc as [H1 H2].
      apply Z.leb_le in H1, H3. apply Z.ltb_lt in H2, H4. lia. }
    rewrite Hc. reflexivity.
Qed.

(** 23:30 is kept; 24:00 and 12:60 both mean midnight. *)
Lemma invalid_rotation_time_means_midnight_example :
  let w := world_of ∅ "/" in
  next_rotation_tp 23 30 w = mkDateTime 2460376 84600000
  ∧ next_rotation_tp 24 0 w = mkDateTime 2460376 0
  ∧ next_rotation_tp 12 60 w = mkDateTime 2460376 0.
Proof.
  intros w. split; [|split].
  - apply (invalid_rotation_time_means_midnight 23 30 w). lia.
  - apply (invalid_rotation_time_means_midnight 24 0 w). lia.
  - apply (invalid_rotation_time_means_midnight 12 60 w). lia.
Defined.

(** X11.  [setRotation_hour] and [setRotation_minute] do not touch the
    pending deadline: whether a rotation is due stays as it was, and the
    new time of day is first used for the deadline that the next
    rotation sets. *)
Theorem setRotation_keeps_pending_deadline (h m : Z) (s : DailyRotationStrategy.t)
    (w : World) :
  let s' := setRotation_minute m (setRotation_hour h s) in
  rotation_tp_ s' = rotation_tp_ s
  ∧ fst (shouldRotate s' w) = fst (shouldRotate s w)
  ∧ (fst (shouldRotate s w) = true →
     rotation_tp_ (snd (shouldRotate s' w)) = next_rotation_tp h m w)
  ∧ (fst (shouldRotate s w) = false → snd (shouldRotate s' w) = s').
Proof.
  intros s'. unfold shouldRotate.
  change (rotation_tp_ s') with (rotation_tp_ s).
  split; [done|]. destruct (dt_gtb _ _); cbn [fst snd]; repeat split; try done.
Qed.

End DailyDeadlineMore.

Section DeadlineInstances.

Import SizeRotationStrategy.

(** A limit of 5, and a limit of -1 with and without assertions. *)
Lemma setMaximumSizeInBytes_sets_trigger_example :
  setMaximumSizeInBytes true 5 make
  = Ok {| mFileName := ""; mCurrentSizeInBytes := 0; mMaxSizeInBytes := 5;
          mBackupsCount := 0 |}
  ∧ setMaximumSizeInBytes true (-1) make = Aborted
  ∧ shouldRotate (includeMessageInCalculation ""
                    {| mFileName := ""; mCurrentSizeInBytes := 0; mMaxSizeInBytes := -1;
                       mBackupsCount := 0 |}) = true.
Proof.
  split; [|split].
  - apply (setMaximumSizeInBytes_sets_trigger true 5 make ""). lia.
  - apply (setMaximumSizeInBytes_sets_trigger true (-1) make ""). lia.
  - apply (setMaximumSizeInBytes_sets_trigger false (-1) make "").
    + reflexivity.
    + lia.
    + simpl. lia.
Defined.

(** A strategy rotating at midnight, deadline passed, switched to 06:30:
    the rotation is still due, and the next deadline is at 06:30. *)
Lemma setRotation_keeps_pending_deadline_example :
  let w := at_time (mkDateTime 2460376 1000) (world_of ∅ "/") in
  let s := DailyRotationStrategy.mk "app.log" 0 0 (mkDateTime 2460376 0) in
  let s' := DailyRotationStrategy.setRotation_minute 30
              (DailyRotationStrategy.setRotation_hour 6 s) in
  fst (DailyRotationStrategy.shouldRotate s' w) = true
  ∧ DailyRotationStrategy.rotation_tp_ (snd (DailyRotationStrategy.shouldRotate s' w))
    = mkDateTime 2460377 23400000.
Proof.
  intros w s s'.
  destruct (setRotation_keeps_pending_deadline 6 30 s w) as (_ & Hb & Hd & _).
  split.
  - etrans; [exact Hb | reflexivity].
  - etrans; [apply Hd; reflexivity | reflexivity].
Defined.

End DeadlineInstances.

(* ===================================================================== *)
(** ** The constructors *)
(* ===================================================================== *)

Section Constructors.

(** X12.  [DailyFileDestination] opens the name the strategy's
    [getFileName] returns, and the null and size strategies return the
    empty name: constructed with either, the destination is invalid, one
    line [QsLog: could not open log file <path>] goes to [cerr] and no
    file is created or changed. *)
Theorem daily_destination_needs_daily_strategy (path : string) (r : RotationStrategy)
    (w : World) :
  (∀ s, r ≠ DailyRS s) →
  let made := DailyFileDestination.make path r w in
  DailyFileDestination.isValid (fst made) = false
  ∧ fileName (DailyFileDestination.mFile (fst made)) = ""
  ∧ files (snd made) = files w
  ∧ cerr (snd made) = (cerr w ++ ["QsLog: could not open log file " +:+ path])%list.
Proof.
  intros Hr made. unfold made, DailyFileDestination.make.
  assert (Hname : getFileName (setInitialInfo (mkQFile path false) w r) w = "").
  { destruct r as [|s|s]; [done|done|]. by destruct (Hr s). }
  rewrite Hname, mkdir_if_missing_empty.
  rewrite (QFile_open_fail _ (setFileName "" (mkQFile "" false)) w) by (by left).
  done.
Qed.

(** The example log file handed to a daily destination with a size
    strategy. *)
Lemma daily_destination_needs_daily_strategy_example :
  let w := world_of example_files "/" in
  let made := DailyFileDestination.make "/log/a.txt" (SizeRS example_size) w in
  DailyFileDestination.isValid (fst made) = false
  ∧ cerr (snd made) = ["QsLog: could not open log file /log/a.txt"].
Proof.
  intros w made.
  destruct (daily_destination_needs_daily_strategy "/log/a.txt" (SizeRS example_size) w)
    as (Hv & _ & _ & Hc).
  - discriminate.
  - split; [exact Hv | exact Hc].
Defined.

(** X13.  [FileDestination]'s constructor with a size or a daily
    strategy, on a path the process may open (not protected, in a
    directory that exists), creates no directory and opens the file in
    append mode: a file that exists keeps its content and its
    modification time, a missing one is created empty; the destination
    is valid, nothing is reported and the one [QFile] call is the
    [open]. *)
Theorem constructor_appends_unless_null (path : string) (r : RotationStrategy) (w : World) :
  path ≠ "" →
  absoluteFilePath w path ∉ denied w →
  r ≠ NullRS →
  let made := FileDestination.make path r w in
  FileDestination.isValid (fst made) = true
  ∧ files (snd made)
    = match files w !! absoluteFilePath w path with
      | Some _ => files w
      | None => <[absoluteFilePath w path := mkFile "" (now w)]> (files w)
      end
  ∧ cerr (snd made) = cerr w
  ∧ denied (snd made) = denied w
  ∧ fscalls (snd made)
    = (fscalls w
       ++ [CallOpen (absoluteFilePath w path) (Z.lor (Z.lor WriteOnly Text) Append)])%list.
Proof.
  intros Hname Hden Hr made. unfold made, FileDestination.make.
  assert (Hmode : recommendedOpenModeFlag r = Append) by (by destruct r).
  rewrite Hmode, (mkdir_if_missing_available path w Hname Hden).
  rewrite (QFile_open_ok _ (setFileName path (mkQFile "" false)) w) by done.
  cbn [fst snd FileDestination.isValid FileDestination.mFile isOpen fileName setFileName
       files with_files cerr fscalls record_call denied].
  repeat split.
  destruct (files w !! absoluteFilePath w path) as [fd|] eqn:E; [|done].
  change (has_flag (processOpenModeFlags (Z.lor (Z.lor WriteOnly Text) Append)) Truncate)
    with false.
  by apply insert_id.
Qed.

(** The example log file opened with a daily strategy. *)
Lemma constructor_appends_unless_null_example :
  let w := world_of example_files "/" in
  let made := FileDestination.make "/log/a.txt" (DailyRS DailyRotationStrategy.make) w in
  FileDestination.isValid (fst made) = true
  ∧ files (snd made) = example_files.
Proof.
  intros w made.
  destruct (constructor_appends_unless_null "/log/a.txt" (DailyRS DailyRotationStrategy.make) w)
    as (Hv & Hf & _).
  - discriminate.
  - apply not_denied_empty.
  - discriminate.
  - split; [exact Hv | exact Hf].
Defined.

End Constructors.

(* ===================================================================== *)
(** ** DailyFileDestination over a day *)
(* ===================================================================== *)

Section DailyWrites.

Import DailyRotationStrategy.

(** A [write] at or before the deadline only streams the message out. *)
Lemma daily_write_quiet (message : string) (d : DailyFileDestination.t) (w : World)
    (s : DailyRotationStrategy.t) :
  DailyFileDestination.mRotationStrategy_ d = DailyRS s →
  toMSecs (now w) ≤ toMSecs (rotation_tp_ s) →
  DailyFileDestination.write message d w
  = (d, stream_write (message +:+ endl) (DailyFileDestination.mFile d) w).
Proof.
  destruct d as [f r]. simpl. intros -> Ht.
  unfold DailyFileDestination.write.
  cbn [DailyFileDestination.mRotationStrategy_ DailyFileDestination.mFile QsLogging.shouldRotate].
  by rewrite shouldRotate_not_due.
Qed.

Lemma daily_write_at_quiet (entries : list (QDateTime * string))
    (d : DailyFileDestination.t) (w : World) (s : DailyRotationStrategy.t) (fd : FileData) :
  DailyFileDestination.mRotationStrategy_ d = DailyRS s →
  isOpen (DailyFileDestination.mFile d) = true →
  files w !! absoluteFilePath w (fileName (DailyFileDestination.mFile d)) = Some fd →
  Forall (λ e, toMSecs (fst e) ≤ toMSecs (rotation_tp_ s)) entries →
  fst (daily_write_at entries d w) = d
  ∧ content_at (snd (daily_write_at entries d w))
               (absoluteFilePath w (fileName (DailyFileDestination.mFile d)))
    = Some (content fd +:+ lines (snd <$> entries))
  ∧ fscalls (snd (daily_write_at entries d w)) = fscalls w
  ∧ cerr (snd (daily_write_at entries d w)) = cerr w
  ∧ (∀ q, q ≠ absoluteFilePath w (fileName (DailyFileDestination.mFile d)) →
          files (snd (daily_write_at entries d w)) !! q = files w !! q).
Proof.
  unfold daily_write_at.
  intros Hs Hopen. revert w fd.
  induction entries as [|[t m] es IH]; intros w fd Hfd Hall.
  { cbn [foldl fst snd fmap list_fmap lines foldr]. rewrite append_nil_r.
    unfold content_at. rewrite Hfd. done. }
  apply Forall_cons in Hall as [Ht Hall]. cbn [fst] in Ht.
  cbn [foldl]. rewrite (daily_write_quiet m d (at_time t w) s Hs Ht).
  rewrite (stream_write_open _ _ (at_time t w) fd Hopen Hfd).
  set (p := absoluteFilePath w (fileName (DailyFileDestination.mFile d))).
  change (absoluteFilePath (at_time t w) (fileName (DailyFileDestination.mFile d))) with p.
  set (w1 := with_files _ (at_time t w)).
  destruct (IH w1 (mkFile (content fd +:+ m +:+ endl) t)) as (Hd & Hc & Hcalls & Herr & Hrest);
    [|done|].
  { unfold w1. cbn. apply lookup_insert_eq. }
  change (absoluteFilePath w1 (fileName (DailyFileDestination.mFile d))) with p in *.
  repeat split; try done.
  - rewrite Hc. cbn [content fmap list_fmap snd lines foldr]. by rewrite !append_assoc.
  - intros q Hq. rewrite (Hrest q Hq). unfold w1. cbn. by rewrite lookup_insert_ne.
Qed.

(** A constructor call that succeeds: the destination is open on the
    dated name, and that file is empty.  [w0] is the world after the
    constructor's [mkdir] branch. *)
Lemma daily_make_valid (path name : string) (s : DailyRotationStrategy.t) (w w0 : World) :
  name = calc_filename (locale w) path (now w) →
  w0 = mkdir_if_missing name w →
  DailyFileDestination.isValid (fst (DailyFileDestination.make path (DailyRS s) w)) = true →
  DailyFileDestination.make path (DailyRS s) w
  = (DailyFileDestination.mk (mkQFile name true)
       (DailyRS (setInitialInfo (mkQFile path false) w s)),
     with_files (<[absoluteFilePath w0 name := mkFile "" (now w0)]> (files w0))
       (record_call (CallOpen (absoluteFilePath w0 name) (Z.lor WriteOnly Text)) w0)).
Proof.
  unfold DailyFileDestination.make.
  change (QsLogging.getFileName
            (QsLogging.setInitialInfo (mkQFile path false) w (DailyRS s)) w)
    with (calc_filename (locale w) path (now w)).
  change (QsLogging.setInitialInfo (mkQFile path false) w (DailyRS s))
    with (DailyRS (setInitialInfo (mkQFile path false) w s)).
  intros <- <-.
  set (f := setFileName name (mkQFile "" false)).
  assert (Hf : fileName f = name) by reflexivity.
  destruct (decide (fileName f = "" ∨ absoluteFilePath w0 (fileName f) ∈ denied w0))
    as [Hfail|Hok].
  - rewrite (QFile_open_fail _ f w0 Hfail). intros [=].
  - rewrite (QFile_open_ok _ f w0) by tauto. rewrite Hf. intros _.
    f_equal. f_equal. f_equal.
    by destruct (files w0 !! absoluteFilePath w0 name).
Qed.

(** Writes up to the deadline, into a file that was just opened empty. *)
Lemma daily_write_at_fresh (name : string) (s : DailyRotationStrategy.t)
    (entries : list (QDateTime * string)) (w : World) (mode : Z) :
  Forall (λ e, toMSecs (fst e) ≤ toMSecs (rotation_tp_ s)) entries →
  let d := DailyFileDestination.mk (mkQFile name true) (DailyRS s) in
  let w1 := with_files (<[absoluteFilePath w name := mkFile "" (now w)]> (files w))
              (record_call (CallOpen (absoluteFilePath w name) mode) w) in
  DailyFileDestination.isValid (fst (daily_write_at entries d w1)) = true
  ∧ content_at (snd (daily_write_at entries d w1)) (absoluteFilePath w name)
    = Some (lines (snd <$> entries))
  ∧ fscalls (snd (daily_write_at entries d w1))
    = (fscalls w ++ [CallOpen (absoluteFilePath w name) mode])%list.
Proof.
  intros Hall d w1.
  assert (HP1 : absoluteFilePath w1 name = absoluteFilePath w name) by reflexivity.
  destruct (daily_write_at_quiet entries d w1 s (mkFile "" (now w)))
    as (Hd & Hc & Hcalls & _); [reflexivity|reflexivity| |exact Hall|].
  { cbn [d DailyFileDestination.mFile fileName]. rewrite HP1.
    unfold w1. cbn [files with_files]. apply lookup_insert_eq. }
  cbn [d DailyFileDestination.mFile fileName] in Hc. rewrite HP1 in Hc.
  rewrite Hd, Hc, Hcalls. cbn [content]. by rewrite append_nil_l.
Qed.

(** X14.  A valid [DailyFileDestination] (the constructor has created
    the directory of the dated file if it had to, and has opened the
    file): every message written up to the first deadline - the rotation
    time of the day after the construction - lands in the file dated
    with the construction day, which holds exactly these messages, each
    with its line terminator, in order; the constructor's [open] stays
    the only call to [QFile], and no directory goes missing. *)
Theorem daily_messages_until_deadline_share_file (path : string)
    (s : DailyRotationStrategy.t) (entries : list (QDateTime * string)) (w : World) :
  DailyFileDestination.isValid (fst (DailyFileDestination.make path (DailyRS s) w)) = true →
  Forall (λ e, toMSecs (fst e)
               ≤ toMSecs (mkDateTime (date (now w) + 1) (rotation_time s))) entries →
  DailyFileDestination.isValid
    (fst (daily_write_at entries (fst (DailyFileDestination.make path (DailyRS s) w))
                         (snd (DailyFileDestination.make path (DailyRS s) w)))) = true
  ∧ content_at
      (snd (daily_write_at entries (fst (DailyFileDestination.make path (DailyRS s) w))
                           (snd (DailyFileDestination.make path (DailyRS s) w))))
      (absoluteFilePath w (calc_filename (locale w) path (now w)))
    = Some (lines (snd <$> entries))
  ∧ fscalls
      (snd (daily_write_at entries (fst (DailyFileDestination.make path (DailyRS s) w))
                           (snd (DailyFileDestination.make path (DailyRS s) w))))
    = (fscalls w
       ++ [CallOpen (absoluteFilePath w (calc_filename (locale w) path (now w)))
                    (Z.lor WriteOnly Text)])%list
  ∧ missing (denied (snd (DailyFileDestination.make path (DailyRS s) w)))
    ⊆ missing (denied w).
Proof.
  intros Hvalid Hall.
  rewrite (daily_make_valid path _ s w _ eq_refl eq_refl Hvalid).
  generalize (calc_filename (locale w) path (now w)). intros name.
  destruct (mkdir_if_missing_fields name w) as (_ & _ & _ & _ & _ & Hcalls0 & _ & Hm0).
  pose proof (mkdir_if_missing_path name name w) as Hp0.
  destruct (daily_write_at_fresh name (setInitialInfo (mkQFile path false) w s) entries
              (mkdir_if_missing name w) (Z.lor WriteOnly Text) Hall) as (Hv & Hc & Hcalls).
  rewrite Hp0, Hcalls0 in *. cbn [snd denied with_files record_call].
  repeat split; done.
Qed.

(** Constructed on 2024-03-05 at midnight, rotation time 23:00: messages
    at 08:00 and at 01:00 of the next day both go to the file of the
    5th. *)
Lemma daily_messages_until_deadline_share_file_example :
  let w := world_of ∅ "/" in
  let s := DailyRotationStrategy.mk "" 23 0 (mkDateTime 2440588 0) in
  let made := DailyFileDestination.make "/log/app.log" (DailyRS s) w in
  content_at (snd (daily_write_at [(mkDateTime 2460375 28800000, "a");
                                   (mkDateTime 2460376 3600000, "b")]
                     (fst made) (snd made)))
             "/log/app_2024_3_5.log"
  = Some (lines ["a"; "b"]).
Proof.
  intros w s made.
  destruct (daily_messages_until_deadline_share_file "/log/app.log" s
              [(mkDateTime 2460375 28800000, "a"); (mkDateTime 2460376 3600000, "b")] w)
    as (_ & H & _).
  - vm_compute. reflexivity.
  - repeat constructor; vm_compute; discriminate.
  - exact H.
Defined.

End DailyWrites.

(* ===================================================================== *)
(** ** The dated name and the retention of DailyRotationStrategy *)
(* ===================================================================== *)

Section DailyRetention.

Import DailyRotationStrategy.

(** X15.  The dated file name.  For a log file [<base>.<ext>] with no
    further dot, and no [%] in [<base>], [getFileName] is
    [<base>_<year>_<month>_<day>.<ext>], the numbers of today's date
    printed without padding; a name without any dot gets the date and a
    trailing dot.  The name depends on the clock through the date only:
    two calls on the same day name the same file. *)
Theorem dated_name_of_simple_name (base ext : string) (s : DailyRotationStrategy.t)
    (w : World) (opened : bool) :
  no_dot base = true → no_marker base = true → no_dot ext = true →
  getFileName (setInitialInfo (mkQFile (base +:+ "." +:+ ext) opened) w s) w
  = base +:+ date_tag (now w) +:+ "." +:+ ext
  ∧ getFileName (setInitialInfo (mkQFile base opened) w s) w
    = base +:+ date_tag (now w) +:+ "."
  ∧ ∀ t s0, date t = date (now w) → getFileName s0 (at_time t w) = getFileName s0 w.
Proof.
  intros Hd Hm He. unfold getFileName, currentDateTime.
  cbn [setInitialInfo mFileName fileName now locale at_time].
  split; [exact (calc_filename_one_dot _ base ext _ Hd Hm He)|].
  split; [exact (proj1 (calc_filename_first_segments _ base "" _ Hd Hm))|].
  intros t s0 Ht. unfold calc_filename. rewrite Ht. reflexivity.
Qed.

(** [/log/app.log] and [/log/app] on 2024-03-05. *)
Lemma dated_name_of_simple_name_example :
  let w := world_of ∅ "/" in
  getFileName (setInitialInfo (mkQFile "/log/app.log" false) w make) w
  = "/log/app_2024_3_5.log"
  ∧ getFileName (setInitialInfo (mkQFile "/log/app" false) w make) w
    = "/log/app_2024_3_5.".
Proof.
  intros w.
  destruct (dated_name_of_simple_name "/log/app" "log" make w false) as (H1 & H2 & _);
    [reflexivity|reflexivity|reflexivity|].
  split.
  - etrans; [exact H1 | vm_compute; reflexivity].
  - etrans; [exact H2 | vm_compute; reflexivity].
Defined.

Lemma remove_all_cerr (names : list string) (w : World) :
  cerr (remove_all names w) = cerr w.
Proof.
  unfold remove_all. revert w. induction names as [|n ns IH]; intros w; [done|].
  cbn [foldl]. rewrite IH. apply QFile_remove_cerr.
Qed.

Lemma fs_remove_subset (D : Denied) (p q : string) (m : gmap string FileData)
    (fd : FileData) :
  fs_remove D p m !! q = Some fd → m !! q = Some fd.
Proof.
  unfold fs_remove. case_match; [|done]. by intros [_ ?]%lookup_delete_Some.
Qed.

Lemma remove_all_subset (names : list string) (w : World) (q : string) (fd : FileData) :
  files (remove_all names w) !! q = Some fd → files w !! q = Some fd.
Proof.
  unfold remove_all. revert w. induction names as [|n ns IH]; intros w; [done|].
  cbn [foldl]. intros H%IH. rewrite QFile_remove_files in H.
  by apply fs_remove_subset in H.
Qed.

Lemma remove_all_frame (names : list string) (w w0 : World) (q : string) :
  env w0 = env w →
  (∀ name, name ∈ names → q ≠ absoluteFilePath w name) →
  files (remove_all names w0) !! q = files w0 !! q.
Proof.
  unfold remove_all. revert w0. induction names as [|n ns IH]; intros w0 He Hq; [done|].
  cbn [foldl]. rewrite IH.
  - rewrite QFile_remove_files, (absoluteFilePath_env w w0 n He).
    apply fs_remove_other, Hq, list_elem_of_here.
  - by rewrite QFile_remove_env.
  - intros name Hin. apply Hq. by apply list_elem_of_further.
Qed.

Lemma remove_all_gone (names : list string) (w w0 : World) (name : string) :
  env w0 = env w →
  name ∈ names →
  absoluteFilePath w name ∉ denied w →
  files (remove_all names w0) !! absoluteFilePath w name = None.
Proof.
  revert w0. induction names as [|n ns IH]; intros w0 He Hin Hden.
  { by apply elem_of_nil in Hin. }
  change (remove_all (n :: ns) w0) with (remove_all ns (snd (QFile_remove n w0))).
  apply elem_of_cons in Hin as [->|Hin].
  - destruct (files (remove_all ns (snd (QFile_remove n w0))) !! absoluteFilePath w n)
      as [fd|] eqn:E; [|done].
    apply remove_all_subset in E. rewrite QFile_remove_files in E.
    rewrite (absoluteFilePath_env w w0 n He) in E.
    destruct (env_fields _ _ He) as (Hd & _).
    rewrite fs_remove_lookup in E by (by rewrite Hd).
    by rewrite decide_True in E.
  - apply IH; [by rewrite QFile_remove_env | done | done].
Qed.

(** X16.  [DailyRotationStrategy::rotate] only deletes.  Its calls are
    one [remove] per name that the directory listing returns from index
    29 on, each bare name resolved against the working directory - no
    rename, no open; nothing is reported, whether or not the removals
    succeed; every file left is a file that was there, unchanged; a file
    whose path is none of the resolved names stays, and a file whose
    path is one of them is gone unless the path is protected; with at
    most 29 names listed nothing happens at all. *)
Theorem daily_rotate_only_deletes (s : DailyRotationStrategy.t) (w : World) :
  fscalls (rotate s w)
  = (fscalls w
     ++ ((λ name, CallRemove (absoluteFilePath w name))
           <$> drop 29 (entryList (absolutePath w (getFileName s w))
                                  (suffix (getFileName s w)) w)))%list
  ∧ cerr (rotate s w) = cerr w
  ∧ (∀ q fd, files (rotate s w) !! q = Some fd → files w !! q = Some fd)
  ∧ (∀ q, (∀ name, name ∈ drop 29 (entryList (absolutePath w (getFileName s w))
                                             (suffix (getFileName s w)) w) →
                   q ≠ absoluteFilePath w name) →
          files (rotate s w) !! q = files w !! q)
  ∧ (∀ name, name ∈ drop 29 (entryList (absolutePath w (getFileName s w))
                                       (suffix (getFileName s w)) w) →
             absoluteFilePath w name ∉ denied w →
             files (rotate s w) !! absoluteFilePath w name = None)
  ∧ ((List.length (entryList (absolutePath w (getFileName s w))
                             (suffix (getFileName s w)) w) ≤ 29)%nat →
     rotate s w = w).
Proof.
  split.
  { rewrite daily_rotate_only_removes. cbv zeta.
    destruct (Nat.ltb_spec 29 (List.length (entryList (absolutePath w (getFileName s w))
                                              (suffix (getFileName s w)) w))) as [Hlt|Hle];
      [done|].
    by rewrite drop_ge. }
  unfold rotate.
  set (results := entryList _ _ w).
  destruct (Nat.ltb_spec 29 (List.length results)) as [Hlt|Hle].
  - split; [apply remove_all_cerr|]. split; [apply remove_all_subset|].
    split; [intros q Hq; by apply (remove_all_frame _ w w q)|].
    split; [|lia]. intros name Hin Hden. by apply (remove_all_gone _ w w name).
  - repeat split; try done.
    intros name Hin. rewrite drop_ge in Hin by done. by apply elem_of_nil in Hin.
Qed.

(** The example directory holds two files: nothing is removed. *)
Lemma daily_rotate_only_deletes_example :
  let w := world_of example_files "/log" in
  let s := DailyRotationStrategy.mk "/log/a.txt" 0 0 (mkDateTime 2460376 0) in
  rotate s w = w.
Proof.
  intros w s.
  destruct (daily_rotate_only_deletes s w) as (_ & _ & _ & _ & _ & H).
  apply H.
  assert (Hlen : List.length (entryList (absolutePath w (getFileName s w))
                                        (suffix (getFileName s w)) w) = 1%nat)
    by (vm_compute; reflexivity).
  rewrite Hlen. lia.
Defined.

End DailyRetention.

(* ===================================================================== *)
(** ** FileDestination with the daily strategy *)
(* ===================================================================== *)

Section FileDestinationDaily.

Import DailyRotationStrategy.

Lemma getFileName_with_deadline (tp : QDateTime) (s : DailyRotationStrategy.t) (w : World) :
  getFileName (with_deadline tp s) w = getFileName s w.
Proof. unfold getFileName. cbn [with_deadline mFileName]. reflexivity. Qed.

(** With at most 29 names listed [rotate] does nothing. *)
Lemma daily_rotate_few (s : DailyRotationStrategy.t) (w : World) :
  (List.length (entryList (absolutePath w (getFileName s w))
                          (suffix (getFileName s w)) w) ≤ 29)%nat →
  rotate s w = w.
Proof.
  intros Hle. unfold rotate.
  by destruct (Nat.ltb_spec 29 (List.length (entryList (absolutePath w (getFileName s w))
                                               (suffix (getFileName s w)) w))); [lia|].
Qed.

(** X17.  [FileDestination] never asks the strategy for a file name, so
    with a [DailyRotationStrategy] it does not start a dated file: when
    the deadline has passed, [write] applies the retention, reopens the
    SAME path in append mode and appends the message to what the file
    holds (here with at most 29 files listed, so that the retention
    removes nothing). *)
Theorem file_destination_with_daily_strategy_keeps_file (message : string)
    (d : FileDestination.t) (w : World) (s : DailyRotationStrategy.t) (fd : FileData) :
  FileDestination.mRotationStrategy d = DailyRS s →
  fileName (FileDestination.mFile d) ≠ "" →
  absoluteFilePath w (fileName (FileDestination.mFile d)) ∉ denied w →
  files w !! absoluteFilePath w (fileName (FileDestination.mFile d)) = Some fd →
  toMSecs (rotation_tp_ s) < toMSecs (now w) →
  (List.length (entryList (absolutePath w (getFileName s w))
                          (suffix (getFileName s w)) w) ≤ 29)%nat →
  FileDestination.mFile (fst (FileDestination.write message d w))
  = mkQFile (fileName (FileDestination.mFile d)) true
  ∧ files (snd (FileDestination.write message d w))
    = <[absoluteFilePath w (fileName (FileDestination.mFile d))
        := mkFile (content fd +:+ message +:+ endl) (now w)]> (files w)
  ∧ fscalls (snd (FileDestination.write message d w))
    = (fscalls w
       ++ [CallOpen (absoluteFilePath w (fileName (FileDestination.mFile d)))
                    (Z.lor (Z.lor WriteOnly Text) Append)])%list.
Proof.
  destruct d as [f r]. cbn [FileDestination.mRotationStrategy FileDestination.mFile].
  intros -> Hname Hden Hfd Hdue Hfew.
  unfold FileDestination.write, FileDestination.prepare.
  cbn [FileDestination.mRotationStrategy FileDestination.mFile
       QsLogging.includeMessageInCalculation QsLogging.shouldRotate
       includeMessageInCalculation].
  unfold includeMessageInCalculation.
  rewrite shouldRotate_due by done.
  set (s1 := with_deadline _ s).
  unfold FileDestination.rotate_and_reopen.
  cbn [FileDestination.mRotationStrategy FileDestination.mFile QsLogging.rotate
       QsLogging.recommendedOpenModeFlag QsLogging.setInitialInfo].
  rewrite (daily_rotate_few s1 w) by (unfold s1; by rewrite getFileName_with_deadline).
  unfold recommendedOpenModeFlag.
  rewrite (QFile_open_ok _ (QFile_close f) w) by done.
  cbn [QFile_close fileName]. rewrite Hfd.
  change (has_flag (processOpenModeFlags (Z.lor (Z.lor WriteOnly Text) Append)) Truncate)
    with false. cbv iota.
  rewrite insert_id by done.
  cbn [fst snd FileDestination.mFile].
  set (w2 := with_files (files w) _).
  assert (HP2 : absoluteFilePath w2 (fileName f) = absoluteFilePath w (fileName f))
    by reflexivity.
  rewrite (stream_write_open _ (mkQFile (fileName f) true) w2 fd eq_refl)
    by (cbn [fileName]; rewrite HP2; exact Hfd).
  cbn [fileName]. rewrite HP2. repeat split.
Qed.

(** The example log file behind a [FileDestination] with a daily strategy
    whose deadline has passed. *)
Lemma file_destination_with_daily_strategy_keeps_file_example :
  let w := world_of example_files "/" in
  let s := DailyRotationStrategy.mk "/log/a.txt" 0 0 (mkDateTime 2460374 0) in
  let d := FileDestination.mk (mkQFile "/log/a.txt" true) (DailyRS s) in
  files (snd (FileDestination.write "m" d w))
  = <["/log/a.txt" := mkFile ("new" +:+ "m" +:+ endl) (now w)]> (files w).
Proof.
  intros w s d.
  destruct (file_destination_with_daily_strategy_keeps_file "m" d w s
              (mkFile "new" (mkDateTime 2460375 0))) as (_ & H & _).
  - reflexivity.
  - discriminate.
  - apply not_denied_empty.
  - reflexivity.
  - vm_compute. reflexivity.
  - assert (Hlen : List.length (entryList (absolutePath w (getFileName s w))
                                          (suffix (getFileName s w)) w) = 1%nat)
      by (vm_compute; reflexivity).
    rewrite Hlen. lia.
  - exact H.
Defined.

End FileDestinationDaily.

(* ===================================================================== *)
(** ** Reopening after a rotation *)
(* ===================================================================== *)

Section Reopen.

Import SizeRotationStrategy.

Lemma fs_rename_source_denied (D : Denied) (po pn : string)
    (m : gmap string FileData) :
  po ∈ D → fs_rename D po pn m = m.
Proof.
  intros Hd. unfold fs_rename. rewrite (bool_decide_eq_true_2 _ Hd). cbn [orb].
  by repeat case_match.
Qed.

(** [rotate] leaves a log file alone that may not be renamed or removed. *)
Lemma size_rotate_source_denied (s : SizeRotationStrategy.t) (w : World) :
  absoluteFilePath w (mFileName s) ∈ denied w →
  (mBackupsCount s ≠ 0 → no_marker (mFileName s) = true) →
  files (rotate s w) !! absoluteFilePath w (mFileName s)
  = files w !! absoluteFilePath w (mFileName s).
Proof.
  intros HP Hplain0.
  set (P := absoluteFilePath w (mFileName s)) in *.
  destruct (decide (mBackupsCount s = 0)) as [E0|E0].
  { destruct (size_rotate_zero s w E0) as (_ & _ & Hf & _).
    rewrite Hf. unfold fs_remove. fold P.
    by rewrite (bool_decide_eq_true_2 _ HP), andb_false_r. }
  specialize (Hplain0 E0). rename Hplain0 into Hplain.
  unfold rotate. rewrite (proj2 (Z.eqb_neq _ _) E0).
  set (k := Z.to_nat _).
  destruct (shift_up_creates s w Hplain k w eq_refl) as [He2 _].
  pose proof (shift_up_frame s w Hplain k w P eq_refl) as HP2.
  specialize (HP2 (λ j E, backup_neq_self P j (eq_sym E))).
  set (w2 := shift_up s k w) in *.
  unfold QFile_exists. rewrite (backupName_path s w Hplain w2 w 1 He2). fold P.
  set (w3 := if bool_decide _ then _ else w2).
  assert (He3 : env w3 = env w).
  { unfold w3. case_bool_decide; [|done]. by rewrite QFile_remove_env. }
  assert (Hd3 : denied w3 = denied w) by (by apply env_fields in He3 as (? & _)).
  assert (HP3 : files w3 !! P = files w !! P).
  { unfold w3. case_bool_decide as Hex; [|done].
    rewrite QFile_remove_files, (backupName_path s w Hplain w2 w 1 He2).
    fold P. rewrite fs_remove_other; [done|]. backup_neq. }
  pose proof (QFile_rename_files (mFileName s) (backupName s w 1) w3) as Hf4.
  rewrite (absoluteFilePath_env w w3 _ He3) in Hf4. fold P in Hf4. rewrite Hd3 in Hf4.
  destruct (QFile_rename (mFileName s) (backupName s w 1) w3) as [renamed w4].
  cbn [snd] in Hf4.
  assert (Hw : ∀ msg, files (if renamed then w4 else report msg w4) = files w4)
    by (intros msg; by destruct renamed).
  rewrite Hw, Hf4, <- HP3. by rewrite fs_rename_source_denied.
Qed.

(** X18.  A size-strategy destination whose path has become
    unavailable (its file had been opened, the path may no longer be
    opened, renamed or removed): a write that triggers a rotation closes
    the file and cannot reopen it.  The destination is then invalid, the
    last line on [cerr] is [QsLog: could not reopen log file <name>], and
    the message is dropped - the log file is as it was. *)
Theorem reopen_failure_invalidates_destination (message : string)
    (d : FileDestination.t) (w : World) (s : SizeRotationStrategy.t) :
  FileDestination.mRotationStrategy d = SizeRS s →
  fileName (FileDestination.mFile d) = mFileName s →
  absoluteFilePath w (mFileName s) ∈ denied w →
  (mBackupsCount s ≠ 0 → no_marker (mFileName s) = true) →
  mMaxSizeInBytes s < mCurrentSizeInBytes s + Z.of_nat (String.length message) →
  FileDestination.isValid (fst (FileDestination.write message d w)) = false
  ∧ files (snd (FileDestination.write message d w)) !! absoluteFilePath w (mFileName s)
    = files w !! absoluteFilePath w (mFileName s)
  ∧ last (cerr (snd (FileDestination.write message d w)))
    = Some ("QsLog: could not reopen log file " +:+ mFileName s).
Proof.
  intros Hs Hfile HP Hplain Hsize.
  unfold FileDestination.write. rewrite (prepare_size message d w s Hs). cbv zeta.
  assert (Hrot : shouldRotate (includeMessageInCalculation message s) = true).
  { unfold shouldRotate. cbn. apply Z.ltb_lt. lia. }
  rewrite Hrot. unfold FileDestination.rotate_and_reopen.
  cbn [FileDestination.mFile FileDestination.mRotationStrategy QsLogging.rotate
       QsLogging.recommendedOpenModeFlag QsLogging.setInitialInfo].
  pose proof (size_rotate_env (includeMessageInCalculation message s) w) as He1.
  pose proof (size_rotate_source_denied (includeMessageInCalculation message s) w HP Hplain)
    as HP1.
  cbn [includeMessageInCalculation mFileName] in HP1.
  set (wr := rotate (includeMessageInCalculation message s) w) in *.
  destruct (env_fields _ _ He1) as (Hd1 & _).
  set (f := QFile_close (FileDestination.mFile d)).
  assert (Hf : fileName f = mFileName s) by (unfold f; simpl; done).
  assert (HPr : absoluteFilePath wr (fileName f) = absoluteFilePath w (mFileName s)).
  { rewrite Hf. apply (absoluteFilePath_env w wr _ He1). }
  rewrite (QFile_open_fail _ f wr) by (right; rewrite HPr, Hd1; exact HP).
  cbn [fst snd FileDestination.mFile FileDestination.isValid isOpen].
  rewrite stream_write_closed by reflexivity.
  cbn [files report record_call cerr]. rewrite Hf, last_snoc. done.
Qed.

(** The example log file, written to after its path has been closed off. *)
Lemma reopen_failure_invalidates_destination_example :
  let w := mkWorld example_files {["/log/a.txt"]} "/" (mkDateTime 2460375 0) number [] [] in
  let s := SizeRotationStrategy.mk "/log/a.txt" 3 5 2 in
  let d := FileDestination.mk (mkQFile "/log/a.txt" true) (SizeRS s) in
  FileDestination.isValid (fst (FileDestination.write "xyz" d w)) = false
  ∧ files (snd (FileDestination.write "xyz" d w)) !! "/log/a.txt"
    = Some (mkFile "new" (mkDateTime 2460375 0))
  ∧ last (cerr (snd (FileDestination.write "xyz" d w)))
    = Some "QsLog: could not reopen log file /log/a.txt".
Proof.
  intros w s d.
  destruct (reopen_failure_invalidates_destination "xyz" d w s) as (Hv & Hf & Hc).
  - reflexivity.
  - reflexivity.
  - is_protected.
  - reflexivity.
  - vm_compute. reflexivity.
  - split; [exact Hv|]. split; [|exact Hc].
    etrans; [exact Hf | reflexivity].
Defined.

End Reopen.

(* ===================================================================== *)
(** ** DailyFileDestination across the deadline *)
(* ===================================================================== *)

Section DailySwitch.

Import DailyRotationStrategy.

(** X19.  A [DailyFileDestination::write] after the deadline, when the
    newly dated name may be opened: the strategy's deadline moves to the
    rotation time of the next day, the retention runs, and the
    destination switches to the file dated with the day of the write,
    opened in append mode; the message is appended there.  Nothing is
    reported, and every other file - the file used so far among them - is
    as the retention left it. *)
Theorem daily_write_after_deadline_switches_file (message name' : string)
    (d : DailyFileDestination.t) (w : World) (s : DailyRotationStrategy.t) :
  DailyFileDestination.mRotationStrategy_ d = DailyRS s →
  toMSecs (rotation_tp_ s) < toMSecs (now w) →
  getFileName s w = name' →
  name' ≠ "" →
  absoluteFilePath w name' ∉ denied w →
  fst (DailyFileDestination.write message d w)
  = DailyFileDestination.mk (mkQFile name' true)
      (DailyRS (with_deadline (mkDateTime (date (now w) + 1) (rotation_time s)) s))
  ∧ content_at (snd (DailyFileDestination.write message d w)) (absoluteFilePath w name')
    = Some (default ""
              (content_at
                 (rotate (with_deadline (mkDateTime (date (now w) + 1) (rotation_time s)) s) w)
                 (absoluteFilePath w name'))
            +:+ message +:+ endl)
  ∧ (∀ q, q ≠ absoluteFilePath w name' →
          files (snd (DailyFileDestination.write message d w)) !! q
          = files (rotate (with_deadline (mkDateTime (date (now w) + 1) (rotation_time s)) s)
                          w) !! q)
  ∧ cerr (snd (DailyFileDestination.write message d w)) = cerr w.
Proof.
  destruct d as [f0 r]. cbn [DailyFileDestination.mRotationStrategy_]. intros -> Hdue.
  set (s1 := with_deadline _ s).
  intros Hname Hne Hden.
  unfold DailyFileDestination.write.
  cbn [DailyFileDestination.mRotationStrategy_ DailyFileDestination.mFile QsLogging.shouldRotate].
  rewrite shouldRotate_due by done. fold s1. cbv beta iota zeta.
  cbn [QsLogging.rotate QsLogging.getFileName QsLogging.recommendedOpenModeFlag].
  pose proof (daily_rotate_env s1 w) as He.
  assert (Hcerr : cerr (rotate s1 w) = cerr w).
  { unfold rotate. case_match; [apply remove_all_cerr | done]. }
  set (wr := rotate s1 w) in *.
  destruct (env_fields _ _ He) as (Hd & Hc & Hn & Hl).
  assert (Hname1 : getFileName s1 wr = name').
  { rewrite <- Hname. unfold getFileName, currentDateTime.
    cbn [s1 with_deadline mFileName]. by rewrite Hl, Hn. }
  rewrite Hname1. clear Hname Hname1. unfold recommendedOpenModeFlag.
  set (f := setFileName name' (QFile_close f0)).
  set (mode := Z.lor (Z.lor WriteOnly Text) Append).
  assert (Hf : fileName f = name') by reflexivity.
  pose proof (absoluteFilePath_env w wr name' He) as Hp.
  rewrite (QFile_open_ok mode f wr) by (rewrite Hf, ?Hp, ?Hd; done). rewrite Hf, Hp.
  cbn [fst snd DailyFileDestination.mFile].
  set (fd := match files wr !! absoluteFilePath w name' with
             | Some d => if has_flag (processOpenModeFlags mode) Truncate
                         then mkFile "" (now wr) else d
             | None => mkFile "" (now wr)
             end).
  assert (Hfdc : content fd = default "" (content_at wr (absoluteFilePath w name'))).
  { unfold fd, content_at. by destruct (files wr !! absoluteFilePath w name'). }
  set (w2 := with_files _ _).
  assert (He2 : env w2 = env w) by (rewrite <- He; reflexivity).
  pose proof (absoluteFilePath_env w w2 name' He2) as Hp2.
  assert (Hfd : files w2 !! absoluteFilePath w name' = Some fd).
  { unfold w2. cbn [files with_files]. apply lookup_insert_eq. }
  rewrite (stream_write_open _ (mkQFile name' true) w2 fd eq_refl)
    by (cbn [fileName]; by rewrite Hp2).
  cbn [fileName]. rewrite Hp2.
  split; [reflexivity|]. split; [|split].
  - unfold content_at at 1. cbn [files with_files].
    rewrite lookup_insert_eq. cbn [fmap option_fmap option_map content]. by rewrite Hfdc.
  - intros q Hq. cbn [files with_files]. rewrite lookup_insert_ne by done.
    unfold w2. cbn [files with_files]. by rewrite lookup_insert_ne.
  - exact Hcerr.
Qed.

(** Rotation at midnight, deadline the 5th at 00:00; a message at 00:00:01
    of the 5th goes to the file of the 5th, and the file of the 4th is
    left as it was. *)
Lemma daily_write_after_deadline_switches_file_example :
  let w := at_time (mkDateTime 2460375 1000)
             (world_of {["/log/app_2024_3_4.log" := mkFile "old" (mkDateTime 2460374 0)]} "/") in
  let s := DailyRotationStrategy.mk "/log/app.log" 0 0 (mkDateTime 2460375 0) in
  let d := DailyFileDestination.mk (mkQFile "/log/app_2024_3_4.log" true) (DailyRS s) in
  content_at (snd (DailyFileDestination.write "m" d w)) "/log/app_2024_3_5.log"
  = Some ("m" +:+ endl)
  ∧ files (snd (DailyFileDestination.write "m" d w)) !! "/log/app_2024_3_4.log"
    = Some (mkFile "old" (mkDateTime 2460374 0)).
Proof.
  intros w s d.
  destruct (daily_write_after_deadline_switches_file "m" "/log/app_2024_3_5.log" d w s)
    as (_ & Hc & Hq & _).
  - reflexivity.
  - vm_compute. reflexivity.
  - vm_compute. reflexivity.
  - discriminate.
  - apply not_denied_empty.
  - split.
    + etrans; [exact Hc | vm_compute; reflexivity].
    + etrans; [apply Hq; discriminate | vm_compute; reflexivity].
Defined.

End DailySwitch.

(* ===================================================================== *)
(** ** Place markers in the name of the log file *)
(* ===================================================================== *)

Section MarkerInName.

Import SizeRotationStrategy.

Lemma parse_escape_one (post : string) :
  no_leading_digit post = true →
  parse_escape (String "1" (post +:+ ".%1")) = Some (1, false, post +:+ ".%1").
Proof.
  intros Hpost. unfold parse_escape.
  change (skip_L (String "1" (post +:+ ".%1"))) with (false, String "1" (post +:+ ".%1")).
  cbv iota beta. change (digitValue "1") with (Some 1). cbv iota beta.
  destruct post as [|c p]; [reflexivity|].
  rewrite append_cons. simpl in Hpost. by destruct (digitValue c).
Qed.

Lemma min_escape_marker (fuel : nat) (r r' : string) (n : Z) (loc : bool) :
  parse_escape r = Some (n, loc, r') →
  min_escape (S fuel) (String "%" r)
  = match min_escape fuel r' with
    | Some m => Some (Z.min n m)
    | None => Some n
    end.
Proof.
  intros Hp. cbn [min_escape]. change (Ascii.eqb "%" "%") with true. cbv iota.
  by rewrite Hp.
Qed.

Lemma replace_escapes_marker (fuel : nat) (a la r r' : string) (n : Z) (loc : bool) :
  parse_escape r = Some (n, loc, r') →
  replace_escapes (S fuel) n a la (String "%" r)
  = (if loc then la else a) +:+ replace_escapes fuel n a la r'.
Proof.
  intros Hp. cbn [replace_escapes]. change (Ascii.eqb "%" "%") with true. cbv iota.
  by rewrite Hp, Z.eqb_refl.
Qed.

(** [(pre + "%1" + post + ".%1").arg(a)]: both markers are replaced. *)
Lemma arg_with_marker_in_name (pre post a la : string) :
  no_marker pre = true → no_marker post = true → no_leading_digit post = true →
  arg_with a la ((pre +:+ "%1" +:+ post) +:+ ".%1")
  = pre +:+ a +:+ post +:+ "." +:+ a.
Proof.
  intros Hpre Hpost Hdig.
  replace ((pre +:+ "%1" +:+ post) +:+ ".%1")
    with (pre +:+ String "%" (String "1" (post +:+ ".%1")))
    by (by rewrite !append_assoc).
  rewrite arg_with_plain by done.
  set (r := post +:+ ".%1").
  assert (Hlen : S (String.length (String "%" (String "1" r))) = S (String.length post + 5))
    by (unfold r; cbn [String.length]; rewrite length_append; cbn [String.length]; lia).
  rewrite Hlen.
  assert (Hmin : min_escape (String.length post + 5) r = Some 1).
  { unfold r. by rewrite min_escape_plain. }
  assert (Hrep : replace_escapes (String.length post + 5) 1 a la r = post +:+ "." +:+ a).
  { unfold r. rewrite replace_escapes_plain by done.
    change (replace_escapes 5 1 a la ".%1") with ("." +:+ a +:+ "").
    by rewrite append_nil_r. }
  pose proof (parse_escape_one post Hdig) as Hparse. fold r in Hparse.
  rewrite (min_escape_marker _ _ _ _ _ Hparse), Hmin.
  change (Z.min 1 1) with 1. cbv iota.
  by rewrite (replace_escapes_marker _ _ _ _ _ _ _ Hparse), Hrep.
Qed.

(** X20.  A [%1] in the name of the log file is a place marker to the
    backup naming, which builds the names with [QString::arg] from
    [mFileName + ".%1"]: it is replaced together with the one that was
    appended, so backup [i] of [<pre>%1<post>] is named
    [<pre><i><post>.<i>] and not [<pre>%1<post>.<i>]. *)
Theorem backup_name_with_marker_in_name (pre post : string) (s : SizeRotationStrategy.t)
    (w : World) (i : Z) :
  mFileName s = pre +:+ "%1" +:+ post →
  no_marker pre = true → no_marker post = true → no_leading_digit post = true →
  backupName s w i = pre +:+ number i +:+ post +:+ "." +:+ number i.
Proof.
  intros Hname Hpre Hpost Hdig. unfold backupName, arg_int. rewrite Hname.
  by apply arg_with_marker_in_name.
Qed.

(** Backup 3 of [app%1.log]. *)
Lemma backup_name_with_marker_in_name_example :
  backupName (SizeRotationStrategy.mk "app%1.log" 0 5 3) (world_of ∅ "/") 3 = "app3.log.3".
Proof.
  etrans; [apply (backup_name_with_marker_in_name "app" ".log"); reflexivity|].
  vm_compute. reflexivity.
Defined.

End MarkerInName.

(* ===================================================================== *)
(** ** The directory of the log file *)
(* ===================================================================== *)

Section MissingDirectory.

(** In a directory that was just created, a path that is not protected
    may be opened. *)
Lemma created_directory_available (name : string) (w : World) :
  absoluteFilePath w name ∉ protected (denied w) →
  absoluteFilePath w name
  ∉ {| protected := protected (denied w);
       missing := missing (denied w) ∖ {[absolutePath w name]} |}.
Proof.
  intros Hp [H|H]; [done|]. cbn [missing] in H.
  apply elem_of_difference in H as [_ H]. apply H, elem_of_singleton.
  symmetry. apply absolutePath_dirName.
Qed.

(** X21.  The constructors create the directory of the log file when it
    is missing.  [QDir::mkdir] makes that one directory, provided the
    directory that is to hold it exists and the path is not protected;
    the file is then opened in it, the destination is valid, nothing is
    reported and no other file changes.  [FileDestination] does so for
    the directory of the path it is given, [DailyFileDestination] for
    the directory of the dated name. *)
Theorem constructor_creates_missing_directory (path name : string) (r : RotationStrategy)
    (s : DailyRotationStrategy.t) (w : World) :
  (path ≠ "" →
   absolutePath w path ∈ missing (denied w) →
   absolutePath w path ∉ denied w →
   absoluteFilePath w path ∉ protected (denied w) →
   FileDestination.isValid (fst (FileDestination.make path r w)) = true
   ∧ denied (snd (FileDestination.make path r w))
     = {| protected := protected (denied w);
          missing := missing (denied w) ∖ {[absolutePath w path]} |}
   ∧ is_Some (files (snd (FileDestination.make path r w)) !! absoluteFilePath w path)
   ∧ (∀ q, q ≠ absoluteFilePath w path →
           files (snd (FileDestination.make path r w)) !! q = files w !! q)
   ∧ cerr (snd (FileDestination.make path r w)) = cerr w)
  ∧ (DailyRotationStrategy.getFileName
       (DailyRotationStrategy.setInitialInfo (mkQFile path false) w s) w = name →
     name ≠ "" →
     absolutePath w name ∈ missing (denied w) →
     absolutePath w name ∉ denied w →
     absoluteFilePath w name ∉ protected (denied w) →
     DailyFileDestination.isValid (fst (DailyFileDestination.make path (DailyRS s) w)) = true
     ∧ denied (snd (DailyFileDestination.make path (DailyRS s) w))
       = {| protected := protected (denied w);
            missing := missing (denied w) ∖ {[absolutePath w name]} |}
     ∧ files (snd (DailyFileDestination.make path (DailyRS s) w))
       = <[absoluteFilePath w name := mkFile "" (now w)]> (files w)
     ∧ cerr (snd (DailyFileDestination.make path (DailyRS s) w)) = cerr w).
Proof.
  split.
  - intros Hname Hm Hd Hp. unfold FileDestination.make.
    rewrite (mkdir_if_missing_creates path w Hname Hm Hd).
    set (w0 := with_denied _ w).
    assert (HP0 : absoluteFilePath w0 path = absoluteFilePath w path) by reflexivity.
    rewrite (QFile_open_ok _ (setFileName path (mkQFile "" false)) w0).
    2: exact Hname.
    2:{ cbn [fileName setFileName]. rewrite HP0. by apply created_directory_available. }
    cbn [fst snd FileDestination.isValid FileDestination.mFile isOpen fileName setFileName
         files with_files cerr fscalls record_call denied].
    rewrite HP0. split; [reflexivity|]. split; [reflexivity|]. split; [|split].
    + rewrite lookup_insert_eq. by eexists.
    + intros q Hq. by rewrite lookup_insert_ne.
    + reflexivity.
  - intros Hfn Hname Hm Hd Hp. unfold DailyFileDestination.make.
    change (QsLogging.getFileName
              (QsLogging.setInitialInfo (mkQFile path false) w (DailyRS s)) w)
      with (DailyRotationStrategy.getFileName
              (DailyRotationStrategy.setInitialInfo (mkQFile path false) w s) w).
    rewrite Hfn. clear Hfn.
    rewrite (mkdir_if_missing_creates name w Hname Hm Hd).
    set (w0 := with_denied _ w).
    assert (HP0 : absoluteFilePath w0 name = absoluteFilePath w name) by reflexivity.
    rewrite (QFile_open_ok _ (setFileName name (mkQFile "" false)) w0).
    2: exact Hname.
    2:{ cbn [fileName setFileName]. rewrite HP0. by apply created_directory_available. }
    cbn [fst snd DailyFileDestination.isValid DailyFileDestination.mFile isOpen fileName
         setFileName files with_files cerr fscalls record_call denied].
    rewrite HP0. split; [reflexivity|]. split; [reflexivity|]. split; [|reflexivity].
    f_equal. change (files w0) with (files w). change (now w0) with (now w).
    by destruct (files w !! absoluteFilePath w name).
Qed.

(** [/log/new] is missing and [/log] exists: the constructor creates
    [/log/new] and opens [/log/new/a.txt]. *)
Lemma constructor_creates_missing_directory_example :
  let w := mkWorld ∅ (mkDenied ∅ {["/log/new"]}) "/" (mkDateTime 2460375 0) number [] [] in
  let made := FileDestination.make "/log/new/a.txt" NullRS w in
  FileDestination.isValid (fst made) = true
  ∧ missing (denied (snd made)) = ∅
  ∧ is_Some (files (snd made) !! "/log/new/a.txt").
Proof.
  intros w made.
  destruct (constructor_creates_missing_directory "/log/new/a.txt" "" NullRS
              DailyRotationStrategy.make w) as [H _].
  destruct H as (Hv & Hd & Hf & _).
  - discriminate.
  - vm_compute. reflexivity.
  - not_denied.
  - vm_compute. discriminate.
  - split; [exact Hv|]. split; [|exact Hf].
    unfold made. rewrite Hd. vm_compute. reflexivity.
Defined.

End MissingDirectory.

(* ===================================================================== *)
(** ** The backup chain and place markers *)
(* ===================================================================== *)

Section BackupChainMarker.


End BackupChainMarker.
